(** * Agentify: the stream decoders and the stream session

    A shallow embedding of [src/agentify/streaming/StreamHandler.js] and of
    the two response handlers of [src/agentify/core/Agentify.js].

    JavaScript strings are sequences of UTF-16 code units, JSON documents are
    values of an inductive type, the [processed] array of a decode pass is the
    state of a small state-and-exception monad, and the stream session is a
    function over the script of transport reads which records every callback
    it invokes. *)

From Stdlib Require Import ZArith NArith List String Ascii Bool Lia.
Import ListNotations.

#[local] Set Warnings "-register-all".

(* ================================================================== *)
(** ** JavaScript strings *)
(* ================================================================== *)

Module JsString.

(** A code unit is a UTF-16 code unit; a string is a list of them. *)
Definition code_unit := N.
Definition jsstring := list code_unit.

(** ASCII literals. *)
Definition js (s : string) : jsstring :=
  map N_of_ascii (list_ascii_of_string s).

(** ASCII literals of payloads: an apostrophe in the literal stands for a
    double quote of the payload. *)
Definition payload (s : string) : jsstring :=
  map (fun c => if N.eqb c 39 then 34%N else c) (js s).

Arguments js s : simpl never.
Arguments payload s : simpl never.

Definition LF : code_unit := 10%N.

Fixpoint eqb (a b : jsstring) : bool :=
  match a, b with
  | [], [] => true
  | x :: a', y :: b' => N.eqb x y && eqb a' b'
  | _, _ => false
  end.

Definition is_empty (s : jsstring) : bool :=
  match s with [] => true | _ => false end.

(** [String.prototype.split] with the separator "\n": never empty. *)
Fixpoint split_newline (s : jsstring) : list jsstring :=
  match s with
  | [] => [[]]
  | c :: rest =>
      if N.eqb c LF then [] :: split_newline rest
      else match split_newline rest with
           | l :: ls => (c :: l) :: ls
           | [] => [[c]]
           end
  end.

(** [Array.prototype.pop] followed by [|| ''], on an array of strings:
    the array without its last element, and that element (the empty
    string when there is none or when it is empty). *)
Definition pop_or_empty (lines : list jsstring) : list jsstring * jsstring :=
  (removelast lines, last lines []).

(** WhiteSpace and LineTerminator code units, the ones [trim] strips. *)
Definition is_trim_space (c : code_unit) : bool :=
  (N.leb 9 c && N.leb c 13) || N.eqb c 32 || N.eqb c 160 ||
  N.eqb c 5760 || (N.leb 8192 c && N.leb c 8202) ||
  N.eqb c 8232 || N.eqb c 8233 || N.eqb c 8239 || N.eqb c 8287 ||
  N.eqb c 12288 || N.eqb c 65279.

Fixpoint drop_space (s : jsstring) : jsstring :=
  match s with
  | c :: rest => if is_trim_space c then drop_space rest else s
  | [] => []
  end.

Definition trim (s : jsstring) : jsstring :=
  rev (drop_space (rev (drop_space s))).

Fixpoint startsWith (s p : jsstring) : bool :=
  match p, s with
  | [], _ => true
  | x :: p', y :: s' => N.eqb x y && startsWith s' p'
  | _ :: _, [] => false
  end.

(** [s.substring(n)] *)
Definition substring (s : jsstring) (n : nat) : jsstring := skipn n s.

(** The code units the regular expression [.] does not match. *)
Definition is_line_terminator (c : code_unit) : bool :=
  N.eqb c 10 || N.eqb c 13 || N.eqb c 8232 || N.eqb c 8233.

(** [s.match(/^<prefix>(.+)$/)]: the first group, when the match succeeds
    (no flag: [$] is the end of the string, [.] is any code unit but a
    line terminator). *)
Definition match_prefix_rest (prefix s : jsstring) : option jsstring :=
  if startsWith s prefix then
    let rest := skipn (List.length prefix) s in
    if negb (is_empty rest) && forallb (fun c => negb (is_line_terminator c)) rest
    then Some rest else None
  else None.

(** The iteration of a string by [for ... of]: code points, a surrogate
    pair counting for one. *)
Definition is_high_surrogate (c : code_unit) : bool :=
  N.leb 55296 c && N.leb c 56319.
Definition is_low_surrogate (c : code_unit) : bool :=
  N.leb 56320 c && N.leb c 57343.

Fixpoint code_points (s : jsstring) : list jsstring :=
  match s with
  | [] => []
  | c :: rest =>
      match rest with
      | d :: rest' =>
          if is_high_surrogate c && is_low_surrogate d
          then [c; d] :: code_points rest'
          else [c] :: code_points rest
      | [] => [[c]]
      end
  end.

End JsString.
Import JsString.

(* ================================================================== *)
(** ** JavaScript values *)
(* ================================================================== *)

(** The values [JSON.parse] returns, and [undefined].  A number is kept as
    the decimal [m * 10^e] its literal denotes. *)
Inductive value : Type :=
| VUndefined
| VNull
| VBool (b : bool)
| VNumber (m e : Z)
| VString (s : jsstring)
| VArray (items : list value)
| VObject (props : list (jsstring * value)).

(** The double nearest to [m * 10^e] is zero: [m] is zero, or the decimal is
    at most half of the least subnormal, [2^-1075]. *)
Definition rounds_to_zero (m e : Z) : bool :=
  Z.eqb m 0 || (Z.ltb e 0 && Z.leb (Z.abs m * 2 ^ 1075) (10 ^ (- e))).

(** ToBoolean. *)
Definition truthy (v : value) : bool :=
  match v with
  | VUndefined | VNull => false
  | VBool b => b
  | VNumber m e => negb (rounds_to_zero m e)
  | VString s => negb (is_empty s)
  | VArray _ | VObject _ => true
  end.

(** [v === 'lit'] *)
Definition is_string (v : value) (lit : jsstring) : bool :=
  match v with VString s => JsString.eqb s lit | _ => false end.

(** Own property of an object built by [JSON.parse]: of two members with the
    same name the later one wins. *)
Fixpoint own_property (k : jsstring) (props : list (jsstring * value)) : option value :=
  match props with
  | [] => None
  | (k', v) :: rest =>
      match own_property k rest with
      | Some v' => Some v'
      | None => if JsString.eqb k k' then Some v else None
      end
  end.

(** A canonical array index: "0", or digits without a leading zero. *)
Definition digit_of (c : code_unit) : option nat :=
  if N.leb 48 c && N.leb c 57 then Some (N.to_nat (c - 48)) else None.

Fixpoint digits_value (acc : nat) (s : jsstring) : option nat :=
  match s with
  | [] => Some acc
  | c :: rest =>
      match digit_of c with
      | Some d => digits_value (10 * acc + d) rest
      | None => None
      end
  end.

Definition array_index (k : jsstring) : option nat :=
  match k with
  | [] => None
  | c :: rest =>
      if N.eqb c 48 then (if is_empty rest then Some 0 else None)
      else digits_value 0 k
  end.

(** The engine's TypeError and the other things JavaScript code can throw.
    [ThrownObject] is any thrown value that is neither [null] nor
    [undefined] nor a [StreamError], with what its [message] and [stack]
    properties read. *)
Inductive error_details : Type :=
| DetailsError (error : value)
| DetailsOriginal (originalError stack : value).

Record stream_error : Type := StreamError {
  se_message : jsstring;
  se_code : jsstring;
  se_details : error_details
}.

Inductive thrown : Type :=
| ThrownStreamError (e : stream_error)
| ThrownObject (message stack : value)
| ThrownNullish.

(** The message and the stack of an engine error are the engine's; the
    model keeps the message it is given and no stack. *)
Definition TypeError (message : string) : thrown :=
  ThrownObject (VString (js message)) VUndefined.

(** A completion: the value returned, or what was thrown. *)
Definition completion (A : Type) : Type := (thrown + A)%type.

(** [v[k]] and [v.k], for property names that no built-in prototype
    defines (every name the decoders read is one). *)
Definition get_property (v : value) (k : jsstring) : completion value :=
  match v with
  | VUndefined | VNull => inl (TypeError "Cannot read properties of null or undefined")
  | VBool _ | VNumber _ _ => inr VUndefined
  | VString s =>
      match array_index k with
      | Some i => match nth_error s i with
                  | Some c => inr (VString [c])
                  | None => inr VUndefined
                  end
      | None => if JsString.eqb k (js "length")
                then inr (VNumber (Z.of_nat (List.length s)) 0)
                else inr VUndefined
      end
  | VArray items =>
      match array_index k with
      | Some i => match nth_error items i with
                  | Some x => inr x
                  | None => inr VUndefined
                  end
      | None => if JsString.eqb k (js "length")
                then inr (VNumber (Z.of_nat (List.length items)) 0)
                else inr VUndefined
      end
  | VObject props =>
      match own_property k props with
      | Some x => inr x
      | None => inr VUndefined
      end
  end.

(** [v?.k] *)
Definition get_optional (v : value) (k : jsstring) : completion value :=
  match v with
  | VUndefined | VNull => inr VUndefined
  | _ => get_property v k
  end.

(** The values a [for ... of] loop visits. *)
Definition iterate (v : value) : completion (list value) :=
  match v with
  | VArray items => inr items
  | VString s => inr (map VString (code_points s))
  | _ => inl (TypeError "value is not iterable")
  end.

(* ================================================================== *)
(** ** A reference [JSON.parse] *)
(* ================================================================== *)

(** The decoders are stated over any [JSON.parse]; this one, a recursive
    descent over the JSON grammar, is the one the examples run. *)
Module JSON.

Definition is_ws (c : code_unit) : bool :=
  N.eqb c 9 || N.eqb c 10 || N.eqb c 13 || N.eqb c 32.

Fixpoint skip_ws (s : jsstring) : jsstring :=
  match s with
  | c :: rest => if is_ws c then skip_ws rest else s
  | [] => []
  end.

Definition hex_value (c : code_unit) : option N :=
  if N.leb 48 c && N.leb c 57 then Some (c - 48)%N
  else if N.leb 65 c && N.leb c 70 then Some (c - 55)%N
  else if N.leb 97 c && N.leb c 102 then Some (c - 87)%N
  else None.

Definition hex4 (a b c d : code_unit) : option code_unit :=
  match hex_value a, hex_value b, hex_value c, hex_value d with
  | Some x, Some y, Some z, Some w => Some (((x * 16 + y) * 16 + z) * 16 + w)%N
  | _, _, _, _ => None
  end.

(** The code unit a two-character escape stands for. *)
Definition simple_escape (c : code_unit) : option code_unit :=
  if N.eqb c 34 then Some 34%N          (* quote *)
  else if N.eqb c 92 then Some 92%N     (* backslash *)
  else if N.eqb c 47 then Some 47%N     (* slash *)
  else if N.eqb c 98 then Some 8%N      (* b *)
  else if N.eqb c 102 then Some 12%N    (* f *)
  else if N.eqb c 110 then Some 10%N    (* n *)
  else if N.eqb c 114 then Some 13%N    (* r *)
  else if N.eqb c 116 then Some 9%N     (* t *)
  else None.

(** The characters of a string literal after its opening quote, up to the
    closing one; [acc] holds the decoded code units, last first. *)
Fixpoint string_chars (s : jsstring) (acc : jsstring) : option (jsstring * jsstring) :=
  match s with
  | [] => None
  | c :: rest =>
      if N.eqb c 34 then Some (rev acc, rest)
      else if N.eqb c 92 then
        match rest with
        | e :: rest' =>
            if N.eqb e 117 then
              match rest' with
              | h1 :: h2 :: h3 :: h4 :: rest'' =>
                  match hex4 h1 h2 h3 h4 with
                  | Some u => string_chars rest'' (u :: acc)
                  | None => None
                  end
              | _ => None
              end
            else
              match simple_escape e with
              | Some x => string_chars rest' (x :: acc)
              | None => None
              end
        | [] => None
        end
      else if N.ltb c 32 then None
      else string_chars rest (c :: acc)
  end.

Definition is_digit (c : code_unit) : bool := N.leb 48 c && N.leb c 57.

(** The longest run of digits: its value on top of [acc], its length, and
    what follows. *)
Fixpoint take_digits (s : jsstring) (acc : Z) (n : Z) : Z * Z * jsstring :=
  match s with
  | c :: rest =>
      if is_digit c then take_digits rest (10 * acc + Z.of_N (c - 48)) (n + 1)
      else (acc, n, s)
  | [] => (acc, n, [])
  end.

(** A number literal without its sign: [m], [e] and what follows. *)
Definition unsigned_number (s : jsstring) : option (Z * Z * jsstring) :=
  let int_part :=
    match s with
    | c :: rest =>
        if N.eqb c 48 then Some (0%Z, rest)
        else if is_digit c then
          let '(m, _, r) := take_digits s 0 0 in Some (m, r)
        else None
    | [] => None
    end in
  match int_part with
  | None => None
  | Some (m, r) =>
      let frac_part :=
        match r with
        | c :: r1 =>
            if N.eqb c 46 then
              let '(m', n, r2) := take_digits r1 m 0 in
              if Z.eqb n 0 then None else Some (m', n, r2)
            else Some (m, 0%Z, r)
        | [] => Some (m, 0%Z, r)
        end in
      match frac_part with
      | None => None
      | Some (m', n, r2) =>
          match r2 with
          | c :: r3 =>
              if N.eqb c 101 || N.eqb c 69 then
                let '(negative, r4) :=
                  match r3 with
                  | sg :: r4 =>
                      if N.eqb sg 45 then (true, r4)
                      else if N.eqb sg 43 then (false, r4)
                      else (false, r3)
                  | [] => (false, r3)
                  end in
                let '(x, k, r5) := take_digits r4 0 0 in
                if Z.eqb k 0 then None
                else Some (m', ((if negative then - x else x) - n)%Z, r5)
              else Some (m', (- n)%Z, r2)
          | [] => Some (m', (- n)%Z, r2)
          end
      end
  end.

Definition number (s : jsstring) : option (value * jsstring) :=
  match s with
  | c :: rest =>
      if N.eqb c 45 then
        match unsigned_number rest with
        | Some (m, e, r) => Some (VNumber (- m) e, r)
        | None => None
        end
      else
        match unsigned_number s with
        | Some (m, e, r) => Some (VNumber m e, r)
        | None => None
        end
  | [] => None
  end.

Definition keyword (word : string) (v : value) (s : jsstring) : option (value * jsstring) :=
  if startsWith s (js word)
  then Some (v, skipn (List.length (js word)) s)
  else None.

Fixpoint parse_value (fuel : nat) (s : jsstring) : option (value * jsstring) :=
  match fuel with
  | O => None
  | S fuel' =>
      match skip_ws s with
      | [] => None
      | c :: rest =>
          if N.eqb c 123 then                       (* { *)
            match skip_ws rest with
            | d :: rest' =>
                if N.eqb d 125 then Some (VObject [], rest')
                else parse_members fuel' rest []
            | [] => None
            end
          else if N.eqb c 91 then                   (* [ *)
            match skip_ws rest with
            | d :: rest' =>
                if N.eqb d 93 then Some (VArray [], rest')
                else parse_elements fuel' rest []
            | [] => None
            end
          else if N.eqb c 34 then
            match string_chars rest [] with
            | Some (str, r) => Some (VString str, r)
            | None => None
            end
          else if N.eqb c 116 then keyword "true" (VBool true) (c :: rest)
          else if N.eqb c 102 then keyword "false" (VBool false) (c :: rest)
          else if N.eqb c 110 then keyword "null" VNull (c :: rest)
          else number (c :: rest)
      end
  end
with parse_elements (fuel : nat) (s : jsstring) (acc : list value)
  : option (value * jsstring) :=
  match fuel with
  | O => None
  | S fuel' =>
      match parse_value fuel' s with
      | Some (v, r) =>
          match skip_ws r with
          | c :: r' =>
              if N.eqb c 44 then parse_elements fuel' r' (v :: acc)
              else if N.eqb c 93 then Some (VArray (rev (v :: acc)), r')
              else None
          | [] => None
          end
      | None => None
      end
  end
with parse_members (fuel : nat) (s : jsstring) (acc : list (jsstring * value))
  : option (value * jsstring) :=
  match fuel with
  | O => None
  | S fuel' =>
      match skip_ws s with
      | q :: r =>
          if N.eqb q 34 then
            match string_chars r [] with
            | Some (k, r1) =>
                match skip_ws r1 with
                | colon :: r2 =>
                    if N.eqb colon 58 then
                      match parse_value fuel' r2 with
                      | Some (v, r3) =>
                          match skip_ws r3 with
                          | c :: r4 =>
                              if N.eqb c 44 then parse_members fuel' r4 ((k, v) :: acc)
                              else if N.eqb c 125 then Some (VObject (rev ((k, v) :: acc)), r4)
                              else None
                          | [] => None
                          end
                      | None => None
                      end
                    else None
                | [] => None
                end
            | None => None
            end
          else None
      | [] => None
      end
  end.

(** The SyntaxError of the engine; as for [TypeError], the text is the
    model's. *)
Definition SyntaxError (message : string) : thrown :=
  ThrownObject (VString (js message)) VUndefined.

(** Each call of the three functions either consumes a code unit or is
    followed by one that does, so twice the length is fuel enough. *)
Definition parse (text : jsstring) : completion value :=
  match parse_value (2 * List.length text + 2) text with
  | Some (v, rest) =>
      if is_empty (skip_ws rest) then inr v
      else inl (SyntaxError "Unexpected non-whitespace character after JSON")
  | None => inl (SyntaxError "Unexpected token in JSON")
  end.

End JSON.

(* ================================================================== *)
(** ** Statements that mutate a state and may throw *)
(* ================================================================== *)

(** A computation over a mutable state [S]: what it has done to the state
    stays done when it throws.  A decode pass runs over its [processed]
    array, the read loop of the session over the session's variables. *)
Module Exc.

Section WithState.
Context {S : Type}.

Definition m (A : Type) : Type := S -> completion A * S.

Definition ret {A} (a : A) : m A := fun s => (inr a, s).

Definition throw {A} (e : thrown) : m A := fun s => (inl e, s).

Definition bind {A B} (c : m A) (k : A -> m B) : m B :=
  fun s =>
    match c s with
    | (inr a, s') => k a s'
    | (inl e, s') => (inl e, s')
    end.

Definition lift {A} (c : completion A) : m A := fun s => (c, s).

(** [try { body } catch (error) { continue; }] *)
Definition try_skip (body : m unit) : m unit :=
  fun s => (inr tt, snd (body s)).

Definition when (b : bool) (body : m unit) : m unit :=
  if b then body else ret tt.

(** [for (const x of items) body] over the values already listed. *)
Fixpoint for_each {A} (items : list A) (body : A -> m unit) : m unit :=
  match items with
  | [] => ret tt
  | x :: rest => bind (body x) (fun _ => for_each rest body)
  end.

(** [for (const x of v) body] *)
Definition for_of (v : value) (body : value -> m unit) : m unit :=
  bind (lift (iterate v)) (fun items => for_each items body).

End WithState.

End Exc.
Import Exc.

Declare Scope exc_scope.
Delimit Scope exc_scope with exc.
Notation "x <- c ;; k" := (bind c (fun x => k))
  (at level 61, c at next level, right associativity) : exc_scope.
Notation "c ;;; k" := (bind c (fun _ => k))
  (at level 61, right associativity) : exc_scope.
Notation "v '.[' k ']'" := (lift (get_property v (js k)))
  (at level 1, format "v .[ k ]") : exc_scope.
Notation "v '?.[' k ']'" := (lift (get_optional v (js k)))
  (at level 1, format "v ?.[ k ]") : exc_scope.

(** The monad of a decode pass: the state is the [processed] array. *)
Definition dec (A : Type) : Type := @m (list value) A.

(** [processed.push(item)] *)
Definition push (item : value) : dec unit :=
  fun processed => (inr tt, processed ++ [item]).

(* ================================================================== *)
(** ** Semantic events *)
(* ================================================================== *)

(** The object literals the decoders push. *)
Definition ev_token (content : value) : value :=
  VObject [(js "type", VString (js "token")); (js "content", content)].

Definition ev_tool_call (data : value) : value :=
  VObject [(js "type", VString (js "tool_call")); (js "data", data)].

Definition ev_finish (reason : value) : value :=
  VObject [(js "type", VString (js "finish")); (js "reason", reason)].

(** The [type] of an item of [processed]. *)
Definition event_type (item : value) : value :=
  match get_property item (js "type") with
  | inr t => t
  | inl _ => VUndefined
  end.

(* ================================================================== *)
(** ** The provider decoders *)
(* ================================================================== *)

(** The instance state of a [StreamHandler]. *)
Record handler : Type := Handler {
  buffer : jsstring;
  isStreaming : bool
}.

Definition set_buffer (this : handler) (b : jsstring) : handler :=
  {| buffer := b; isStreaming := isStreaming this |}.

Definition set_isStreaming (this : handler) (b : bool) : handler :=
  {| buffer := buffer this; isStreaming := b |}.

Section Decoders.

(** [JSON.parse]: the value, or the SyntaxError thrown. *)
Variable JSON_parse : jsstring -> completion value.

Local Open Scope exc_scope.

(** The body of the [try] of [processOpenAIBuffer], after the parse. *)
Definition openai_data (data : value) : dec unit :=
  choices <- data.["choices"] ;;
  guard <- (if truthy choices
            then (c <- data.["choices"] ;; c.["0"])
            else ret choices) ;;
  when (truthy guard) (
    c <- data.["choices"] ;;
    choice <- c.["0"] ;;
    (* Regular content delta *)
    delta <- choice.["delta"] ;;
    content <- delta?.["content"] ;;
    when (truthy content) (
      d <- choice.["delta"] ;;
      text <- d.["content"] ;;
      push (ev_token text)) ;;;
    (* Tool calls *)
    delta <- choice.["delta"] ;;
    tool_calls <- delta?.["tool_calls"] ;;
    when (truthy tool_calls) (
      d <- choice.["delta"] ;;
      calls <- d.["tool_calls"] ;;
      for_of calls (fun toolCall =>
        f <- toolCall.["function"] ;;
        when (truthy f) (
          id <- toolCall.["id"] ;;
          f1 <- toolCall.["function"] ;;
          name <- f1.["name"] ;;
          f2 <- toolCall.["function"] ;;
          arguments <- f2.["arguments"] ;;
          push (ev_tool_call (VObject [(js "id", id);
                                       (js "name", name);
                                       (js "arguments", arguments)]))))) ;;;
    (* Finish reason *)
    finish_reason <- choice.["finish_reason"] ;;
    when (truthy finish_reason) (
      reason <- choice.["finish_reason"] ;;
      push (ev_finish reason))).

(** One iteration of the [for (const line of lines)] of
    [processOpenAIBuffer]. *)
Definition openai_line (line : jsstring) : dec unit :=
  if is_empty (trim line) || JsString.eqb (trim line) (js "data: [DONE]")
  then ret tt
  else if startsWith line (js "data: ")
  then try_skip (
         let jsonStr := substring line 6 in
         data <- lift (JSON_parse jsonStr) ;;
         openai_data data)
  else ret tt.

(** The body of the [try] of [processAnthropicBuffer], after the parse. *)
Definition anthropic_data (data : value) : dec unit :=
  (* Content block delta *)
  ty <- data.["type"] ;;
  when (is_string ty (js "content_block_delta")) (
    delta <- data.["delta"] ;;
    text <- delta?.["text"] ;;
    when (truthy text) (
      d <- data.["delta"] ;;
      t <- d.["text"] ;;
      push (ev_token t))) ;;;
  (* Thinking block: the condition is evaluated, the branch is empty *)
  ty <- data.["type"] ;;
  _ <- (if is_string ty (js "content_block_start")
        then (b <- data.["content_block"] ;; b?.["type"])
        else ret VUndefined) ;;
  (* Tool use *)
  ty <- data.["type"] ;;
  block_type <- (if is_string ty (js "content_block_start")
                 then (b <- data.["content_block"] ;; b?.["type"])
                 else ret VUndefined) ;;
  when (is_string ty (js "content_block_start") &&
        is_string block_type (js "tool_use")) (
    b1 <- data.["content_block"] ;;
    id <- b1.["id"] ;;
    b2 <- data.["content_block"] ;;
    name <- b2.["name"] ;;
    b3 <- data.["content_block"] ;;
    input <- b3.["input"] ;;
    push (ev_tool_call (VObject [(js "id", id);
                                 (js "name", name);
                                 (js "input", input)]))) ;;;
  (* Message stop *)
  ty <- data.["type"] ;;
  when (is_string ty (js "message_stop")) (
    push (ev_finish (VString (js "stop")))).

(** One iteration of the loop of [processAnthropicBuffer]. *)
Definition anthropic_line (line : jsstring) : dec unit :=
  if is_empty (trim line)
  then ret tt
  else if startsWith line (js "event: ") || startsWith line (js "data: ")
  then
    let eventMatch := match_prefix_rest (js "event: ") line in
    let dataMatch := match_prefix_rest (js "data: ") line in
    match dataMatch with
    | Some group1 =>
        try_skip (data <- lift (JSON_parse group1) ;; anthropic_data data)
    | None => ret tt
    end
  else ret tt.

(** The body of the [try] of [processGeminiBuffer], after the parse. *)
Definition gemini_data (data : value) : dec unit :=
  candidates <- data.["candidates"] ;;
  guard <- (if truthy candidates
            then (c <- data.["candidates"] ;; c.["0"])
            else ret candidates) ;;
  when (truthy guard) (
    c <- data.["candidates"] ;;
    candidate <- c.["0"] ;;
    content <- candidate.["content"] ;;
    parts <- content?.["parts"] ;;
    when (truthy parts) (
      content <- candidate.["content"] ;;
      parts <- content.["parts"] ;;
      for_of parts (fun part =>
        text <- part.["text"] ;;
        when (truthy text) (
          t <- part.["text"] ;;
          push (ev_token t)) ;;;
        functionCall <- part.["functionCall"] ;;
        when (truthy functionCall) (
          f1 <- part.["functionCall"] ;;
          name <- f1.["name"] ;;
          f2 <- part.["functionCall"] ;;
          args <- f2.["args"] ;;
          push (ev_tool_call (VObject [(js "name", name);
                                       (js "arguments", args)]))))) ;;;
    finishReason <- candidate.["finishReason"] ;;
    when (truthy finishReason) (
      reason <- candidate.["finishReason"] ;;
      push (ev_finish reason))).

(** One iteration of the loop of [processGeminiBuffer]. *)
Definition gemini_line (line : jsstring) : dec unit :=
  if is_empty (trim line)
  then ret tt
  else try_skip (data <- lift (JSON_parse line) ;; gemini_data data).

(** The three decoders share their frame: split the buffer, keep the last
    element as the new buffer, run the loop over the other lines from an
    empty [processed], return [processed]. *)
Definition process_lines (line_body : jsstring -> dec unit) (this : handler)
  : completion (list value) * handler :=
  let lines := split_newline (buffer this) in
  let (lines, last_line) := pop_or_empty lines in
  let this := set_buffer this last_line in
  match for_each lines line_body [] with
  | (inr _, processed) => (inr processed, this)
  | (inl e, _) => (inl e, this)
  end.

Definition processOpenAIBuffer : handler -> completion (list value) * handler :=
  process_lines openai_line.

Definition processAnthropicBuffer : handler -> completion (list value) * handler :=
  process_lines anthropic_line.

Definition processGeminiBuffer : handler -> completion (list value) * handler :=
  process_lines gemini_line.

(** [processBuffer(provider)]: the [switch] on the tag; the spread into a
    fresh array copies the decoder's result. *)
Definition processBuffer (provider : jsstring) (this : handler)
  : completion (list value) * handler :=
  if JsString.eqb provider (js "openai") || JsString.eqb provider (js "deepseek")
  then processOpenAIBuffer this
  else if JsString.eqb provider (js "anthropic")
  then processAnthropicBuffer this
  else if JsString.eqb provider (js "gemini")
  then processGeminiBuffer this
  else processOpenAIBuffer this.

End Decoders.

(* ================================================================== *)
(** ** The stand-alone parsers and the accessors *)
(* ================================================================== *)

(** The event object of [parseSSE]. *)
Module Sse.
Record t : Type := make {
  data : jsstring;
  event : jsstring
}.
End Sse.

(** [{ data: '', event: 'message' }] *)
Definition sse_fresh : Sse.t := Sse.make [] (js "message").

(** One iteration of the loop of [parseSSE], over the array [events] and
    the variable [event]; [{ ...event }] copies the object it pushes. *)
Definition parseSSE_line (line : jsstring) (st : list Sse.t * Sse.t)
  : list Sse.t * Sse.t :=
  let (events, event) := st in
  if startsWith line (js "event: ") then
    (events, Sse.make (Sse.data event) (substring line 7))
  else if startsWith line (js "data: ") then
    (events, Sse.make (Sse.data event ++ substring line 6) (Sse.event event))
  else if is_empty (trim line) then
    if negb (is_empty (Sse.data event))
    then (events ++ [event], sse_fresh)
    else (events, event)
  else (events, event).

(** [parseSSE(chunk)] *)
Definition parseSSE (chunk : jsstring) : list Sse.t :=
  let lines := split_newline chunk in
  fst (fold_left (fun st line => parseSSE_line line st) lines ([], sse_fresh)).

Section Parsers.

Variable JSON_parse : jsstring -> completion value.

Local Open Scope exc_scope.

(** One iteration of the loop of [parseNDJSON], over the array
    [objects]. *)
Definition ndjson_line (line : jsstring) : dec unit :=
  if is_empty (trim line)
  then ret tt
  else try_skip (object <- lift (JSON_parse line) ;; push object).

(** [parseNDJSON(chunk)] *)
Definition parseNDJSON (chunk : jsstring) : list value :=
  let lines := split_newline chunk in
  snd (for_each lines ndjson_line []).

End Parsers.

(** [isCurrentlyStreaming()] and [getBuffer()] *)
Definition isCurrentlyStreaming (this : handler) : bool := isStreaming this.

Definition getBuffer (this : handler) : jsstring := buffer this.

(* ================================================================== *)
(** ** The stream session: [handleStream] *)
(* ================================================================== *)

(** The settled or unsettled state of a promise. *)
Inductive promise (A : Type) : Type :=
| Pending
| Fulfilled (a : A)
| Rejected (e : thrown).
Arguments Pending {A}.
Arguments Fulfilled {A} a.
Arguments Rejected {A} e.

(** What a call hands back: a plain value, or the promise an [async]
    function returns. *)
Inductive returned : Type :=
| RetValue (v : value)
| RetPromise (p : promise value).

(** The [result] object of [handleStream]. *)
Module Result.
Record t : Type := make {
  content : jsstring;
  toolCalls : list value;
  thinkingContent : jsstring;
  finishReason : jsstring
}.
End Result.

(** The transport as [handleStream] sees it: what the successive
    [await reader.read()] give.  A chunk is the text the [TextDecoder]
    returned for it; [stop] tells that [stopStream()] was called while the
    read was pending.  [Stalled] is a read that never settles, during which
    [stopStream()] may be called as well. *)
Inductive transport : Type :=
| Chunk (text : jsstring) (stop : bool) (rest : transport)
| Done
| Fail (e : thrown)
| Stalled (stop : bool).

(** [response.body.getReader()] throws, or gives a reader. *)
Inductive response : Type :=
| BadResponse (e : thrown)
| Stream (reads : transport).

(** The invocations of the callbacks, in order. *)
Inductive call : Type :=
| OnToken (text : value)
| OnThinking (text : value)
| OnToolCall (data : value)
| OnComplete (result : Result.t)
| OnError (error : thrown).

(** Modelled from the spec: [ErrorManager.createStreamError] and
    [StreamError.codes] are in files of the repository that are not at hand.
    The factory "constructs a stream-parse-failure carrying a
    machine-readable code and a details payload"; the README gives the code
    [STR_PARSE_FAILED]. *)
Definition PARSE_FAILED : jsstring := js "STR_PARSE_FAILED".

Definition createStreamError (message : string) (code : jsstring)
  (details : error_details) : thrown :=
  ThrownStreamError (StreamError (js message) code details).

(** [error instanceof StreamError] *)
Definition instanceof_StreamError (error : thrown) : bool :=
  match error with ThrownStreamError _ => true | _ => false end.

(** [error.message] and [error.stack] *)
Definition error_message (error : thrown) : completion value :=
  match error with
  | ThrownStreamError e => inr (VString (se_message e))
  | ThrownObject message _ => inr message
  | ThrownNullish => inl (TypeError "Cannot read properties of null or undefined")
  end.

Definition error_stack (error : thrown) : completion value :=
  match error with
  | ThrownStreamError e => inr VUndefined
  | ThrownObject _ stack => inr stack
  | ThrownNullish => inl (TypeError "Cannot read properties of null or undefined")
  end.

Section ToString.

(** Number::toString, on the decimal of a number. *)
Variable NumberToString : Z -> Z -> jsstring.

(** ToString, as the [+=] of a string and a template literal apply it.
    An object with an own [toString] member (a JSON value, never a
    function) has no primitive value. *)
Fixpoint to_string (v : value) : completion jsstring :=
  match v with
  | VUndefined => inr (js "undefined")
  | VNull => inr (js "null")
  | VBool true => inr (js "true")
  | VBool false => inr (js "false")
  | VNumber m e => inr (NumberToString m e)
  | VString s => inr s
  | VArray items =>
      (fix join (l : list value) : completion jsstring :=
         match l with
         | [] => inr []
         | x :: rest =>
             let element :=
               match x with
               | VUndefined | VNull => inr []
               | _ => to_string x
               end in
             match element with
             | inl e => inl e
             | inr s =>
                 match rest with
                 | [] => inr s
                 | _ :: _ =>
                     match join rest with
                     | inl e => inl e
                     | inr r => inr (s ++ js "," ++ r)
                     end
                 end
             end
         end) items
  | VObject props =>
      match own_property (js "toString") props with
      | Some _ => inl (TypeError "Cannot convert object to primitive value")
      | None => inr (js "[object Object]")
      end
  end.

End ToString.

Section Session.

Variable JSON_parse : jsstring -> completion value.

(** [formatThinkingContent] of [utils/formatters.js], a file that is not
    at hand. *)
Variable formatThinkingContent : value -> value.

Variable NumberToString : Z -> Z -> jsstring.

(** The state of whatever the callbacks close over. *)
Variable W : Type.

(** What one invocation of a callback does: it returns or throws, it may
    have called [stopStream()], and it leaves its own state changed.  A
    callback that reaches the instance in another way, as by
    [clearBuffer()], is not modelled. *)
Record effect : Type := Effect {
  cb_completion : completion returned;
  cb_stop : bool;
  cb_world : W
}.

Record callbacks : Type := Callbacks {
  onToken : value -> W -> effect;
  onToolCall : value -> W -> effect;
  onThinking : value -> W -> effect;
  onComplete : Result.t -> W -> effect;
  onError : thrown -> W -> effect
}.

(** The default of each callback, [() => {}]. *)
Definition noop {A : Type} (_ : A) (w : W) : effect :=
  Effect (inr (RetValue VUndefined)) false w.

Definition default_callbacks : callbacks :=
  Callbacks noop noop noop noop noop.

(** The variables of one invocation of [handleStream]: the instance, the
    three accumulators, and, for the record, the callbacks' state and the
    calls made so far. *)
Record session : Type := Session {
  this : handler;
  fullContent : jsstring;
  toolCalls : list value;
  thinkingContent : jsstring;
  world : W;
  calls : list call
}.

Definition sess (A : Type) : Type := @m session A.

Definition with_this (s : session) (h : handler) : session :=
  Session h (fullContent s) (toolCalls s) (thinkingContent s) (world s) (calls s).

(** [stopStream()] *)
Definition stopStream (h : handler) : handler := set_isStreaming h false.

(** The call [cb(arg)], its returned value dropped. *)
Definition invoke {A : Type} (record : call) (cb : A -> W -> effect) (arg : A)
  : sess unit :=
  fun s =>
    let r := cb arg (world s) in
    let h := if cb_stop r then stopStream (this s) else this s in
    (match cb_completion r with
     | inl e => inl e
     | inr _ => inr tt
     end,
     Session h (fullContent s) (toolCalls s) (thinkingContent s)
             (cb_world r) (calls s ++ [record])).

Definition append_fullContent (text : jsstring) : sess unit :=
  fun s => (inr tt,
            Session (this s) (fullContent s ++ text) (toolCalls s)
                    (thinkingContent s) (world s) (calls s)).

Definition append_thinkingContent (text : jsstring) : sess unit :=
  fun s => (inr tt,
            Session (this s) (fullContent s) (toolCalls s)
                    (thinkingContent s ++ text) (world s) (calls s)).

Definition push_toolCall (data : value) : sess unit :=
  fun s => (inr tt,
            Session (this s) (fullContent s) (toolCalls s ++ [data])
                    (thinkingContent s) (world s) (calls s)).

Variable cbs : callbacks.
Variable provider : jsstring.

Local Open Scope exc_scope.

(** The body of [for (const item of processed)]. *)
Definition handle_item (item : value) : sess unit :=
  ty <- item.["type"] ;;
  if is_string ty (js "token") then
    content <- item.["content"] ;;
    text <- lift (to_string NumberToString content) ;;
    append_fullContent text ;;;
    content <- item.["content"] ;;
    invoke (OnToken content) (onToken cbs) content
  else
  ty <- item.["type"] ;;
  if is_string ty (js "thinking") then
    content <- item.["content"] ;;
    text <- lift (to_string NumberToString content) ;;
    append_thinkingContent text ;;;
    content <- item.["content"] ;;
    let formatted := formatThinkingContent content in
    invoke (OnThinking formatted) (onThinking cbs) formatted
  else
  ty <- item.["type"] ;;
  if is_string ty (js "tool_call") then
    data <- item.["data"] ;;
    push_toolCall data ;;;
    data <- item.["data"] ;;
    invoke (OnToolCall data) (onToolCall cbs) data
  else
  ty <- item.["type"] ;;
  if is_string ty (js "error") then
    data <- item.["data"] ;;
    throw (createStreamError "Stream error received" PARSE_FAILED
                             (DetailsError data))
  else ret tt.

(** How the [while] loop is left. *)
Inductive loop_exit : Type :=
| Exited
| Threw (e : thrown)
| Blocked.

(** [while (this.isStreaming) { ... }] over the reads of the transport. *)
Fixpoint read_loop (reads : transport) (s : session) : loop_exit * session :=
  if isStreaming (this s) then
    match reads with
    | Stalled stop =>
        let h := if stop then stopStream (this s) else this s in
        (Blocked, with_this s h)
    | Fail e => (Threw e, s)
    | Done => (Exited, s)
    | Chunk chunk stop rest =>
        let h := if stop then stopStream (this s) else this s in
        let h := set_buffer h (buffer h ++ chunk) in
        match processBuffer JSON_parse provider h with
        | (inl e, h') => (Threw e, with_this s h')
        | (inr processed, h') =>
            match for_each processed handle_item (with_this s h') with
            | (inl e, s') => (Threw e, s')
            | (inr _, s') => read_loop rest s'
            end
        end
    end
  else (Exited, s).

(** The [try] block. *)
Inductive try_exit : Type :=
| TryReturned (result : Result.t)
| TryThrew (e : thrown)
| TryBlocked.

Definition try_block (resp : response) (s : session) : try_exit * session :=
  match resp with
  | BadResponse e => (TryThrew e, s)
  | Stream reads =>
      match read_loop reads s with
      | (Blocked, s') => (TryBlocked, s')
      | (Threw e, s') => (TryThrew e, s')
      | (Exited, s') =>
          let result := Result.make (fullContent s') (toolCalls s')
                                    (thinkingContent s') (js "stop") in
          match invoke (OnComplete result) (onComplete cbs) result s' with
          | (inl e, s'') => (TryThrew e, s'')
          | (inr _, s'') => (TryReturned result, s'')
          end
      end
  end.

(** The [catch] block: what it throws, and the state it leaves. *)
Definition catch_block (error : thrown) (s : session) : thrown * session :=
  let s := with_this s (set_isStreaming (this s) false) in
  if instanceof_StreamError error then
    match invoke (OnError error) (onError cbs) error s with
    | (inl e, s') => (e, s')
    | (inr _, s') => (error, s')
    end
  else
    match error_message error with
    | inl e => (e, s)
    | inr message =>
        match error_stack error with
        | inl e => (e, s)
        | inr stack =>
            let streamError :=
              createStreamError "Stream processing failed" PARSE_FAILED
                                (DetailsOriginal message stack) in
            match invoke (OnError streamError) (onError cbs) streamError s with
            | (inl e, s') => (e, s')
            | (inr _, s') => (streamError, s')
            end
        end
    end.

(** The session as the [try] block is entered: [isStreaming] set, the
    buffer and the accumulators empty. *)
Definition initial_session (w : W) : session :=
  Session (Handler [] true) [] [] [] w [].

(** The [finally] block. *)
Definition finally_block (s : session) : session :=
  with_this s (Handler [] false).

(** [handleStream(response, callbacks, provider)] from a callbacks' state
    [w]: the promise it returns and the session it leaves. *)
Definition handleStream (resp : response) (w : W) : promise Result.t * session :=
  let s := initial_session w in
  match try_block resp s with
  | (TryReturned result, s') => (Fulfilled result, finally_block s')
  | (TryBlocked, s') => (Pending, s')
  | (TryThrew error, s') =>
      let (e, s'') := catch_block error s' in
      (Rejected e, finally_block s'')
  end.

End Session.

Arguments Effect {W} cb_completion cb_stop cb_world.
Arguments cb_completion {W} e.
Arguments cb_stop {W} e.
Arguments cb_world {W} e.
Arguments Callbacks {W} onToken onToolCall onThinking onComplete onError.
Arguments onToken {W} c.
Arguments onToolCall {W} c.
Arguments onThinking {W} c.
Arguments onComplete {W} c.
Arguments onError {W} c.
Arguments Session {W} this fullContent toolCalls thinkingContent world calls.
Arguments this {W} s.
Arguments fullContent {W} s.
Arguments toolCalls {W} s.
Arguments thinkingContent {W} s.
Arguments world {W} s.
Arguments calls {W} s.
Arguments with_this {W} s h.
Arguments initial_session {W} w.
Arguments finally_block {W} s.
Arguments noop {W A} _ w.
Arguments default_callbacks {W}.
Arguments invoke {W A} record cb arg _ : simpl never.
Arguments append_fullContent {W} text _.
Arguments append_thinkingContent {W} text _.
Arguments push_toolCall {W} data _.
Arguments handle_item formatThinkingContent NumberToString {W} cbs item _ : simpl never.
Arguments read_loop JSON_parse formatThinkingContent NumberToString {W} cbs provider reads s.
Arguments processBuffer JSON_parse provider this : simpl never.
Arguments try_block JSON_parse formatThinkingContent NumberToString {W} cbs provider resp s.
Arguments catch_block {W} cbs error s : simpl never.
Arguments handleStream JSON_parse formatThinkingContent NumberToString {W} cbs provider resp w.

(* ================================================================== *)
(** ** Tool-call dispatch: the two paths of [Agentify] *)
(* ================================================================== *)

(** An [async] function body over a mutable state: it returns, throws, or
    stays suspended at an [await] that never settles. *)
Module Async.

Section WithState.
Context {S : Type}.

Definition async (A : Type) : Type := S -> promise A * S.

Definition ret {A} (a : A) : async A := fun s => (Fulfilled a, s).

Definition throw {A} (e : thrown) : async A := fun s => (Rejected e, s).

Definition bind {A B} (c : async A) (k : A -> async B) : async B :=
  fun s =>
    match c s with
    | (Fulfilled a, s') => k a s'
    | (Rejected e, s') => (Rejected e, s')
    | (Pending, s') => (Pending, s')
    end.

Definition lift {A} (c : completion A) : async A :=
  fun s => (match c with inl e => Rejected e | inr a => Fulfilled a end, s).

(** [try { body } catch (error) { handler }] *)
Definition try_catch {A} (body : async A) (handler : thrown -> async A) : async A :=
  fun s =>
    match body s with
    | (Rejected e, s') => handler e s'
    | other => other
    end.

Definition when (b : bool) (body : async unit) : async unit :=
  if b then body else ret tt.

Fixpoint for_each {A} (items : list A) (body : A -> async unit) : async unit :=
  match items with
  | [] => ret tt
  | x :: rest => bind (body x) (fun _ => for_each rest body)
  end.

End WithState.

End Async.

Declare Scope async_scope.
Delimit Scope async_scope with async.
Notation "x <- c ;; k" := (Async.bind c (fun x => k))
  (at level 61, c at next level, right associativity) : async_scope.
Notation "c ;;; k" := (Async.bind c (fun _ => k))
  (at level 61, right associativity) : async_scope.
Notation "v '.[' k ']'" := (Async.lift (get_property v (js k)))
  (at level 1, format "v .[ k ]") : async_scope.

(** What [adapter.parseResponse] returns, as the handler reads it:
    [toolCalls] is absent or an array. *)
Record parsed_response : Type := ParsedResponse {
  pr_content : value;
  pr_toolCalls : option (list value);
  pr_finishReason : value
}.

(** The calls made to the collaborators (thinking tracker, event manager,
    task manager, console, the caller's own callbacks), in order.  Durations
    and timestamps are left out. *)
Inductive action : Type :=
| SetAction (text : jsstring)
| LogApiResponse
| LogAssistantMessageCompleted (content finishReason : value)
| LogToolCallInitiated (name arguments : value)
| LogToolCallCompleted (name arguments result : value)
| LogToolCallFailed (name arguments : value) (error : thrown)
| ConsoleError (error : thrown)
| UpdateTaskCompleted (output : value)
| StopThinking
| UserOnToolCall (toolCall : value)
| UserOnComplete (result : parsed_response).

Section Dispatch.

Variable NumberToString : Z -> Z -> jsstring.

(** The state of the tools and of the caller's callbacks. *)
Variable W : Type.

(** The tool registry, [toolManager.hasTool] and
    [toolManager.executeTool]: the promise the call returns, as it
    settles. *)
Variable hasTool : value -> bool.
Variable executeTool : value -> value -> W -> promise value * W.

(** [options.onToolCall] and [options.onComplete], when given. *)
Variable options_onToolCall : option (value -> W -> completion unit * W).
Variable options_onComplete : option (parsed_response -> W -> completion unit * W).

Record agent : Type := Agent {
  messages : list value;
  tools_world : W;
  log : list action
}.

Definition act (a : action) : Async.async unit :=
  fun s => (Fulfilled tt, Agent (messages s) (tools_world s) (log s ++ [a])).

Definition messages_push (msg : value) : Async.async unit :=
  fun s => (Fulfilled tt, Agent (messages s ++ [msg]) (tools_world s) (log s)).

(** A call of one of the caller's callbacks. *)
Definition user_call {A : Type} (a : action)
  (cb : option (A -> W -> completion unit * W)) (arg : A) : Async.async unit :=
  match cb with
  | None => Async.ret tt
  | Some f =>
      fun s =>
        let (c, w) := f arg (tools_world s) in
        (match c with inl e => Rejected e | inr _ => Fulfilled tt end,
         Agent (messages s) w (log s ++ [a]))
  end.

(** [await this.toolManager.executeTool(name, arguments)] *)
Definition await_executeTool (name arguments : value) : Async.async value :=
  fun s =>
    let (p, w) := executeTool name arguments (tools_world s) in
    (p, Agent (messages s) w (log s)).

Local Open Scope async_scope.

(** The [onToolCall] closure of [handleStreamingResponse]. *)
Definition streaming_onToolCall (toolCall : value) : Async.async value :=
  name <- toolCall.["name"] ;;
  text <- Async.lift (to_string NumberToString name) ;;
  act (SetAction (js "Executing tool: " ++ text)) ;;;
  (* Log tool call initiated *)
  name <- toolCall.["name"] ;;
  arguments <- toolCall.["arguments"] ;;
  act (LogToolCallInitiated name arguments) ;;;
  user_call (UserOnToolCall toolCall) options_onToolCall toolCall ;;;
  (* Execute tool if handler exists *)
  name <- toolCall.["name"] ;;
  if hasTool name then
    Async.try_catch (
      name <- toolCall.["name"] ;;
      arguments <- toolCall.["arguments"] ;;
      result <- await_executeTool name arguments ;;
      (* Log tool call completed *)
      name <- toolCall.["name"] ;;
      arguments <- toolCall.["arguments"] ;;
      payload <- result.["result"] ;;
      act (LogToolCallCompleted name arguments payload) ;;;
      Async.ret result)
    (fun error =>
      (* Log tool call failed *)
      name <- toolCall.["name"] ;;
      arguments <- toolCall.["arguments"] ;;
      act (LogToolCallFailed name arguments error) ;;;
      act (ConsoleError error) ;;;
      Async.throw error)
  else Async.ret VUndefined.

(** One iteration of [for (const toolCall of result.toolCalls)] in
    [handleNonStreamingResponse]. *)
Definition nonstreaming_toolCall (toolCall : value) : Async.async unit :=
  (* Log tool call initiated *)
  name <- toolCall.["name"] ;;
  arguments <- toolCall.["arguments"] ;;
  act (LogToolCallInitiated name arguments) ;;;
  user_call (UserOnToolCall toolCall) options_onToolCall toolCall ;;;
  name <- toolCall.["name"] ;;
  Async.when (hasTool name) (
    Async.try_catch (
      name <- toolCall.["name"] ;;
      arguments <- toolCall.["arguments"] ;;
      toolResult <- await_executeTool name arguments ;;
      (* Log tool call completed *)
      name <- toolCall.["name"] ;;
      arguments <- toolCall.["arguments"] ;;
      payload <- toolResult.["result"] ;;
      act (LogToolCallCompleted name arguments payload))
    (fun error =>
      (* Log tool call failed *)
      name <- toolCall.["name"] ;;
      arguments <- toolCall.["arguments"] ;;
      act (LogToolCallFailed name arguments error) ;;;
      act (ConsoleError error))).

(** [handleNonStreamingResponse], from the settled
    [await response.json()] and [adapter.parseResponse]. *)
Definition handleNonStreamingResponse (response_json : promise value)
  (parseResponse : value -> completion parsed_response)
  : Async.async parsed_response :=
  act (SetAction (js "Parsing response")) ;;;
  data <- (fun s => (response_json, s)) ;;
  result <- Async.lift (parseResponse data) ;;
  (* Log API response *)
  act LogApiResponse ;;;
  (* Add assistant message to history *)
  Async.when (truthy (pr_content result)) (
    messages_push (VObject [(js "role", VString (js "assistant"));
                            (js "content", pr_content result)])) ;;;
  (* Log assistant message completed *)
  act (LogAssistantMessageCompleted (pr_content result) (pr_finishReason result)) ;;;
  (* Handle tool calls if present *)
  match pr_toolCalls result with
  | Some (first :: others) =>
      act (SetAction (js "Processing tool calls")) ;;;
      Async.for_each (first :: others) nonstreaming_toolCall
  | _ => Async.ret tt
  end ;;;
  (* Update task *)
  act (UpdateTaskCompleted (pr_content result)) ;;;
  (* Stop thinking *)
  act StopThinking ;;;
  user_call (UserOnComplete result) options_onComplete result ;;;
  Async.ret result.

End Dispatch.

Arguments Agent {W} messages tools_world log.
Arguments messages {W} a.
Arguments tools_world {W} a.
Arguments log {W} a.
Arguments act {W} a _.
Arguments messages_push {W} msg _.
Arguments user_call {W A} a cb arg.
Arguments await_executeTool {W} executeTool name arguments _.
Arguments streaming_onToolCall NumberToString {W} hasTool executeTool options_onToolCall toolCall.
Arguments nonstreaming_toolCall {W} hasTool executeTool options_onToolCall toolCall.
Arguments handleNonStreamingResponse {W} hasTool executeTool options_onToolCall options_onComplete response_json parseResponse.

(* ================================================================== *)
(** ** Notions on decode passes *)
(* ================================================================== *)

(** The lines of [s]: the complete ones, and the unfinished last one. *)
Definition complete_lines (s : jsstring) : list jsstring :=
  fst (pop_or_empty (split_newline s)).

Definition remainder (s : jsstring) : jsstring :=
  snd (pop_or_empty (split_newline s)).

(** What one iteration of a decoder's loop pushes, from an empty array. *)
Definition line_events (line_body : jsstring -> dec unit) (line : jsstring)
  : list value :=
  snd (line_body line []).

(** [c] only appends to [processed], and only items that satisfy [P]. *)
Definition emits (P : value -> Prop) {A : Type} (c : dec A) : Prop :=
  exists r items,
    Forall P items /\ forall processed, c processed = (r, processed ++ items).

(** The loop body [processBuffer] selects for a provider tag. *)
Definition decoder_line (JSON_parse : jsstring -> completion value)
  (provider : jsstring) : jsstring -> dec unit :=
  if JsString.eqb provider (js "openai") || JsString.eqb provider (js "deepseek")
  then openai_line JSON_parse
  else if JsString.eqb provider (js "anthropic")
  then anthropic_line JSON_parse
  else if JsString.eqb provider (js "gemini")
  then gemini_line JSON_parse
  else openai_line JSON_parse.

(** The events a buffer decodes to, line by line. *)
Definition buffer_events (JSON_parse : jsstring -> completion value)
  (provider : jsstring) (text : jsstring) : list value :=
  flat_map (line_events (decoder_line JSON_parse provider)) (complete_lines text).

(** The text a decoder hands to [JSON.parse] for a line, when it hands
    one. *)
Definition json_payload (provider : jsstring) (l : jsstring) : option jsstring :=
  let delta_sse :=
    if is_empty (trim l) || JsString.eqb (trim l) (js "data: [DONE]") then None
    else if startsWith l (js "data: ") then Some (substring l 6)
    else None in
  if JsString.eqb provider (js "openai") || JsString.eqb provider (js "deepseek")
  then delta_sse
  else if JsString.eqb provider (js "anthropic")
  then if is_empty (trim l) then None
       else if startsWith l (js "event: ") || startsWith l (js "data: ")
       then match_prefix_rest (js "data: ") l
       else None
  else if JsString.eqb provider (js "gemini")
  then if is_empty (trim l) then None else Some l
  else delta_sse.

(** [item.type === name] *)
Definition has_type (name : string) (item : value) : bool :=
  is_string (event_type item) (js name).

(** The three types of event the decoders are said to emit. *)
Definition decoder_event (item : value) : bool :=
  has_type "token" item || has_type "tool_call" item || has_type "finish" item.

(** An item of [processed] of one of the three types, hence of neither of
    the two others that [handleStream] tells apart. *)
Definition decoded (item : value) : Prop :=
  decoder_event item = true /\
  has_type "thinking" item = false /\ has_type "error" item = false.

(* ================================================================== *)
(** ** Notions on values and the delta-SSE rule *)
(* ================================================================== *)

(** [null] or [undefined]. *)
Definition nullish (v : value) : bool :=
  match v with VUndefined | VNull => true | _ => false end.

(** [v?.k] as a value: [undefined] when [v] is [null] or [undefined]. *)
Definition field (v : value) (k : string) : value :=
  match get_optional v (js k) with
  | inr x => x
  | inl _ => VUndefined
  end.

(** The delta-SSE rule in the words of the specification, for the object
    [data] parsed from a line: what [choices[0].delta.content], an entry of
    [choices[0].delta.tool_calls] and [choices[0].finish_reason] yield. *)
Definition choice0 (data : value) : value :=
  field (field data "choices") "0".

Definition delta_sse_token (data : value) : list value :=
  let content := field (field (choice0 data) "delta") "content" in
  if truthy content then [ev_token content] else [].

Definition delta_sse_tool_call (entry : value) : list value :=
  if truthy (field entry "function")
  then [ev_tool_call
          (VObject [(js "id", field entry "id");
                    (js "name", field (field entry "function") "name");
                    (js "arguments", field (field entry "function") "arguments")])]
  else [].

Definition delta_sse_finish (data : value) : list value :=
  let reason := field (choice0 data) "finish_reason" in
  if truthy reason then [ev_finish reason] else [].

(** The entries of [choices[0].delta.tool_calls], when the loop over them
    throws nothing: [tool_calls] is falsy, or it can be iterated and none of
    its entries is [null]. *)
Definition tool_call_entries (data : value) : option (list value) :=
  let tool_calls := field (field (choice0 data) "delta") "tool_calls" in
  if truthy tool_calls
  then match iterate tool_calls with
       | inr entries =>
           if forallb (fun entry => negb (nullish entry)) entries
           then Some entries else None
       | inl _ => None
       end
  else Some [].

(** The entries that loop goes through before it throws or ends: those
    before the first [null] or [undefined] one, reading whose function
    payload throws; none when [tool_calls] cannot be iterated. *)
Fixpoint before_nullish (entries : list value) : list value :=
  match entries with
  | [] => []
  | entry :: rest =>
      if nullish entry then [] else entry :: before_nullish rest
  end.

Definition tool_calls_visited (data : value) : list value :=
  let tool_calls := field (field (choice0 data) "delta") "tool_calls" in
  if truthy tool_calls
  then match iterate tool_calls with
       | inr entries => before_nullish entries
       | inl _ => []
       end
  else [].

(** [item] is the tool call the delta-SSE decoder makes of an entry of
    [data.choices[0].delta.tool_calls] that has a function payload: the
    entry's [id], and the [name] and [arguments] of its [function]. *)
Definition delta_sse_call_of (data item : value) : Prop :=
  exists entries entry,
    iterate (field (field (choice0 data) "delta") "tool_calls") = inr entries
    /\ In entry entries
    /\ truthy (field entry "function") = true
    /\ item = ev_tool_call
                (VObject [(js "id", field entry "id");
                          (js "name", field (field entry "function") "name");
                          (js "arguments",
                           field (field entry "function") "arguments")]).

(** [item] is the tool call the NDJSON decoder makes of a part of
    [data.candidates[0].content.parts] that has a [functionCall]: its
    [name], and its [args] under [arguments]. *)
Definition ndjson_call_of (data item : value) : Prop :=
  exists parts part,
    iterate (field (field (field (field data "candidates") "0") "content") "parts")
    = inr parts
    /\ In part parts
    /\ truthy (field part "functionCall") = true
    /\ item = ev_tool_call
                (VObject [(js "name", field (field part "functionCall") "name");
                          (js "arguments",
                           field (field part "functionCall") "args")]).

(** The object [data] has an own property [k]. *)
Definition has_own (k : string) (data : value) : bool :=
  match data with
  | VObject props =>
      match own_property (js k) props with Some _ => true | None => false end
  | _ => false
  end.

Definition is_a_string (v : value) : bool :=
  match v with VString _ => true | _ => false end.

(** The tool call of the data model: a name that is a string, and the
    arguments under [arguments]. *)
Definition tool_call_as_specified (data : value) : bool :=
  is_a_string (field data "name") && has_own "arguments" data.

(* ================================================================== *)
(** ** Notions on sessions *)
(* ================================================================== *)

Section SessionNotions.

Variable W : Type.

(** A statement of the session keeps the relation [I] between the state
    before and after, and throws only what satisfies [E]. *)
Definition preserves {A : Type} (I : session W -> session W -> Prop)
  (E : thrown -> Prop) (c : sess W A) : Prop :=
  forall s, I s (snd (c s)) /\ forall e, fst (c s) = inl e -> E e.

(** The calls made between two states of a session all satisfy [Q]. *)
Definition calls_extended (Q : call -> Prop) (s s' : session W) : Prop :=
  exists made, calls s' = calls s ++ made /\ Forall Q made.

(** The callbacks of the read loop never call [stopStream()]. *)
Definition never_stop (cbs : callbacks W) : Prop :=
  (forall arg w, cb_stop (onToken cbs arg w) = false) /\
  (forall arg w, cb_stop (onToolCall cbs arg w) = false) /\
  (forall arg w, cb_stop (onThinking cbs arg w) = false).

(** No callback throws. *)
Definition never_throw (cbs : callbacks W) : Prop :=
  (forall arg w e, cb_completion (onToken cbs arg w) <> inl e) /\
  (forall arg w e, cb_completion (onToolCall cbs arg w) <> inl e) /\
  (forall arg w e, cb_completion (onThinking cbs arg w) <> inl e) /\
  (forall arg w e, cb_completion (onComplete cbs arg w) <> inl e) /\
  (forall arg w e, cb_completion (onError cbs arg w) <> inl e).

(** The callbacks [cbs], [onToolCall] handing back [f] of what it handed
    back. *)
Definition map_onToolCall_return (f : returned -> returned) (cbs : callbacks W)
  : callbacks W :=
  Callbacks (onToken cbs)
    (fun data w =>
       let r := onToolCall cbs data w in
       Effect (match cb_completion r with
               | inl e => inl e
               | inr v => inr (f v)
               end)
              (cb_stop r) (cb_world r))
    (onThinking cbs) (onComplete cbs) (onError cbs).

End SessionNotions.

Arguments preserves {W A} I E c.
Arguments calls_extended {W} Q s s'.
Arguments never_stop {W} cbs.
Arguments never_throw {W} cbs.
Arguments map_onToolCall_return {W} f cbs.

(** Two sessions that differ at most in the instance state. *)
Definition same_but_this {W : Type} (s1 s2 : session W) : Prop :=
  forall h, with_this s1 h = with_this s2 h.

(** The error [handleStream] reports for a thrown [error] that is neither
    [null] nor [undefined]: the error itself when it is a [StreamError],
    a stream-parse-failure that wraps it otherwise. *)
Definition reported (error : thrown) : thrown :=
  match error with
  | ThrownStreamError _ => error
  | ThrownObject message stack =>
      createStreamError "Stream processing failed" PARSE_FAILED
                        (DetailsOriginal message stack)
  | ThrownNullish => error
  end.

(** A thrown value is not a [StreamError]. *)
Definition not_StreamError (e : thrown) : Prop :=
  instanceof_StreamError e = false.

Definition is_OnError (c : call) : bool :=
  match c with OnError _ => true | _ => false end.

Definition is_OnThinking (c : call) : bool :=
  match c with OnThinking _ => true | _ => false end.

(** What a failing read of the transport throws satisfies [E]. *)
Fixpoint transport_throws (E : thrown -> Prop) (reads : transport) : Prop :=
  match reads with
  | Chunk _ _ rest => transport_throws E rest
  | Fail e => E e
  | Done | Stalled _ => True
  end.

Definition response_throws (E : thrown -> Prop) (resp : response) : Prop :=
  match resp with
  | BadResponse e => E e
  | Stream reads => transport_throws E reads
  end.

(* ================================================================== *)
(** ** Notions on tool-call dispatch *)
(* ================================================================== *)

(** The tool calls the log says were initiated, in order. *)
Fixpoint initiated (l : list action) : list (value * value) :=
  match l with
  | [] => []
  | LogToolCallInitiated name arguments :: rest => (name, arguments) :: initiated rest
  | _ :: rest => initiated rest
  end.

(** A callback of the caller that, when given, returns. *)
Definition callback_returns {A W : Type}
  (cb : option (A -> W -> completion unit * W)) : Prop :=
  forall f, cb = Some f -> forall x w, fst (f x w) = inr tt.

(** A tool that fails with [e], whatever the state of the tools. *)
Definition always_rejects {W : Type}
  (executeTool : value -> value -> W -> promise value * W)
  (name arguments : value) (e : thrown) : Prop :=
  forall w, fst (executeTool name arguments w) = Rejected e.

(** Every tool execution settles. *)
Definition always_settles {W : Type}
  (executeTool : value -> value -> W -> promise value * W) : Prop :=
  forall name arguments w, fst (executeTool name arguments w) <> Pending.

(** The name and the arguments of a tool call, as the handlers read them. *)
Definition call_signature (toolCall : value) : value * value :=
  (field toolCall "name", field toolCall "arguments").

(** The tool calls of a parsed response. *)
Definition calls_of (result : parsed_response) : list value :=
  match pr_toolCalls result with
  | Some toolCalls => toolCalls
  | None => []
  end.

(* ================================================================== *)
(** ** Sample payloads, callbacks and tools *)
(* ================================================================== *)

(** A complete line of a payload: the text and its newline. *)
Definition line (text : string) : jsstring := payload text ++ [LF].

(** Two payloads of the delta-SSE providers: a content delta, and the same
    line cut short by the end of a chunk. *)
Definition hi_payload : jsstring :=
  line "data: {'choices':[{'delta':{'content':'Hi'}}]}".

Definition cut_line : jsstring :=
  payload "data: {'choices':[{'delta':{'content':'Hi".

(** The content delta [hi_payload], cut inside a string literal. *)
Definition hi_head : jsstring := payload "data: {'choices':[{'del".
Definition hi_tail : jsstring := line "ta':{'content':'Hi'}}]}".

(** A payload whose finish reason is not 'stop'. *)
Definition length_payload : jsstring :=
  line "data: {'choices':[{'delta':{'content':'Hi'},'finish_reason':'length'}]}".

(** A line whose [tool_calls] holds a [null]. *)
Definition null_entry_line : jsstring :=
  payload "data: {'choices':[{'delta':{'content':'Hi','tool_calls':[null]},'finish_reason':'stop'}]}".

(** A line whose [tool_calls] holds a tool call, then a [null], then
    another tool call. *)
Definition null_after_call_line : jsstring :=
  payload "data: {'choices':[{'delta':{'content':'Hi','tool_calls':[{'id':'call_1','function':{'name':'search','arguments':'{}'}},null,{'id':'call_2','function':{'name':'fetch','arguments':'{}'}}]},'finish_reason':'stop'}]}".

(** A tool call of a delta-SSE provider, and callbacks whose [onToolCall]
    hands back a promise that stays pending: a tool that has not resolved. *)
Definition tool_call_payload : jsstring :=
  line "data: {'choices':[{'delta':{'tool_calls':[{'id':'call_1','function':{'name':'search','arguments':'{}'}}]}}]}".

Definition search_call : value :=
  VObject [(js "id", VString (js "call_1"));
           (js "name", VString (js "search"));
           (js "arguments", VString (js "{}"))].

(** A later fragment of a streamed tool call, as the delta-SSE providers
    send it: no id, no name, a piece of the arguments. *)
Definition fragment_payload : jsstring :=
  line "data: {'choices':[{'delta':{'tool_calls':[{'index':0,'function':{'arguments':'{}'}}]}}]}".

(** The start of a tool-use block of the typed-SSE provider. *)
Definition tool_use_payload : jsstring :=
  line "data: {'type':'content_block_start','content_block':{'type':'tool_use','id':'tu_1','name':'search','input':{}}}".

(** Stand-ins for the two functions of the platform and of the repository
    that the examples do not exercise. *)
Definition format_identity (v : value) : value := v.
Definition number_unprinted (m e : Z) : jsstring := [].

(** The handler as the examples run it. *)
Definition run_stream (cbs : callbacks unit) (provider : string) (resp : response)
  : promise Result.t * session unit :=
  handleStream JSON.parse format_identity number_unprinted cbs (js provider) resp tt.

(** Callbacks that misbehave: [onToken] throws, and so does [onError]. *)
Definition boom : thrown := ThrownObject (VString (js "boom")) VUndefined.
Definition oops : thrown := ThrownObject (VString (js "oops")) VUndefined.

Definition throwing_callbacks : callbacks unit :=
  Callbacks (fun _ w => Effect (inl boom) false w) noop noop noop
            (fun _ w => Effect (inl oops) false w).

Definition delayed_tool_callbacks : callbacks unit :=
  Callbacks noop (fun _ w => Effect (inr (RetPromise Pending)) false w)
            noop noop noop.

(** A registry with one tool, which fails. *)
Definition tool_failure : thrown :=
  ThrownObject (VString (js "Tool execution failed")) VUndefined.

Definition failing_tool (name arguments : value) (w : unit) : promise value * unit :=
  (Rejected tool_failure, w).

Definition two_calls_response : parsed_response :=
  ParsedResponse (VString (js "Hi"))
    (Some [VObject [(js "name", VString (js "search")); (js "arguments", VString (js "{}"))];
           VObject [(js "name", VString (js "fetch")); (js "arguments", VString (js "{}"))]])
    (VString (js "tool_calls")).

(* ================================================================== *)
(** ** Notions on buffers, transports and traces *)
(* ================================================================== *)

(** A text without a newline. *)
Definition no_newline (s : jsstring) : bool :=
  forallb (fun c => negb (N.eqb c LF)) s.

(** The text of complete lines: each line followed by its newline. *)
Definition lines_text (lines : list jsstring) : jsstring :=
  List.concat (map (fun l => l ++ [LF]) lines).

(** A token event carries a truthy [content], a finish event a truthy
    [reason]. *)
Definition carries_payload (item : value) : bool :=
  if has_type "token" item then truthy (field item "content")
  else if has_type "finish" item then truthy (field item "reason")
  else true.

(** The transport that delivers [chunks], each with its stop flag, and goes
    on as [last]. *)
Fixpoint chunks_then (chunks : list (jsstring * bool)) (last : transport)
  : transport :=
  match chunks with
  | [] => last
  | (text, stop) :: rest => Chunk text stop (chunks_then rest last)
  end.

(** The tool calls handed to [onToolCall], in order. *)
Fixpoint tool_calls_made (cs : list call) : list value :=
  match cs with
  | [] => []
  | OnToolCall data :: rest => data :: tool_calls_made rest
  | _ :: rest => tool_calls_made rest
  end.

Section TokensText.

Variable NumberToString : Z -> Z -> jsstring.

(** The tokens handed to [onToken], as strings, one after the other. *)
Fixpoint tokens_text (cs : list call) : option jsstring :=
  match cs with
  | [] => Some []
  | OnToken v :: rest =>
      match to_string NumberToString v, tokens_text rest with
      | inr text, Some more => Some (text ++ more)
      | _, _ => None
      end
  | _ :: rest => tokens_text rest
  end.

End TokensText.

(** A call made by the read loop. *)
Definition is_stream_call (c : call) : bool :=
  match c with
  | OnToken _ | OnToolCall _ | OnThinking _ => true
  | OnComplete _ | OnError _ => false
  end.

(** The call the loop body makes for an event of the decoders. *)
Definition call_of_event (item : value) : list call :=
  if has_type "token" item then [OnToken (field item "content")]
  else if has_type "tool_call" item then [OnToolCall (field item "data")]
  else [].

(** [onToken] was handed a truthy token, if it is a call of [onToken]. *)
Definition token_is_truthy (c : call) : bool :=
  match c with
  | OnToken v => truthy v
  | _ => true
  end.

(** The event a block of an event stream describes: the lines of the
    block, and the event [parseSSE] is expected to build from them. *)
Definition sse_header (name : option jsstring) : jsstring :=
  match name with
  | Some n => js "event: " ++ n ++ [LF]
  | None => []
  end.

Definition sse_name (name : option jsstring) : jsstring :=
  match name with
  | Some n => n
  | None => js "message"
  end.

Definition sse_data_lines (pieces : list jsstring) : jsstring :=
  List.concat (map (fun piece => js "data: " ++ piece ++ [LF]) pieces).

Definition is_blank (l : jsstring) : bool := is_empty (trim l).

(** What [gemini_data] pushes for a parsed object, from an empty array. *)
Definition gemini_events (data : value) : list value :=
  snd (gemini_data data []).

(** The message [handleNonStreamingResponse] adds to the history. *)
Definition assistant_message (content : value) : value :=
  VObject [(js "role", VString (js "assistant")); (js "content", content)].

(** The actions that close a task. *)
Definition closes_task (a : action) : bool :=
  match a with
  | UpdateTaskCompleted _ | StopThinking | UserOnComplete _ => true
  | _ => false
  end.

(** The actions that report on the execution of a tool. *)
Definition reports_execution (a : action) : bool :=
  match a with
  | LogToolCallCompleted _ _ _ | LogToolCallFailed _ _ _ | ConsoleError _ => true
  | _ => false
  end.

(* ================================================================== *)
(** ** Notions on the decode rules of the other two decoders *)
(* ================================================================== *)

(** The rule of the typed-SSE decoder, for the object [data] parsed from a
    line: what [data.type] and [data.delta.text], [data.content_block] and
    the type 'message_stop' yield. *)
Definition typed_sse_token (data : value) : list value :=
  let text := field (field data "delta") "text" in
  if is_string (field data "type") (js "content_block_delta") && truthy text
  then [ev_token text] else [].

Definition typed_sse_tool_call (data : value) : list value :=
  let block := field data "content_block" in
  if is_string (field data "type") (js "content_block_start")
     && is_string (field block "type") (js "tool_use")
  then [ev_tool_call (VObject [(js "id", field block "id");
                               (js "name", field block "name");
                               (js "input", field block "input")])]
  else [].

Definition typed_sse_finish (data : value) : list value :=
  if is_string (field data "type") (js "message_stop")
  then [ev_finish (VString (js "stop"))] else [].

(** The rule of the Gemini decoder: what a part of
    [candidates[0].content.parts] and [candidates[0].finishReason] yield. *)
Definition candidate0 (data : value) : value :=
  field (field data "candidates") "0".

Definition gemini_part_events (part : value) : list value :=
  (if truthy (field part "text") then [ev_token (field part "text")] else [])
  ++ (if truthy (field part "functionCall")
      then [ev_tool_call
              (VObject [(js "name", field (field part "functionCall") "name");
                        (js "arguments", field (field part "functionCall") "args")])]
      else []).

Definition gemini_finish (data : value) : list value :=
  let reason := field (candidate0 data) "finishReason" in
  if truthy reason then [ev_finish reason] else [].

(** The parts, when the loop over them throws nothing: [parts] is falsy,
    or it can be iterated and none of its entries is [null]. *)
Definition gemini_parts (data : value) : option (list value) :=
  let parts := field (field (candidate0 data) "content") "parts" in
  if truthy parts
  then match iterate parts with
       | inr entries =>
           if forallb (fun part => negb (nullish part)) entries
           then Some entries else None
       | inl _ => None
       end
  else Some [].

(* ================================================================== *)
(** ** Further notions on sessions and on the dispatch *)
(* ================================================================== *)

(** Two ways of leaving the read loop that differ at most in the instance
    state, and not at all when the loop is left blocked. *)
Definition loop_equiv {W : Type} (r1 r2 : loop_exit * session W) : Prop :=
  fst r1 = fst r2 /\ same_but_this (snd r1) (snd r2)
  /\ (fst r1 = Blocked -> snd r1 = snd r2).

(** The accumulators hold what the callbacks were handed. *)
Definition accumulated (NumberToString : Z -> Z -> jsstring) {W : Type}
  (s : session W) : Prop :=
  tool_calls_made (calls s) = toolCalls s
  /\ tokens_text NumberToString (calls s) = Some (fullContent s).

(** A computation logs only actions that satisfy [Q]. *)
Definition logs {W A : Type} (Q : action -> Prop)
  (c : Async.async (S := agent W) A) : Prop :=
  forall a, exists more, log (snd (c a)) = log a ++ more /\ Forall Q more.

(** A computation that logs only what satisfies [Q] unless it is
    fulfilled. *)
Definition logs_unless_fulfilled {W A : Type} (Q : action -> Prop)
  (c : Async.async (S := agent W) A) : Prop :=
  forall a, (forall r, fst (c a) <> Fulfilled r) ->
            exists more, log (snd (c a)) = log a ++ more /\ Forall Q more.

(** A tool whose execution is fulfilled with [result], whatever the state
    of the tools. *)
Definition always_fulfils {W : Type}
  (executeTool : value -> value -> W -> promise value * W)
  (name arguments result : value) : Prop :=
  forall w, fst (executeTool name arguments w) = Fulfilled result.

(* ================================================================== *)
(** ** Further samples *)
(* ================================================================== *)

(** A content delta of the typed-SSE provider, its line ended by CR LF. *)
Definition crlf_line : jsstring :=
  payload "data: {'type':'content_block_delta','delta':{'text':'Hi'}}"
    ++ [13%N; LF].

(** A line of the Gemini provider, and what it parses to. *)
Definition gemini_sample : jsstring :=
  payload "{'candidates':[{'content':{'parts':[{'text':'Hi'},{'functionCall':{'name':'search','args':{}}}]},'finishReason':'STOP'}]}".

Definition gemini_sample_parts : list value :=
  [VObject [(js "text", VString (js "Hi"))];
   VObject [(js "functionCall",
             VObject [(js "name", VString (js "search")); (js "args", VObject [])])]].

Definition gemini_sample_data : value :=
  VObject [(js "candidates",
            VArray [VObject [(js "content",
                              VObject [(js "parts", VArray gemini_sample_parts)]);
                             (js "finishReason", VString (js "STOP"))]])].

(** Callbacks whose [onToken] calls [stopStream()]. *)
Definition stopping_callbacks : callbacks unit :=
  Callbacks (fun _ w => Effect (inr (RetValue VUndefined)) true w)
            noop noop noop noop.

(** An [options.onToolCall] that throws, and a tool that succeeds. *)
Definition throwing_onToolCall (toolCall : value) (w : unit)
  : completion unit * unit := (inl boom, w).

Definition ok_tool (name arguments : value) (w : unit) : promise value * unit :=
  (Fulfilled (VObject [(js "success", VBool true);
                       (js "result", VString (js "done"))]), w).

(* ================================================================== *)
(** ** Facts on strings and lines *)
(* ================================================================== *)

Lemma eqb_eq (a b : jsstring) : JsString.eqb a b = true <-> a = b.
Proof.
  revert b; induction a as [|x a IH]; intros [|y b]; simpl; split;
    try congruence; try reflexivity.
  - intros H. apply andb_prop in H as [Hx Hab].
    apply N.eqb_eq in Hx. apply IH in Hab. congruence.
  - intros H. inversion H; subst.
    rewrite N.eqb_refl. simpl. apply IH. reflexivity.
Qed.

Lemma eqb_neq {a b : jsstring} : a <> b -> JsString.eqb a b = false.
Proof.
  intros H. destruct (JsString.eqb a b) eqn:E; [|reflexivity].
  apply eqb_eq in E. contradiction.
Qed.

Lemma split_newline_not_nil (s : jsstring) : split_newline s <> [].
Proof.
  destruct s as [|c s]; simpl; [discriminate|].
  destruct (N.eqb c LF); [discriminate|].
  destruct (split_newline s); discriminate.
Qed.

Lemma complete_lines_cons (c : code_unit) (s : jsstring) :
  complete_lines (c :: s) =
  if N.eqb c LF then [] :: complete_lines s
  else match complete_lines s with
       | [] => []
       | l :: ls => (c :: l) :: ls
       end.
Proof.
  unfold complete_lines, pop_or_empty. simpl.
  pose proof (split_newline_not_nil s) as Hne.
  destruct (N.eqb c LF).
  - simpl. destruct (split_newline s); [contradiction|reflexivity].
  - destruct (split_newline s) as [|l ls]; [contradiction|].
    simpl. destruct ls; reflexivity.
Qed.

Lemma remainder_cons (c : code_unit) (s : jsstring) :
  remainder (c :: s) =
  if N.eqb c LF then remainder s
  else match complete_lines s with
       | [] => c :: remainder s
       | _ :: _ => remainder s
       end.
Proof.
  unfold remainder, complete_lines, pop_or_empty. simpl.
  pose proof (split_newline_not_nil s) as Hne.
  destruct (N.eqb c LF).
  - simpl. destruct (split_newline s); [contradiction|reflexivity].
  - destruct (split_newline s) as [|l ls]; [contradiction|].
    simpl. destruct ls; reflexivity.
Qed.

(** Appending text to a buffer: the complete lines of the buffer stay, and
    the text continues the unfinished line. *)
Lemma lines_app (a b : jsstring) :
  complete_lines (a ++ b) = complete_lines a ++ complete_lines (remainder a ++ b)
  /\ remainder (a ++ b) = remainder (remainder a ++ b).
Proof.
  induction a as [|c a [IHl IHr]].
  - split; reflexivity.
  - simpl app. rewrite !complete_lines_cons, !remainder_cons.
    destruct (N.eqb c LF) eqn:Ec.
    + rewrite IHl, IHr. split; reflexivity.
    + rewrite IHl, IHr.
      destruct (complete_lines a) as [|l ls] eqn:Ea; simpl.
      * simpl app. rewrite complete_lines_cons, remainder_cons, Ec.
        split; reflexivity.
      * split; reflexivity.
Qed.

(* ================================================================== *)
(** ** Facts on decode passes *)
(* ================================================================== *)

Section EmitFacts.

Variable P : value -> Prop.

Lemma emits_ret {A} (a : A) : emits P (ret a).
Proof.
  exists (inr a), []. split; [constructor|].
  intros st. rewrite app_nil_r. reflexivity.
Qed.

Lemma emits_lift {A} (c : completion A) : emits P (lift c).
Proof.
  exists c, []. split; [constructor|].
  intros st. rewrite app_nil_r. reflexivity.
Qed.

Lemma emits_push (item : value) : P item -> emits P (push item).
Proof.
  intros H. exists (inr tt), [item]. split; [|reflexivity].
  constructor; [assumption|constructor].
Qed.

Lemma emits_bind {A B} (c : dec A) (k : A -> dec B) :
  emits P c -> (forall a, emits P (k a)) -> emits P (bind c k).
Proof.
  intros (r & items & HP & E) Hk. unfold bind.
  destruct r as [e|a].
  - exists (inl e), items. split; [assumption|].
    intros st. rewrite E. reflexivity.
  - destruct (Hk a) as (r' & items' & HP' & E').
    exists r', (items ++ items'). split.
    + apply Forall_app. split; assumption.
    + intros st. rewrite E, E', app_assoc. reflexivity.
Qed.

Lemma emits_when (b : bool) (c : dec unit) : emits P c -> emits P (when b c).
Proof. destruct b; simpl; [trivial|intros _; apply emits_ret]. Qed.

Lemma emits_if {A} (b : bool) (c1 c2 : dec A) :
  emits P c1 -> emits P c2 -> emits P (if b then c1 else c2).
Proof. destruct b; trivial. Qed.

Lemma emits_for_each {A} (items : list A) (body : A -> dec unit) :
  (forall x, emits P (body x)) -> emits P (for_each items body).
Proof.
  intros Hb. induction items as [|x items IH]; simpl.
  - apply emits_ret.
  - apply emits_bind; [apply Hb|intros _; exact IH].
Qed.

Lemma emits_for_of (v : value) (body : value -> dec unit) :
  (forall x, emits P (body x)) -> emits P (for_of v body).
Proof.
  intros Hb. unfold for_of. apply emits_bind; [apply emits_lift|].
  intros items. apply emits_for_each. exact Hb.
Qed.

Lemma emits_try_skip (c : dec unit) : emits P c -> emits P (try_skip c).
Proof.
  intros (r & items & HP & E). unfold try_skip.
  exists (inr tt), items. split; [assumption|].
  intros st. rewrite E. reflexivity.
Qed.

(** What a body that only appends pushes is what it pushes from
    scratch. *)
Lemma emits_line_events (body : jsstring -> dec unit) (line : jsstring) :
  emits P (body line) ->
  Forall P (line_events body line) /\
  forall processed,
    snd (body line processed) = processed ++ line_events body line.
Proof.
  intros (r & items & HP & E). unfold line_events.
  rewrite (E []). simpl. split; [assumption|].
  intros st. rewrite E. reflexivity.
Qed.

End EmitFacts.

Ltac emits_tac :=
  repeat first
    [ apply emits_ret | apply emits_lift | apply emits_try_skip
    | apply emits_when | apply emits_for_of; intros ?
    | apply emits_bind; [|intros ?]
    | apply emits_if
    | apply emits_push; solve [auto] ].

Section DecoderFacts.

Variable JSON_parse : jsstring -> completion value.
Variable P : value -> Prop.

Hypothesis P_token : forall content, P (ev_token content).
Hypothesis P_finish : forall reason, P (ev_finish reason).

Lemma openai_line_emits (line : jsstring) :
  (forall id name arguments,
      P (ev_tool_call (VObject [(js "id", id); (js "name", name);
                                (js "arguments", arguments)]))) ->
  emits P (openai_line JSON_parse line).
Proof.
  intros H. unfold openai_line. emits_tac.
Qed.

Lemma anthropic_line_emits (line : jsstring) :
  (forall id name input,
      P (ev_tool_call (VObject [(js "id", id); (js "name", name);
                                (js "input", input)]))) ->
  emits P (anthropic_line JSON_parse line).
Proof.
  intros H. unfold anthropic_line. emits_tac.
  destruct (match_prefix_rest (js "data: ") line); emits_tac.
Qed.

Lemma gemini_line_emits (line : jsstring) :
  (forall name arguments,
      P (ev_tool_call (VObject [(js "name", name);
                                (js "arguments", arguments)]))) ->
  emits P (gemini_line JSON_parse line).
Proof.
  intros H. unfold gemini_line. emits_tac.
Qed.

End DecoderFacts.

Section PassFacts.

Variable JSON_parse : jsstring -> completion value.

Lemma openai_line_returns (line : jsstring) (processed : list value) :
  fst (openai_line JSON_parse line processed) = inr tt.
Proof.
  unfold openai_line.
  destruct (is_empty (trim line) || JsString.eqb (trim line) (js "data: [DONE]"));
    [reflexivity|].
  destruct (startsWith line (js "data: ")); reflexivity.
Qed.

Lemma anthropic_line_returns (line : jsstring) (processed : list value) :
  fst (anthropic_line JSON_parse line processed) = inr tt.
Proof.
  unfold anthropic_line.
  destruct (is_empty (trim line)); [reflexivity|].
  destruct (startsWith line (js "event: ") || startsWith line (js "data: "));
    [|reflexivity].
  destruct (match_prefix_rest (js "data: ") line); reflexivity.
Qed.

Lemma gemini_line_returns (line : jsstring) (processed : list value) :
  fst (gemini_line JSON_parse line processed) = inr tt.
Proof.
  unfold gemini_line. destruct (is_empty (trim line)); reflexivity.
Qed.

(** The loop over the lines pushes, line after line, what each line
    pushes from scratch, and returns. *)
Lemma for_each_lines (body : jsstring -> dec unit) (lines : list jsstring)
  (processed : list value) :
  (forall line st, fst (body line st) = inr tt) ->
  (forall line, emits (fun _ => True) (body line)) ->
  for_each lines body processed =
  (inr tt, processed ++ flat_map (line_events body) lines).
Proof.
  intros Hret Hemit. revert processed.
  induction lines as [|line lines IH]; intros st; simpl.
  - rewrite app_nil_r. reflexivity.
  - unfold bind.
    destruct (emits_line_events _ _ _ (Hemit line)) as [_ Hsnd].
    specialize (Hret line st). specialize (Hsnd st).
    destruct (body line st) as [r st'] eqn:E. simpl in *. subst r st'.
    rewrite IH, app_assoc. reflexivity.
Qed.

Lemma process_lines_spec (body : jsstring -> dec unit) (this : handler) :
  (forall line st, fst (body line st) = inr tt) ->
  (forall line, emits (fun _ => True) (body line)) ->
  process_lines body this =
  (inr (flat_map (line_events body) (complete_lines (buffer this))),
   set_buffer this (remainder (buffer this))).
Proof.
  intros Hret Hemit. unfold process_lines, complete_lines, remainder.
  destruct (pop_or_empty (split_newline (buffer this))) as [lines last_line].
  rewrite for_each_lines by assumption. reflexivity.
Qed.

(** A decode pass returns the events of the complete lines of the buffer
    and leaves the unfinished line in the buffer. *)
Lemma processBuffer_spec (provider : jsstring) (this : handler) :
  processBuffer JSON_parse provider this =
  (inr (buffer_events JSON_parse provider (buffer this)),
   set_buffer this (remainder (buffer this))).
Proof.
  unfold processBuffer, buffer_events, decoder_line,
    processOpenAIBuffer, processAnthropicBuffer, processGeminiBuffer.
  destruct (_ || _).
  { apply process_lines_spec;
      [apply openai_line_returns|intros; apply openai_line_emits; auto]. }
  destruct (JsString.eqb provider (js "anthropic")).
  { apply process_lines_spec;
      [apply anthropic_line_returns|intros; apply anthropic_line_emits; auto]. }
  destruct (JsString.eqb provider (js "gemini")).
  { apply process_lines_spec;
      [apply gemini_line_returns|intros; apply gemini_line_emits; auto]. }
  apply process_lines_spec;
    [apply openai_line_returns|intros; apply openai_line_emits; auto].
Qed.

Lemma buffer_events_app (provider a b : jsstring) :
  buffer_events JSON_parse provider (a ++ b) =
  buffer_events JSON_parse provider a ++
  buffer_events JSON_parse provider (remainder a ++ b).
Proof.
  unfold buffer_events. destruct (lines_app a b) as [-> _].
  apply flat_map_app.
Qed.

End PassFacts.

(** An item of one of the three types the decoders push. *)
Lemma decoded_event_types (P : value -> Prop) :
  (forall item, decoder_event item = true ->
                has_type "thinking" item = false ->
                has_type "error" item = false -> P item) ->
  (forall content, P (ev_token content)) /\
  (forall data, P (ev_tool_call data)) /\
  (forall reason, P (ev_finish reason)).
Proof.
  intros H. repeat split; intros v; apply H; reflexivity.
Qed.

Lemma buffer_events_Forall (JSON_parse : jsstring -> completion value)
  (P : value -> Prop) (provider text : jsstring) :
  (forall content, P (ev_token content)) ->
  (forall data, P (ev_tool_call data)) ->
  (forall reason, P (ev_finish reason)) ->
  Forall P (buffer_events JSON_parse provider text).
Proof.
  intros Ht Hc Hf. unfold buffer_events.
  apply Forall_flat_map, Forall_forall. intros l _.
  apply emits_line_events. unfold decoder_line.
  destruct (_ || _); [apply openai_line_emits; auto|].
  destruct (JsString.eqb provider (js "anthropic")); [apply anthropic_line_emits; auto|].
  destruct (JsString.eqb provider (js "gemini"));
    [apply gemini_line_emits; auto|apply openai_line_emits; auto].
Qed.

(* ================================================================== *)
(** ** Facts on the session *)
(* ================================================================== *)

Lemma get_property_throws (v : value) (k : jsstring) (e : thrown) :
  get_property v k = inl e ->
  e = TypeError "Cannot read properties of null or undefined".
Proof.
  destruct v; simpl; try congruence.
  - destruct (array_index k).
    + destruct (nth_error s n); congruence.
    + destruct (JsString.eqb k (js "length")); congruence.
  - destruct (array_index k).
    + destruct (nth_error items n); congruence.
    + destruct (JsString.eqb k (js "length")); congruence.
  - destruct (own_property k props); congruence.
Qed.

(** Induction on values, through the arrays and the objects. *)
Lemma value_induction (P : value -> Prop) :
  P VUndefined -> P VNull -> (forall b, P (VBool b)) ->
  (forall m e, P (VNumber m e)) -> (forall s, P (VString s)) ->
  (forall items, Forall P items -> P (VArray items)) ->
  (forall props, Forall (fun kv => P (snd kv)) props -> P (VObject props)) ->
  forall v, P v.
Proof.
  intros Hu Hn Hb Hnum Hs Ha Ho.
  refine (fix IH (v : value) : P v :=
            match v with
            | VUndefined => Hu
            | VNull => Hn
            | VBool b => Hb b
            | VNumber m e => Hnum m e
            | VString s => Hs s
            | VArray items =>
                Ha items
                   ((fix all (l : list value) : Forall P l :=
                       match l with
                       | [] => Forall_nil P
                       | x :: rest => Forall_cons x (IH x) (all rest)
                       end) items)
            | VObject props =>
                Ho props
                   ((fix all (l : list (jsstring * value))
                       : Forall (fun kv => P (snd kv)) l :=
                       match l with
                       | [] => Forall_nil _
                       | kv :: rest => Forall_cons kv (IH (snd kv)) (all rest)
                       end) props)
            end).
Qed.

Lemma to_string_throws (N2S : Z -> Z -> jsstring) (v : value) (e : thrown) :
  to_string N2S v = inl e ->
  e = TypeError "Cannot convert object to primitive value".
Proof.
  revert e. induction v as [| |b|m x|s|items IH|props _] using value_induction;
    intros e; simpl.
  - congruence.
  - congruence.
  - destruct b; congruence.
  - congruence.
  - congruence.
  - induction IH as [|x rest Hx _ IHrest]; [congruence|].
    destruct (match x with
              | VUndefined | VNull => inr []
              | _ => to_string N2S x
              end) as [e0|s0] eqn:Ex.
    + intros H. inversion H; subst e0.
      destruct x; try congruence; apply Hx in Ex; exact Ex.
    + destruct rest as [|y rest']; [congruence|].
      match goal with
      | |- match ?j with _ => _ end = _ -> _ => destruct j as [e1|r1] eqn:Ej
      end; [|congruence].
      intros H. inversion H; subst e1. apply IHrest. reflexivity.
  - destruct (own_property (js "toString") props); congruence.
Qed.

Section SessionFacts.

Variable JSON_parse : jsstring -> completion value.
Variable formatThinkingContent : value -> value.
Variable NumberToString : Z -> Z -> jsstring.
Variable W : Type.
Variable cbs : callbacks W.
Variable provider : jsstring.

Local Abbreviation handle := (handle_item formatThinkingContent NumberToString cbs).
Local Abbreviation loop := (read_loop JSON_parse formatThinkingContent NumberToString cbs provider).
Local Abbreviation try_ := (try_block JSON_parse formatThinkingContent NumberToString cbs provider).

Section Preserve.

Variable I : session W -> session W -> Prop.
Variable E : thrown -> Prop.
Hypothesis I_refl : forall s, I s s.
Hypothesis I_trans : forall a b c, I a b -> I b c -> I a c.

Lemma preserves_ret {A} (a : A) : preserves I E (ret a).
Proof. intros s; simpl. split; [apply I_refl|congruence]. Qed.

Lemma preserves_throw {A} (e : thrown) : E e -> preserves I E (throw (A := A) e).
Proof. intros He s; simpl. split; [apply I_refl|congruence]. Qed.

Lemma preserves_bind {A B} (c : sess W A) (k : A -> sess W B) :
  preserves I E c -> (forall a, preserves I E (k a)) ->
  preserves I E (bind c k).
Proof.
  intros Hc Hk s. unfold bind. destruct (Hc s) as [HI HE].
  destruct (c s) as [[e|a] s']; simpl in *.
  - split; [assumption|]. intros e' He'. inversion He'; subst.
    apply HE. reflexivity.
  - destruct (Hk a s') as [HI' HE']. split; [|assumption].
    eapply I_trans; eassumption.
Qed.

(** A pure read, and what follows it knowing what was read. *)
Lemma preserves_bind_lift {A B} (c : completion A) (k : A -> sess W B) :
  (forall e, c = inl e -> E e) ->
  (forall a, c = inr a -> preserves I E (k a)) ->
  preserves I E (bind (lift c) k).
Proof.
  intros Hc Hk s. unfold bind, lift. destruct c as [e|a]; simpl.
  - split; [apply I_refl|]. intros e' He'. inversion He'; subst.
    apply Hc. reflexivity.
  - apply Hk. reflexivity.
Qed.

Lemma preserves_for_each {A} (items : list A) (body : A -> sess W unit) :
  (forall x, In x items -> preserves I E (body x)) ->
  preserves I E (for_each items body).
Proof.
  induction items as [|x items IH]; intros Hb; simpl.
  - apply preserves_ret.
  - apply preserves_bind.
    + apply Hb. left. reflexivity.
    + intros _. apply IH. intros y Hy. apply Hb. right. assumption.
Qed.

Hypothesis E_TypeError : forall msg, E (TypeError msg).
Hypothesis I_fullContent : forall text, preserves I E (append_fullContent text).
Hypothesis I_toolCalls : forall data, preserves I E (push_toolCall data).
Hypothesis I_onToken :
  forall v, preserves I E (invoke (OnToken v) (onToken cbs) v).
Hypothesis I_onToolCall :
  forall v, preserves I E (invoke (OnToolCall v) (onToolCall cbs) v).

(** The [thinking] and [error] branches need their own conditions only
    for an item that takes them. *)
Lemma handle_item_preserves (item : value) :
  (has_type "thinking" item = true ->
   (forall text, preserves I E (append_thinkingContent text)) /\
   (forall v, preserves I E (invoke (OnThinking v) (onThinking cbs) v))) ->
  (has_type "error" item = true ->
   forall data, E (createStreamError "Stream error received" PARSE_FAILED
                                     (DetailsError data))) ->
  preserves I E (handle item).
Proof.
  intros Hthink Herr. unfold handle_item.
  assert (Hget : forall k e, get_property item k = inl e -> E e).
  { intros k e H. apply get_property_throws in H. subst. apply E_TypeError. }
  assert (Hstr : forall v e, to_string NumberToString v = inl e -> E e).
  { intros v e H. apply to_string_throws in H. subst. apply E_TypeError. }
  assert (Hty : forall ty name, get_property item (js "type") = inr ty ->
                                is_string ty (js name) = has_type name item).
  { intros ty name H. unfold has_type, event_type. rewrite H. reflexivity. }
  apply preserves_bind_lift; [apply Hget|]. intros ty Ety.
  destruct (is_string ty (js "token")).
  { apply preserves_bind_lift; [apply Hget|]. intros content _.
    apply preserves_bind_lift; [apply Hstr|]. intros text _.
    apply preserves_bind; [apply I_fullContent|]. intros _.
    apply preserves_bind_lift; [apply Hget|]. intros content' _.
    apply I_onToken. }
  apply preserves_bind_lift; [apply Hget|]. intros ty1 Ety1.
  destruct (is_string ty1 (js "thinking")) eqn:Ethink.
  { rewrite (Hty _ _ Ety1) in Ethink. destruct (Hthink Ethink) as [Happ Hinv].
    apply preserves_bind_lift; [apply Hget|]. intros content _.
    apply preserves_bind_lift; [apply Hstr|]. intros text _.
    apply preserves_bind; [apply Happ|]. intros _.
    apply preserves_bind_lift; [apply Hget|]. intros content' _.
    apply Hinv. }
  apply preserves_bind_lift; [apply Hget|]. intros ty2 Ety2.
  destruct (is_string ty2 (js "tool_call")).
  { apply preserves_bind_lift; [apply Hget|]. intros data _.
    apply preserves_bind; [apply I_toolCalls|]. intros _.
    apply preserves_bind_lift; [apply Hget|]. intros data' _.
    apply I_onToolCall. }
  apply preserves_bind_lift; [apply Hget|]. intros ty3 Ety3.
  destruct (is_string ty3 (js "error")) eqn:Eerr.
  { rewrite (Hty _ _ Ety3) in Eerr.
    apply preserves_bind_lift; [apply Hget|]. intros data _.
    apply preserves_throw. apply Herr. assumption. }
  apply preserves_ret.
Qed.

Hypothesis I_this : forall s h, I s (with_this s h).

(** The read loop, when every item the decoders can hand over is one
    the loop body preserves [I] and [E] on. *)
Lemma read_loop_preserves (reads : transport) (s : session W) :
  (forall text item, In item (buffer_events JSON_parse provider text) ->
                     preserves I E (handle item)) ->
  transport_throws E reads ->
  I s (snd (loop reads s)) /\
  forall e, fst (loop reads s) = Threw e -> E e.
Proof.
  intros Hitems. revert s.
  induction reads as [chunk stop rest IH| |e|stalled]; intros s Ht; simpl;
    destruct (isStreaming (this s)); simpl;
    try (split; [first [apply I_refl|apply I_this]|congruence]).
  - rewrite processBuffer_spec.
    match goal with
    | |- context [for_each ?items _ ?s0] =>
        pose proof (@preserves_for_each _ items handle
                      (fun x Hx => Hitems _ x Hx) s0) as [HI HE];
        destruct (for_each items handle s0) as [[e|u] s'] eqn:Efor
    end; simpl in *.
    + split; [|intros e' He'; inversion He'; subst; apply HE; reflexivity].
      eapply I_trans; [apply I_this|exact HI].
    + destruct (IH s' Ht) as [HI' HE']. split; [|exact HE'].
      eapply I_trans; [apply I_this|]. eapply I_trans; eassumption.
  - split; [apply I_refl|]. intros e' He'. inversion He'; subst. exact Ht.
Qed.

Hypothesis I_onComplete :
  forall r, preserves I E (invoke (OnComplete r) (onComplete cbs) r).

Lemma try_block_preserves (resp : response) (s : session W) :
  (forall text item, In item (buffer_events JSON_parse provider text) ->
                     preserves I E (handle item)) ->
  response_throws E resp ->
  I s (snd (try_ resp s)) /\
  forall e, fst (try_ resp s) = TryThrew e -> E e.
Proof.
  intros Hitems Hresp. unfold try_block. destruct resp as [e0|reads].
  - cbn [fst snd]. split; [apply I_refl|].
    intros e He. inversion He; subst. exact Hresp.
  - destruct (read_loop_preserves reads s Hitems Hresp) as [HI HE].
    destruct (loop reads s) as [[|e|] s'] eqn:El; cbn [fst snd] in *.
    + match goal with
      | |- context [invoke ?r ?cb ?a s'] =>
          destruct (I_onComplete a s') as [HI' HE'];
          destruct (invoke r cb a s') as [[e|u] s''] eqn:Einv
      end; cbn [fst snd] in *.
      * split; [eapply I_trans; eassumption|].
        intros e' He'. inversion He'; subst. apply HE'. reflexivity.
      * split; [eapply I_trans; eassumption|congruence].
    + split; [assumption|]. intros e' He'. inversion He'; subst.
      apply HE. reflexivity.
    + split; [assumption|congruence].
Qed.

Hypothesis I_onError :
  forall e s, I s (snd (invoke (OnError e) (onError cbs) e s)).

Lemma catch_block_preserves (error : thrown) (s : session W) :
  I s (snd (catch_block cbs error s)).
Proof.
  unfold catch_block.
  set (s0 := with_this s (set_isStreaming (this s) false)).
  assert (H0 : I s s0) by apply I_this.
  destruct (instanceof_StreamError error).
  - pose proof (I_onError error s0) as H1.
    destruct (invoke (OnError error) (onError cbs) error s0) as [[e|u] s1];
      cbn [fst snd] in *; eapply I_trans; eassumption.
  - destruct (error_message error) as [e|message]; [exact H0|].
    destruct (error_stack error) as [e|stack]; [exact H0|].
    cbv zeta.
    match goal with
    | |- context [invoke ?r ?cb ?a s0] =>
        pose proof (I_onError a s0) as H1;
        destruct (invoke r cb a s0) as [[e|u] s1]
    end; cbn [fst snd] in *; eapply I_trans; eassumption.
Qed.

Lemma handleStream_preserves (resp : response) (w : W) :
  (forall text item, In item (buffer_events JSON_parse provider text) ->
                     preserves I E (handle item)) ->
  response_throws E resp ->
  I (initial_session w)
    (snd (handleStream JSON_parse formatThinkingContent NumberToString
                       cbs provider resp w)).
Proof.
  intros Hitems Hresp. unfold handleStream. cbv zeta.
  destruct (try_block_preserves resp (initial_session w) Hitems Hresp) as [HI _].
  destruct (try_ resp (initial_session w)) as [[result|error|] s'];
    cbn [fst snd] in *.
  - eapply I_trans; [exact HI|apply I_this].
  - pose proof (catch_block_preserves error s') as Hc.
    destruct (catch_block cbs error s') as [e s'']. cbn [fst snd] in *.
    eapply I_trans; [exact HI|]. eapply I_trans; [exact Hc|apply I_this].
  - exact HI.
Qed.

End Preserve.

Section Runs.

(** The accumulators and the calls after [cb(arg)]. *)
Lemma invoke_session {A : Type} (record : call) (cb : A -> W -> effect W)
  (arg : A) (s : session W) :
  let s' := snd (invoke record cb arg s) in
  calls s' = calls s ++ [record] /\ fullContent s' = fullContent s /\
  toolCalls s' = toolCalls s /\ thinkingContent s' = thinkingContent s.
Proof. unfold invoke. cbn. repeat split. Qed.

Lemma invoke_completion {A : Type} (record : call) (cb : A -> W -> effect W)
  (arg : A) (s : session W) :
  fst (invoke record cb arg s)
  = match cb_completion (cb arg (world s)) with
    | inl e => inl e
    | inr _ => inr tt
    end.
Proof. reflexivity. Qed.

Lemma invoke_throws {A : Type} (record : call) (cb : A -> W -> effect W)
  (arg : A) (s : session W) (e : thrown) :
  fst (invoke record cb arg s) = inl e ->
  cb_completion (cb arg (world s)) = inl e.
Proof.
  unfold invoke. cbn. destruct (cb_completion (cb arg (world s))); congruence.
Qed.

Lemma calls_extended_refl (Q : call -> Prop) (s : session W) :
  calls_extended Q s s.
Proof. exists []. rewrite app_nil_r. split; [reflexivity|constructor]. Qed.

Lemma calls_extended_same (Q : call -> Prop) (s s' : session W) :
  calls s' = calls s -> calls_extended Q s s'.
Proof.
  intros H. exists []. rewrite app_nil_r. split; [assumption|constructor].
Qed.

Lemma calls_extended_with_this (Q : call -> Prop) (s : session W) (h : handler) :
  calls_extended Q s (with_this s h).
Proof. apply calls_extended_same. reflexivity. Qed.

Lemma calls_extended_trans (Q : call -> Prop) (a b c : session W) :
  calls_extended Q a b -> calls_extended Q b c -> calls_extended Q a c.
Proof.
  intros (m1 & E1 & F1) (m2 & E2 & F2). exists (m1 ++ m2).
  rewrite E2, E1, app_assoc. split; [reflexivity|].
  apply Forall_app. split; assumption.
Qed.

Lemma calls_extended_invoke {A : Type} (Q : call -> Prop) (record : call)
  (cb : A -> W -> effect W) (arg : A) (s : session W) :
  Q record -> calls_extended Q s (snd (invoke record cb arg s)).
Proof.
  intros HQ. exists [record]. split; [apply invoke_session|].
  constructor; [assumption|constructor].
Qed.

(** The [try] block calls [onToken], [onToolCall], [onThinking] and
    [onComplete] only. *)
Lemma try_block_calls (Q : call -> Prop) (resp : response) (s : session W) :
  (forall v, Q (OnToken v)) -> (forall v, Q (OnToolCall v)) ->
  (forall v, Q (OnThinking v)) -> (forall r, Q (OnComplete r)) ->
  calls_extended Q s (snd (try_ resp s)).
Proof.
  intros Qt Qc Qth Qr.
  eapply proj1.
  eapply (try_block_preserves (calls_extended Q) (fun _ => True)).
  - apply calls_extended_refl.
  - apply calls_extended_trans.
  - apply calls_extended_with_this.
  - intros r s0. split; [|trivial]. apply calls_extended_invoke, Qr.
  - intros text item _. apply handle_item_preserves.
    + apply calls_extended_refl.
    + apply calls_extended_trans.
    + trivial.
    + intros t s0. split; [|trivial]. apply calls_extended_same. reflexivity.
    + intros data s0. split; [|trivial]. apply calls_extended_same. reflexivity.
    + intros v s0. split; [|trivial]. apply calls_extended_invoke, Qt.
    + intros v s0. split; [|trivial]. apply calls_extended_invoke, Qc.
    + intros _. split.
      * intros t s0. split; [|trivial]. apply calls_extended_same. reflexivity.
      * intros v s0. split; [|trivial]. apply calls_extended_invoke, Qth.
    + intros _ data. trivial.
  - destruct resp as [e|reads]; cbn; [trivial|].
    induction reads; cbn; trivial.
Qed.

(** A fulfilled promise carries the accumulators of the session, and the
    reason 'stop'. *)
Lemma handleStream_fulfilled (resp : response) (w : W) (r : Result.t)
  (s : session W) :
  handleStream JSON_parse formatThinkingContent NumberToString cbs provider resp w
  = (Fulfilled r, s) ->
  r = Result.make (fullContent s) (toolCalls s) (thinkingContent s) (js "stop").
Proof.
  unfold handleStream, try_block. cbv zeta.
  destruct resp as [e|reads].
  - destruct (catch_block cbs e (initial_session w)). congruence.
  - destruct (loop reads (initial_session w)) as [[|e|] s'].
    + match goal with
      | |- context [invoke ?rec ?cb ?a s'] =>
          pose proof (invoke_session rec cb a s') as (_ & Hf & Ht & Hth);
          destruct (invoke rec cb a s') as [[e|u] s'']
      end; cbn [snd] in *.
      * destruct (catch_block cbs e s''). congruence.
      * intros H. inversion H; subst. unfold finally_block, with_this. cbn.
        rewrite Hf, Ht, Hth. reflexivity.
    + destruct (catch_block cbs e s'). congruence.
    + congruence.
Qed.

End Runs.

End SessionFacts.

(* ================================================================== *)
(** ** The decoders: provider dispatch, malformed lines, event types *)
(* ================================================================== *)

(** C10. For a provider tag other than 'openai', 'deepseek', 'anthropic'
    and 'gemini', [processBuffer] returns the events and leaves the buffer
    that it returns and leaves for the tag 'openai', whatever the buffer
    holds. *)
Theorem processBuffer_unknown_provider
  (JSON_parse : jsstring -> completion value) (provider : jsstring) (this : handler) :
  provider <> js "openai" -> provider <> js "deepseek" ->
  provider <> js "anthropic" -> provider <> js "gemini" ->
  processBuffer JSON_parse provider this =
  processBuffer JSON_parse (js "openai") this.
Proof.
  intros Ho Hd Ha Hg. unfold processBuffer.
  rewrite (eqb_neq Ho), (eqb_neq Hd), (eqb_neq Ha), (eqb_neq Hg).
  reflexivity.
Qed.

Lemma processBuffer_unknown_provider_witness :
  js "custom" <> js "openai" /\ js "custom" <> js "deepseek" /\
  js "custom" <> js "anthropic" /\ js "custom" <> js "gemini" /\
  processBuffer JSON.parse (js "custom") (Handler hi_payload true) =
  processBuffer JSON.parse (js "openai") (Handler hi_payload true).
Proof.
  assert (Ho : js "custom" <> js "openai") by discriminate.
  assert (Hd : js "custom" <> js "deepseek") by discriminate.
  assert (Ha : js "custom" <> js "anthropic") by discriminate.
  assert (Hg : js "custom" <> js "gemini") by discriminate.
  split; [exact Ho|]. split; [exact Hd|]. split; [exact Ha|]. split; [exact Hg|].
  exact (processBuffer_unknown_provider JSON.parse (js "custom")
           (Handler hi_payload true) Ho Hd Ha Hg).
Defined.

Lemma complete_lines_one (l : jsstring) :
  forallb (fun c => negb (N.eqb c LF)) l = true ->
  complete_lines (l ++ [LF]) = [l] /\ remainder (l ++ [LF]) = [].
Proof.
  induction l as [|c l IH]; intros H.
  - split; reflexivity.
  - simpl in H. apply andb_prop in H as [Hc Hl].
    destruct (IH Hl) as [IHl IHr].
    simpl app. rewrite complete_lines_cons, remainder_cons.
    destruct (N.eqb c LF); [discriminate|].
    rewrite IHl, IHr. split; reflexivity.
Qed.

Lemma decoder_line_parse_failure (JSON_parse : jsstring -> completion value)
  (provider l : jsstring) {text : jsstring} {e : thrown} (processed : list value) :
  json_payload provider l = Some text -> JSON_parse text = inl e ->
  decoder_line JSON_parse provider l processed = (inr tt, processed).
Proof.
  intros Hp He.
  assert (Hopenai :
    (if is_empty (trim l) || JsString.eqb (trim l) (js "data: [DONE]") then None
     else if startsWith l (js "data: ") then Some (substring l 6) else None)
    = Some text ->
    openai_line JSON_parse l processed = (inr tt, processed)).
  { unfold openai_line.
    destruct (is_empty (trim l) || JsString.eqb (trim l) (js "data: [DONE]"));
      [discriminate|].
    destruct (startsWith l (js "data: ")); [|discriminate].
    intros H. assert (Ht : substring l 6 = text) by congruence.
    unfold try_skip, bind, lift. rewrite Ht, He. reflexivity. }
  unfold json_payload, decoder_line in *. cbv zeta in Hp.
  destruct (JsString.eqb provider (js "openai") || JsString.eqb provider (js "deepseek"));
    [exact (Hopenai Hp)|].
  destruct (JsString.eqb provider (js "anthropic")).
  { unfold anthropic_line.
    destruct (is_empty (trim l)); [discriminate|].
    destruct (startsWith l (js "event: ") || startsWith l (js "data: "));
      [|discriminate].
    rewrite Hp. unfold try_skip, bind, lift. rewrite He. reflexivity. }
  destruct (JsString.eqb provider (js "gemini")); [|exact (Hopenai Hp)].
  unfold gemini_line.
  destruct (is_empty (trim l)); [discriminate|].
  assert (Ht : l = text) by congruence.
  unfold try_skip, bind, lift. rewrite Ht, He. reflexivity.
Qed.

(** C6. Whatever the provider tag and the buffer, a decode pass returns:
    it does not throw.  A line whose JSON payload fails to parse pushes no
    event and lets the loop go on; a buffer made of one such complete line
    decodes to no event and is consumed whole. *)
Theorem malformed_line_skipped (JSON_parse : jsstring -> completion value)
  (provider : jsstring) :
  (forall this, exists processed this',
      processBuffer JSON_parse provider this = (inr processed, this'))
  /\
  (forall l text e,
      json_payload provider l = Some text -> JSON_parse text = inl e ->
      (forall processed,
          decoder_line JSON_parse provider l processed = (inr tt, processed))
      /\
      (forallb (fun c => negb (N.eqb c LF)) l = true ->
       forall streaming,
         processBuffer JSON_parse provider (Handler (l ++ [LF]) streaming) =
         (inr [], Handler [] streaming))).
Proof.
  split.
  - intros this. rewrite processBuffer_spec. eauto.
  - intros l text e Hp He. split.
    + intros processed. eapply decoder_line_parse_failure; eassumption.
    + intros Hl streaming. rewrite processBuffer_spec. unfold buffer_events. simpl.
      destruct (complete_lines_one l Hl) as [-> ->]. simpl.
      unfold line_events.
      rewrite (decoder_line_parse_failure JSON_parse provider l [] Hp He).
      reflexivity.
Qed.

Lemma malformed_line_skipped_witness :
  json_payload (js "openai") cut_line = Some (substring cut_line 6)
  /\ JSON.parse (substring cut_line 6) = inl (JSON.SyntaxError "Unexpected token in JSON")
  /\ processBuffer JSON.parse (js "openai") (Handler (cut_line ++ [LF]) true) =
     (inr [], Handler [] true).
Proof.
  assert (Hp : json_payload (js "openai") cut_line = Some (substring cut_line 6))
    by reflexivity.
  assert (He : JSON.parse (substring cut_line 6)
               = inl (JSON.SyntaxError "Unexpected token in JSON"))
    by reflexivity.
  split; [exact Hp|]. split; [exact He|].
  exact (proj2 (proj2 (malformed_line_skipped JSON.parse (js "openai"))
                      cut_line _ _ Hp He)
               eq_refl true).
Defined.

(* ================================================================== *)
(** ** The session: result, errors, event types *)
(* ================================================================== *)

(** C7. Whenever [handleStream] completes normally, the result it returns
    has [finishReason] equal to 'stop', whatever finish events were decoded
    and whatever reasons they carried. *)
Theorem finishReason_always_stop
  (JSON_parse : jsstring -> completion value)
  (formatThinkingContent : value -> value) (NumberToString : Z -> Z -> jsstring)
  {W : Type} (cbs : callbacks W) (provider : jsstring)
  (resp : response) (w : W) (r : Result.t) (s : session W) :
  handleStream JSON_parse formatThinkingContent NumberToString cbs provider resp w
  = (Fulfilled r, s) ->
  Result.finishReason r = js "stop".
Proof.
  intros H. apply handleStream_fulfilled in H. rewrite H. reflexivity.
Qed.

Lemma finishReason_always_stop_witness :
  exists r s,
    run_stream default_callbacks "openai" (Stream (Chunk length_payload false Done))
    = (Fulfilled r, s)
    /\ buffer_events JSON.parse (js "openai") length_payload
       = [ev_token (VString (js "Hi")); ev_finish (VString (js "length"))]
    /\ Result.finishReason r = js "stop".
Proof.
  eexists. eexists.
  assert (H : run_stream default_callbacks "openai"
                (Stream (Chunk length_payload false Done))
              = (Fulfilled (Result.make (js "Hi") [] [] (js "stop")),
                 Session (Handler [] false) (js "Hi") [] [] tt
                   [OnToken (VString (js "Hi"));
                    OnComplete (Result.make (js "Hi") [] [] (js "stop"))]))
    by reflexivity.
  split; [exact H|]. split; [reflexivity|].
  exact (finishReason_always_stop JSON.parse format_identity number_unprinted
           default_callbacks (js "openai") _ tt _ _ H).
Defined.

(** C4, amended. If the [try] block of [handleStream] throws a value other
    than [null] and [undefined] (thrown by the transport read, by
    [onToken], [onToolCall], [onThinking] or [onComplete], or raised in the
    loop), [handleStream] wraps it into a stream-parse-failure unless it is
    a [StreamError] already and calls [onError] with it, which is the only
    call of [onError]; when that call returns, the promise is rejected with
    that same error, and when it throws, with what it threw. *)
Theorem exception_reported_once
  (JSON_parse : jsstring -> completion value)
  (formatThinkingContent : value -> value) (NumberToString : Z -> Z -> jsstring)
  {W : Type} (cbs : callbacks W) (provider : jsstring)
  (resp : response) (w : W) (error : thrown) (s1 : session W) :
  try_block JSON_parse formatThinkingContent NumberToString cbs provider
            resp (initial_session w) = (TryThrew error, s1) ->
  error <> ThrownNullish ->
  let run := handleStream JSON_parse formatThinkingContent NumberToString
                          cbs provider resp w in
  calls (snd run) = calls s1 ++ [OnError (reported error)]
  /\ filter is_OnError (calls s1) = []
  /\ (forall v, cb_completion (onError cbs (reported error) (world s1)) = inr v ->
                fst run = Rejected (reported error))
  /\ (forall e, cb_completion (onError cbs (reported error) (world s1)) = inl e ->
                fst run = Rejected e).
Proof.
  intros Htry Hnot run.
  assert (Hcalls : filter is_OnError (calls s1) = []).
  { pose proof (try_block_calls JSON_parse formatThinkingContent NumberToString
                  W cbs provider (fun c => is_OnError c = false) resp
                  (initial_session w)) as H.
    rewrite Htry in H. destruct H as (made & Hm & Hall); try reflexivity.
    cbn in Hm. rewrite Hm. clear Hm.
    induction Hall as [|c made Hc _ IH]; [reflexivity|].
    cbn. rewrite Hc. exact IH. }
  assert (Hcatch :
    let s0 := with_this s1 (set_isStreaming (this s1) false) in
    catch_block cbs error s1
    = (match fst (invoke (OnError (reported error)) (onError cbs)
                         (reported error) s0) with
       | inl e => e
       | inr _ => reported error
       end,
       snd (invoke (OnError (reported error)) (onError cbs) (reported error) s0))).
  { unfold catch_block. cbv zeta.
    destruct error as [se|message stack|]; [| |contradiction];
      cbn -[invoke];
      match goal with
      | |- context [invoke ?rec ?cb ?a ?s0] =>
          destruct (invoke rec cb a s0) as [[e|u] s2]
      end; reflexivity. }
  subst run. unfold handleStream. cbv zeta in *. rewrite Htry, Hcatch.
  set (s0 := with_this s1 (set_isStreaming (this s1) false)).
  pose proof (invoke_session W (OnError (reported error)) (onError cbs)
                (reported error) s0) as (Hc & _).
  pose proof (invoke_completion W (OnError (reported error)) (onError cbs)
                (reported error) s0) as Hcompl.
  cbv zeta in Hc. cbn [fst snd]. split; [exact Hc|]. split; [exact Hcalls|].
  change (world s0) with (world s1) in Hcompl.
  split.
  - intros v Hv. rewrite Hv in Hcompl. rewrite Hcompl. reflexivity.
  - intros e He. rewrite He in Hcompl. rewrite Hcompl. reflexivity.
Qed.

Lemma exception_reported_once_witness :
  try_block JSON.parse format_identity number_unprinted default_callbacks
            (js "openai") (Stream (Fail boom)) (initial_session tt)
  = (TryThrew boom, initial_session tt)
  /\ boom <> ThrownNullish
  /\ calls (snd (run_stream default_callbacks "openai" (Stream (Fail boom))))
     = [OnError (reported boom)]
  /\ fst (run_stream default_callbacks "openai" (Stream (Fail boom)))
     = Rejected (reported boom).
Proof.
  assert (Htry : try_block JSON.parse format_identity number_unprinted
                   default_callbacks (js "openai") (Stream (Fail boom))
                   (initial_session tt)
                 = (TryThrew boom, initial_session tt)) by reflexivity.
  assert (Hnot : boom <> ThrownNullish) by discriminate.
  split; [exact Htry|]. split; [exact Hnot|].
  destruct (exception_reported_once JSON.parse format_identity number_unprinted
              default_callbacks (js "openai") (Stream (Fail boom)) tt _ _ Htry Hnot)
    as (Hcalls & _ & Hrejected & _).
  split; [exact Hcalls|].
  exact (Hrejected (RetValue VUndefined) eq_refl).
Defined.

(** C4 as stated fails on two inputs.  When [onToken] throws and [onError]
    throws in turn, the promise is rejected with what [onError] threw, not
    with the wrapped error.  When the transport read rejects with
    [undefined], reading [error.message] in the [catch] block throws:
    [onError] is not called and the promise is rejected with that
    TypeError. *)
Lemma exception_reporting_counterexample :
  fst (try_block JSON.parse format_identity number_unprinted throwing_callbacks
                 (js "openai") (Stream (Chunk hi_payload false Done))
                 (initial_session tt)) = TryThrew boom
  /\ fst (run_stream throwing_callbacks "openai"
                     (Stream (Chunk hi_payload false Done))) = Rejected oops
  /\ oops <> reported boom
  /\ fst (try_block JSON.parse format_identity number_unprinted default_callbacks
                    (js "openai") (Stream (Fail ThrownNullish))
                    (initial_session tt)) = TryThrew ThrownNullish
  /\ fst (run_stream default_callbacks "openai" (Stream (Fail ThrownNullish)))
     = Rejected (TypeError "Cannot read properties of null or undefined")
  /\ calls (snd (run_stream default_callbacks "openai" (Stream (Fail ThrownNullish))))
     = [].
Proof.
  split; [reflexivity|]. split; [reflexivity|]. split; [discriminate|].
  split; [reflexivity|]. split; reflexivity.
Qed.

Lemma never_throw_invoke {W A : Type} (E : thrown -> Prop) (record : call)
  (cb : A -> W -> effect W) (arg : A) :
  (forall x w e', cb_completion (cb x w) <> inl e') ->
  preserves (fun _ _ : session W => True) E (invoke record cb arg).
Proof.
  intros Hcb s. split; [trivial|]. intros e H.
  apply invoke_throws in H. apply Hcb in H. contradiction.
Qed.

(** C9. Whatever the provider tag and the buffer, a decode pass returns
    items of type token, tool_call or finish only, none of type thinking or
    error.  Hence [handleStream] never calls [onThinking] and leaves
    [thinkingContent] empty, in the session and in the result; and its
    branch for an in-band error is never taken: when neither the callbacks
    nor the transport throw a [StreamError], the only [StreamError] the
    promise can be rejected with is the wrapping 'Stream processing
    failed', not 'Stream error received'. *)
Theorem decoders_emit_three_types
  (JSON_parse : jsstring -> completion value)
  (formatThinkingContent : value -> value) (NumberToString : Z -> Z -> jsstring)
  {W : Type} (cbs : callbacks W) (provider : jsstring) :
  (forall this, exists processed this',
      processBuffer JSON_parse provider this = (inr processed, this')
      /\ Forall decoded processed)
  /\
  (forall resp w,
      let run := handleStream JSON_parse formatThinkingContent NumberToString
                              cbs provider resp w in
      filter is_OnThinking (calls (snd run)) = []
      /\ thinkingContent (snd run) = []
      /\ forall r, fst run = Fulfilled r -> Result.thinkingContent r = [])
  /\
  (forall resp w se,
      never_throw cbs -> response_throws not_StreamError resp ->
      fst (handleStream JSON_parse formatThinkingContent NumberToString
                        cbs provider resp w) = Rejected (ThrownStreamError se) ->
      se_message se = js "Stream processing failed").
Proof.
  assert (Hdecoded : forall text,
             Forall decoded (buffer_events JSON_parse provider text)).
  { intros text.
    destruct (decoded_event_types decoded) as (Ht & Hc & Hf).
    { intros item H1 H2 H3. repeat split; assumption. }
    apply buffer_events_Forall; assumption. }
  split; [|split].
  - intros this. rewrite processBuffer_spec. eauto.
  - intros resp w run.
    set (I := fun s s' : session W =>
                thinkingContent s' = thinkingContent s /\
                calls_extended (fun c => is_OnThinking c = false) s s').
    assert (I_refl : forall s, I s s).
    { intros s. split; [reflexivity|apply calls_extended_refl]. }
    assert (I_trans : forall a b c, I a b -> I b c -> I a c).
    { intros a b c [H1 H2] [H3 H4]. split; [congruence|].
      eapply calls_extended_trans; eassumption. }
    assert (I_same : forall s s' : session W,
               thinkingContent s' = thinkingContent s -> calls s' = calls s ->
               I s s').
    { intros s s' H1 H2. split; [assumption|].
      apply calls_extended_same. assumption. }
    assert (I_invoke : forall (A : Type) record (cb : A -> W -> effect W) arg s,
               is_OnThinking record = false ->
               I s (snd (invoke record cb arg s))).
    { intros A record cb arg s Hr. split; [apply invoke_session|].
      apply calls_extended_invoke. assumption. }
    assert (HI : I (initial_session w) (snd run)).
    { subst run.
      apply (handleStream_preserves JSON_parse formatThinkingContent
               NumberToString W cbs provider I (fun _ => True)); trivial.
      - intros s h. apply I_same; reflexivity.
      - intros r s. split; [|trivial]. apply I_invoke. reflexivity.
      - intros e s. apply I_invoke. reflexivity.
      - intros text item Hin.
        pose proof (proj1 (Forall_forall _ _) (Hdecoded text) item Hin)
          as (_ & Hth & Her).
        apply handle_item_preserves; trivial.
        + intros t s. split; [|trivial]. apply I_same; reflexivity.
        + intros d s. split; [|trivial]. apply I_same; reflexivity.
        + intros v s. split; [|trivial]. apply I_invoke. reflexivity.
        + intros v s. split; [|trivial]. apply I_invoke. reflexivity.
        + intros H. congruence.
      - destruct resp as [e|reads]; cbn; [trivial|].
        induction reads; cbn; trivial. }
    destruct HI as [Hth (made & Hm & Hall)]. cbn in Hth, Hm.
    split; [|split].
    + rewrite Hm. clear Hm. induction Hall as [|c made Hc _ IH]; [reflexivity|].
      cbn. rewrite Hc. exact IH.
    + exact Hth.
    + intros r Hr. destruct run as [p s] eqn:Erun. cbn in *. subst p.
      apply handleStream_fulfilled in Erun. rewrite Erun. cbn. exact Hth.
  - intros resp w se (Ntok & Ncall & Nthink & Ncomp & Nerr) Hresp.
    unfold handleStream. cbv zeta.
    pose proof (try_block_preserves JSON_parse formatThinkingContent
                  NumberToString W cbs provider (fun _ _ => True) not_StreamError)
      as Htry.
    specialize (Htry (fun _ => Logic.I) (fun _ _ _ _ _ => Logic.I)
                     (fun _ _ => Logic.I)).
    destruct (Htry (fun r => never_throw_invoke not_StreamError _ _ r Ncomp)
                   resp (initial_session w)) as [_ HE].
    { intros text item Hin.
      pose proof (proj1 (Forall_forall _ _) (Hdecoded text) item Hin)
        as (_ & Hth & Her).
      apply handle_item_preserves; trivial.
      - intros msg. reflexivity.
      - intros t s. split; [trivial|]. cbn. congruence.
      - intros d s. split; [trivial|]. cbn. congruence.
      - intros v. apply never_throw_invoke, Ntok.
      - intros v. apply never_throw_invoke, Ncall.
      - intros H. congruence.
      - intros H. congruence. }
    { exact Hresp. }
    destruct (try_block JSON_parse formatThinkingContent NumberToString cbs
                provider resp (initial_session w)) as [[result|error|] s1];
      cbn [fst snd] in *; try discriminate.
    specialize (HE error eq_refl). unfold not_StreamError in HE.
    unfold catch_block. rewrite HE.
    destruct error as [e0|message stack|]; cbn -[invoke].
    + discriminate.
    + match goal with
      | |- context [invoke ?rec ?cb ?a ?s0] =>
          pose proof (invoke_throws W rec cb a s0) as Ht;
          destruct (invoke rec cb a s0) as [[e|u] s2]
      end; cbn in *.
      * exfalso. exact (Nerr _ _ _ (Ht e eq_refl)).
      * intros H. inversion H. reflexivity.
    + discriminate.
Qed.

Lemma default_callbacks_never_throw : never_throw (default_callbacks (W := unit)).
Proof. repeat split; intros arg w e; discriminate. Qed.

Lemma decoders_emit_three_types_witness :
  never_throw (default_callbacks (W := unit))
  /\ response_throws not_StreamError (Stream (Chunk hi_payload false (Fail boom)))
  /\ fst (run_stream default_callbacks "openai"
            (Stream (Chunk hi_payload false (Fail boom))))
     = Rejected (ThrownStreamError
                   (StreamError (js "Stream processing failed") PARSE_FAILED
                      (DetailsOriginal (VString (js "boom")) VUndefined)))
  /\ se_message (StreamError (js "Stream processing failed") PARSE_FAILED
                   (DetailsOriginal (VString (js "boom")) VUndefined))
     = js "Stream processing failed".
Proof.
  assert (Hresp : response_throws not_StreamError
                    (Stream (Chunk hi_payload false (Fail boom))))
    by reflexivity.
  assert (Hrun : fst (run_stream default_callbacks "openai"
                        (Stream (Chunk hi_payload false (Fail boom))))
                 = Rejected (ThrownStreamError
                      (StreamError (js "Stream processing failed") PARSE_FAILED
                         (DetailsOriginal (VString (js "boom")) VUndefined))))
    by reflexivity.
  split; [exact default_callbacks_never_throw|].
  split; [exact Hresp|]. split; [exact Hrun|].
  exact (proj2 (proj2 (decoders_emit_three_types JSON.parse format_identity
                         number_unprinted default_callbacks (js "openai")))
               _ tt _ default_callbacks_never_throw Hresp Hrun).
Defined.

(* ================================================================== *)
(** ** The session: tool calls are not awaited *)
(* ================================================================== *)

Section NotAwaited.

Variable JSON_parse : jsstring -> completion value.
Variable formatThinkingContent : value -> value.
Variable NumberToString : Z -> Z -> jsstring.
Variable W : Type.
Variable cbs : callbacks W.
Variable provider : jsstring.
Variable f : returned -> returned.

Lemma invoke_map_onToolCall (data : value) (s : session W) :
  invoke (OnToolCall data) (onToolCall (map_onToolCall_return f cbs)) data s
  = invoke (OnToolCall data) (onToolCall cbs) data s.
Proof.
  unfold invoke. cbn.
  destruct (cb_completion (onToolCall cbs data (world s))); reflexivity.
Qed.

Lemma handle_item_map_onToolCall (item : value) (s : session W) :
  handle_item formatThinkingContent NumberToString
              (map_onToolCall_return f cbs) item s
  = handle_item formatThinkingContent NumberToString cbs item s.
Proof.
  unfold handle_item, bind, lift.
  destruct (get_property item (js "type")) as [e|ty]; [reflexivity|].
  destruct (is_string ty (js "token")); [reflexivity|].
  destruct (is_string ty (js "thinking")); [reflexivity|].
  destruct (is_string ty (js "tool_call")); [|reflexivity].
  destruct (get_property item (js "data")) as [e|data]; [reflexivity|].
  apply invoke_map_onToolCall.
Qed.

Lemma for_each_ext {S A : Type} (items : list A) (body body' : A -> @m S unit)
  (s : S) :
  (forall x s0, body x s0 = body' x s0) ->
  for_each items body s = for_each items body' s.
Proof.
  intros H. revert s. induction items as [|x items IH]; intros s; cbn.
  - reflexivity.
  - unfold bind. rewrite H. destruct (body' x s) as [[e|u] s']; [reflexivity|].
    apply IH.
Qed.

Lemma read_loop_map_onToolCall (reads : transport) (s : session W) :
  read_loop JSON_parse formatThinkingContent NumberToString
            (map_onToolCall_return f cbs) provider reads s
  = read_loop JSON_parse formatThinkingContent NumberToString cbs provider reads s.
Proof.
  revert s. induction reads as [chunk stop rest IH| | |]; intros s; cbn;
    try reflexivity.
  destruct (isStreaming (this s)); [|reflexivity].
  destruct (processBuffer JSON_parse provider _) as [[e|processed] h'];
    [reflexivity|].
  rewrite (for_each_ext processed _ _ _ handle_item_map_onToolCall).
  destruct (for_each processed _ _) as [[e|u] s']; [reflexivity|].
  apply IH.
Qed.

Lemma handleStream_map_onToolCall (resp : response) (w : W) :
  handleStream JSON_parse formatThinkingContent NumberToString
               (map_onToolCall_return f cbs) provider resp w
  = handleStream JSON_parse formatThinkingContent NumberToString cbs provider resp w.
Proof.
  unfold handleStream, try_block. destruct resp as [e|reads]; [reflexivity|].
  rewrite read_loop_map_onToolCall. reflexivity.
Qed.

End NotAwaited.

(** C5. In the read loop a decoded tool_call event appends the call to
    [toolCalls] and calls [onToolCall]; the loop goes on as soon as the
    call has returned, whatever it has returned: a promise that is still
    pending, or one that is rejected, makes no difference to the run, to
    the tokens that reach [onToken] after it and to the result. *)
Theorem tool_call_not_awaited
  (JSON_parse : jsstring -> completion value)
  (formatThinkingContent : value -> value) (NumberToString : Z -> Z -> jsstring)
  {W : Type} (cbs : callbacks W) (provider : jsstring) :
  (forall data s handed_back,
      cb_completion (onToolCall cbs data (world s)) = inr handed_back ->
      exists s',
        handle_item formatThinkingContent NumberToString cbs
                    (ev_tool_call data) s = (inr tt, s')
        /\ toolCalls s' = toolCalls s ++ [data]
        /\ calls s' = calls s ++ [OnToolCall data]
        /\ fullContent s' = fullContent s
        /\ thinkingContent s' = thinkingContent s)
  /\
  (forall (f : returned -> returned) resp w,
      handleStream JSON_parse formatThinkingContent NumberToString
                   (map_onToolCall_return f cbs) provider resp w
      = handleStream JSON_parse formatThinkingContent NumberToString
                     cbs provider resp w).
Proof.
  split.
  - intros data s handed_back H.
    unfold handle_item, bind, lift, push_toolCall, invoke.
    lazy -[cb_completion cb_stop cb_world onToolCall world this fullContent
           toolCalls thinkingContent calls stopStream app].
    cbn [world this fullContent toolCalls thinkingContent calls].
    rewrite H. eexists. split; [reflexivity|]. cbn. repeat split.
  - intros f resp w. apply handleStream_map_onToolCall.
Qed.

Lemma tool_call_not_awaited_witness :
  cb_completion (onToolCall delayed_tool_callbacks search_call tt)
  = inr (RetPromise Pending)
  /\ (exists s',
        handle_item format_identity number_unprinted delayed_tool_callbacks
                    (ev_tool_call search_call) (initial_session tt) = (inr tt, s')
        /\ toolCalls s' = [search_call]
        /\ calls s' = [OnToolCall search_call])
  /\ run_stream delayed_tool_callbacks "openai"
        (Stream (Chunk tool_call_payload false (Chunk hi_payload false Done)))
     = (Fulfilled (Result.make (js "Hi") [search_call] [] (js "stop")),
        Session (Handler [] false) (js "Hi") [search_call] [] tt
          [OnToolCall search_call; OnToken (VString (js "Hi"));
           OnComplete (Result.make (js "Hi") [search_call] [] (js "stop"))]).
Proof.
  assert (H : cb_completion (onToolCall delayed_tool_callbacks search_call tt)
              = inr (RetPromise Pending)) by reflexivity.
  split; [exact H|]. split; [|reflexivity].
  destruct (proj1 (tool_call_not_awaited JSON.parse format_identity
                     number_unprinted delayed_tool_callbacks (js "openai"))
                  search_call (initial_session tt) _ H)
    as (s' & Hrun & Htools & Hcalls & _).
  exists s'. split; [exact Hrun|]. split; [exact Htools|exact Hcalls].
Defined.

(* ================================================================== *)
(** ** Split invariance *)
(* ================================================================== *)

Section Split.

Variable JSON_parse : jsstring -> completion value.
Variable formatThinkingContent : value -> value.
Variable NumberToString : Z -> Z -> jsstring.
Variable W : Type.
Variable cbs : callbacks W.
Variable provider : jsstring.

Local Abbreviation handle := (handle_item formatThinkingContent NumberToString cbs).
Local Abbreviation loop := (read_loop JSON_parse formatThinkingContent NumberToString cbs provider).

Hypothesis no_stop : never_stop cbs.

(** The loop body neither reads nor, as no callback stops the stream,
    writes the instance state. *)
Lemma handle_item_frame (item : value) (s : session W) (h : handler) :
  handle item (with_this s h)
  = (fst (handle item s), with_this (snd (handle item s)) h).
Proof.
  destruct no_stop as (Ht & Hc & Hth).
  unfold handle_item, bind, lift, ret, throw, invoke, append_fullContent,
    append_thinkingContent, push_toolCall.
  cbn.
  destruct (get_property item (js "type")) as [e|ty]; cbn; [reflexivity|].
  destruct (is_string ty (js "token")).
  { destruct (get_property item (js "content")) as [e|c]; cbn; [reflexivity|].
    destruct (to_string NumberToString c) as [e|text]; cbn; [reflexivity|].
    rewrite Ht. destruct (cb_completion _); reflexivity. }
  destruct (is_string ty (js "thinking")).
  { destruct (get_property item (js "content")) as [e|c]; cbn; [reflexivity|].
    destruct (to_string NumberToString c) as [e|text]; cbn; [reflexivity|].
    rewrite Hth. destruct (cb_completion _); reflexivity. }
  destruct (is_string ty (js "tool_call")).
  { destruct (get_property item (js "data")) as [e|d]; cbn; [reflexivity|].
    rewrite Hc. destruct (cb_completion _); reflexivity. }
  destruct (is_string ty (js "error")); [|reflexivity].
  destruct (get_property item (js "data")) as [e|d]; reflexivity.
Qed.

Lemma for_each_frame (items : list value) (s : session W) (h : handler) :
  for_each items handle (with_this s h)
  = (fst (for_each items handle s), with_this (snd (for_each items handle s)) h).
Proof.
  revert s. induction items as [|item items IH]; intros s; cbn.
  - reflexivity.
  - unfold bind. rewrite handle_item_frame.
    destruct (handle item s) as [[e|u] s']; cbn; [reflexivity|].
    apply IH.
Qed.

Lemma for_each_app {S A : Type} (l1 l2 : list A) (body : A -> @m S unit) (s : S) :
  for_each (l1 ++ l2) body s
  = bind (for_each l1 body) (fun _ => for_each l2 body) s.
Proof.
  revert s. induction l1 as [|x l1 IH]; intros s; cbn.
  - reflexivity.
  - unfold bind in *. destruct (body x s) as [[e|u] s']; [reflexivity|].
    apply IH.
Qed.

(** Two reads that deliver [a] then [b] leave the loop as one read that
    delivers [a ++ b] does; when an item of [a] makes the loop throw, the
    two sessions differ in the buffer only. *)
Lemma read_loop_split (a b : jsstring) (stop : bool) (rest : transport)
  (s : session W) :
  isStreaming (this s) = true ->
  fst (loop (Chunk a false (Chunk b stop rest)) s)
  = fst (loop (Chunk (a ++ b) stop rest) s)
  /\ same_but_this (snd (loop (Chunk a false (Chunk b stop rest)) s))
                   (snd (loop (Chunk (a ++ b) stop rest) s))
  /\ ((forall e, fst (loop (Chunk a false (Chunk b stop rest)) s) <> Threw e) ->
       snd (loop (Chunk a false (Chunk b stop rest)) s)
       = snd (loop (Chunk (a ++ b) stop rest) s)).
Proof.
  destruct s as [[buf streaming] fc tc th w cs]. cbn [this isStreaming].
  intros ->.
  set (s0 := Session (Handler buf true) fc tc th w cs).
  set (E1 := buffer_events JSON_parse provider (buf ++ a)).
  assert (Hframe : forall h,
             for_each E1 handle (Session h fc tc th w cs)
             = (fst (for_each E1 handle s0),
                with_this (snd (for_each E1 handle s0)) h)).
  { intros h. exact (for_each_frame E1 s0 h). }
  subst s0.
  destruct stop.
  all: cbn [read_loop this isStreaming].
  all: unfold stopStream, set_isStreaming, set_buffer, with_this.
  all: cbn [buffer isStreaming this fullContent toolCalls thinkingContent
            world calls].
  all: rewrite !processBuffer_spec; unfold set_buffer.
  all: cbn [buffer isStreaming].
  all: rewrite (app_assoc buf a b).
  all: rewrite (buffer_events_app JSON_parse provider (buf ++ a) b).
  all: destruct (lines_app (buf ++ a) b) as [_ ->].
  all: rewrite for_each_app; unfold bind; fold E1.
  all: repeat match goal with
              | |- context [for_each _ _
                              (Session (Handler (remainder ?x) ?st) _ _ _ _ _)] =>
                  rewrite (Hframe (Handler (remainder x) st))
              end.
  all: destruct (for_each E1 handle (Session (Handler buf true) fc tc th w cs))
         as [[e|u] s1]; cbn [fst snd].
  1, 3: split; [reflexivity|]; split;
          [intros h; reflexivity|intros H; contradiction (H e eq_refl)].
  all: unfold with_this.
  all: cbn [read_loop this isStreaming buffer fullContent toolCalls
            thinkingContent world calls].
  all: unfold stopStream, set_isStreaming, set_buffer, with_this.
  all: cbn [buffer isStreaming this fullContent toolCalls thinkingContent
            world calls].
  all: rewrite processBuffer_spec; unfold set_buffer.
  all: cbn [buffer isStreaming].
  all: split; [reflexivity|]; split; [intros h; reflexivity|];
         intros; reflexivity.
Qed.

End Split.

Lemma same_but_this_fields {W : Type} (s1 s2 : session W) :
  same_but_this s1 s2 ->
  exists h1 h2 fc tc th w cs,
    s1 = Session h1 fc tc th w cs /\ s2 = Session h2 fc tc th w cs.
Proof.
  intros H. specialize (H (Handler [] false)).
  destruct s1 as [h1 fc1 tc1 th1 w1 cs1], s2 as [h2 fc2 tc2 th2 w2 cs2].
  cbn in H. inversion H; subst. do 7 eexists. split; reflexivity.
Qed.

Lemma catch_block_same_but_this {W : Type} (cbs : callbacks W) (e : thrown)
  (s1 s2 : session W) :
  same_but_this s1 s2 ->
  fst (catch_block cbs e s1) = fst (catch_block cbs e s2)
  /\ finally_block (snd (catch_block cbs e s1))
     = finally_block (snd (catch_block cbs e s2)).
Proof.
  intros H. destruct (same_but_this_fields s1 s2 H)
    as (h1 & h2 & fc & tc & th & w & cs & -> & ->).
  unfold catch_block, invoke, finally_block, with_this.
  cbn [this fullContent toolCalls thinkingContent world calls].
  destruct (instanceof_StreamError e).
  - destruct (cb_completion (onError cbs e w)); split; reflexivity.
  - destruct (error_message e) as [e1|message]; [split; reflexivity|].
    destruct (error_stack e) as [e2|stack]; [split; reflexivity|].
    cbv zeta. destruct (cb_completion _); split; reflexivity.
Qed.

(** C1. Whatever the provider tag and the payload, decoding a first chunk
    and then, from the remainder it left, a second one yields the events
    of the two chunks decoded as one, in the same order, and leaves the
    same remainder.  Hence a session that receives the payload in two
    reads calls the callbacks with the same arguments in the same order
    and ends with the same [fullContent], [toolCalls] and
    [thinkingContent] as a session that receives it in one read, as long
    as no callback stops the stream between the two. *)
Theorem split_invariance
  (JSON_parse : jsstring -> completion value)
  (formatThinkingContent : value -> value) (NumberToString : Z -> Z -> jsstring)
  {W : Type} (cbs : callbacks W) (provider : jsstring) :
  (forall a b streaming, exists events1 rest1 events2 rest2,
      processBuffer JSON_parse provider (Handler a streaming)
      = (inr events1, Handler rest1 streaming)
      /\ processBuffer JSON_parse provider (Handler (rest1 ++ b) streaming)
         = (inr events2, Handler rest2 streaming)
      /\ processBuffer JSON_parse provider (Handler (a ++ b) streaming)
         = (inr (events1 ++ events2), Handler rest2 streaming))
  /\
  (forall a b stop rest w,
      never_stop cbs ->
      handleStream JSON_parse formatThinkingContent NumberToString cbs provider
                   (Stream (Chunk a false (Chunk b stop rest))) w
      = handleStream JSON_parse formatThinkingContent NumberToString cbs provider
                     (Stream (Chunk (a ++ b) stop rest)) w).
Proof.
  split.
  - intros a b streaming.
    exists (buffer_events JSON_parse provider a), (remainder a),
           (buffer_events JSON_parse provider (remainder a ++ b)),
           (remainder (remainder a ++ b)).
    rewrite !processBuffer_spec. unfold set_buffer. cbn [buffer isStreaming].
    rewrite (buffer_events_app JSON_parse provider a b).
    destruct (lines_app a b) as [_ ->].
    repeat split.
  - intros a b stop rest w Hstop.
    destruct (read_loop_split JSON_parse formatThinkingContent NumberToString
                W cbs provider Hstop a b stop rest (initial_session w) eq_refl)
      as (Hfst & Hsame & Heq).
    unfold handleStream, try_block. cbv zeta.
    destruct (read_loop _ _ _ _ _ (Chunk a false (Chunk b stop rest)) _)
      as [x1 s1].
    destruct (read_loop _ _ _ _ _ (Chunk (a ++ b) stop rest) _) as [x2 s2].
    cbn [fst snd] in *. subst x2.
    destruct x1 as [|e|].
    + rewrite Heq by (intros ?; discriminate). reflexivity.
    + destruct (catch_block_same_but_this cbs e s1 s2 Hsame) as [Hc Hf].
      destruct (catch_block cbs e s1) as [e1 s1'].
      destruct (catch_block cbs e s2) as [e2 s2'].
      cbn [fst snd] in *. subst e2. rewrite Hf. reflexivity.
    + rewrite Heq by (intros ?; discriminate). reflexivity.
Qed.

Lemma default_callbacks_never_stop : never_stop (default_callbacks (W := unit)).
Proof. repeat split. Qed.

Lemma split_invariance_witness :
  hi_head ++ hi_tail = hi_payload
  /\ never_stop (default_callbacks (W := unit))
  /\ processBuffer JSON.parse (js "openai") (Handler hi_head true)
     = (inr [], Handler hi_head true)
  /\ run_stream default_callbacks "openai"
        (Stream (Chunk hi_head false (Chunk hi_tail false Done)))
     = run_stream default_callbacks "openai"
         (Stream (Chunk (hi_head ++ hi_tail) false Done)).
Proof.
  split; [reflexivity|]. split; [exact default_callbacks_never_stop|].
  split; [reflexivity|].
  exact (proj2 (split_invariance JSON.parse format_identity number_unprinted
                  default_callbacks (js "openai"))
               hi_head hi_tail false Done tt default_callbacks_never_stop).
Defined.

(* ================================================================== *)
(** ** The delta-SSE decoder, line by line *)
(* ================================================================== *)

Lemma get_property_field (v : value) (k : string) :
  nullish v = false -> get_property v (js k) = inr (field v k).
Proof.
  intros H. unfold field, get_optional.
  destruct v as [| |b|m e|s|items|props]; try discriminate; cbn.
  - reflexivity.
  - reflexivity.
  - destruct (array_index (js k)) as [i|].
    + destruct (nth_error s i); reflexivity.
    + destruct (JsString.eqb (js k) (js "length")); reflexivity.
  - destruct (array_index (js k)) as [i|].
    + destruct (nth_error items i); reflexivity.
    + destruct (JsString.eqb (js k) (js "length")); reflexivity.
  - destruct (own_property (js k) props); reflexivity.
Qed.

Lemma get_optional_field (v : value) (k : string) :
  get_optional v (js k) = inr (field v k).
Proof.
  destruct (nullish v) eqn:H.
  - destruct v; try discriminate; reflexivity.
  - rewrite <- (get_property_field v k H).
    destruct v; try discriminate; reflexivity.
Qed.

Lemma truthy_not_nullish (v : value) : truthy v = true -> nullish v = false.
Proof. destruct v; cbn; congruence. Qed.

Lemma field_of_nullish (v : value) (k : string) :
  nullish v = true -> field v k = VUndefined.
Proof. destruct v; try discriminate; reflexivity. Qed.

Lemma truthy_field_not_nullish (v : value) (k : string) :
  truthy (field v k) = true -> nullish v = false.
Proof.
  intros H. destruct (nullish v) eqn:E; [|reflexivity].
  rewrite (field_of_nullish v k E) in H. discriminate.
Qed.

Section Stepping.

Context {S A B : Type}.

Lemma bind_get (v : value) (k : string) (K : value -> @m S B) (st : S) :
  nullish v = false ->
  bind (lift (get_property v (js k))) K st = K (field v k) st.
Proof. intros H. unfold bind, lift. rewrite (get_property_field v k H). reflexivity. Qed.

Lemma bind_get_optional (v : value) (k : string) (K : value -> @m S B) (st : S) :
  bind (lift (get_optional v (js k))) K st = K (field v k) st.
Proof. unfold bind, lift. rewrite get_optional_field. reflexivity. Qed.

Lemma bind_get_nullish (v : value) (k : string) (K : value -> @m S B) (st : S) :
  nullish v = true ->
  snd (bind (lift (get_property v (js k))) K st) = st.
Proof. intros H. destruct v; try discriminate; reflexivity. Qed.

Lemma bind_assoc (c : @m S A) (K1 : A -> @m S B) {C : Type} (K2 : B -> @m S C)
  (st : S) :
  bind (bind c K1) K2 st = bind c (fun a => bind (K1 a) K2) st.
Proof. unfold bind. destruct (c st) as [[e|a] st']; reflexivity. Qed.

End Stepping.

(** The fields the decoder reads are [undefined] on a falsy value. *)
Lemma falsy_fields (v : value) :
  truthy v = false ->
  field v "0" = VUndefined /\ field v "delta" = VUndefined
  /\ field v "finish_reason" = VUndefined.
Proof.
  destruct v as [| |b|m e|s|items|props]; cbn; intros H; try discriminate;
    try (repeat split; reflexivity).
  destruct s; [repeat split; reflexivity|discriminate].
Qed.

Section DeltaSse.

Variable JSON_parse : jsstring -> completion value.

(** The loop over the entries of [tool_calls], none of them [null]. *)
Lemma tool_calls_loop (entries : list value) (st : list value) :
  forallb (fun entry => negb (nullish entry)) entries = true ->
  for_each entries
    (fun toolCall =>
       bind (lift (get_property toolCall (js "function"))) (fun f =>
       when (truthy f)
         (bind (lift (get_property toolCall (js "id"))) (fun id =>
          bind (lift (get_property toolCall (js "function"))) (fun f1 =>
          bind (lift (get_property f1 (js "name"))) (fun name =>
          bind (lift (get_property toolCall (js "function"))) (fun f2 =>
          bind (lift (get_property f2 (js "arguments"))) (fun arguments =>
          push (ev_tool_call (VObject [(js "id", id); (js "name", name);
                                       (js "arguments", arguments)]))))))))))
    st
  = (inr tt, st ++ flat_map delta_sse_tool_call entries).
Proof.
  revert st. induction entries as [|entry entries IH]; intros st H.
  - cbn. rewrite app_nil_r. reflexivity.
  - cbn [forallb] in H. apply andb_prop in H as [He Hrest].
    apply negb_true_iff in He.
    cbn [for_each flat_map]. rewrite bind_assoc, bind_get by assumption.
    unfold delta_sse_tool_call at 1.
    destruct (truthy (field entry "function")) eqn:Hf.
    + pose proof (truthy_not_nullish _ Hf) as Hfn.
      cbn [when]. rewrite !bind_assoc, bind_get by assumption.
      rewrite !bind_assoc, bind_get by assumption.
      rewrite !bind_assoc, bind_get by assumption.
      rewrite !bind_assoc, bind_get by assumption.
      rewrite !bind_assoc, bind_get by assumption.
      unfold bind at 1, push at 1. rewrite IH by assumption.
      rewrite <- app_assoc. reflexivity.
    + cbn [when]. unfold bind at 1, ret at 1. rewrite IH by assumption.
      reflexivity.
Qed.

(** A falsy [choices[0]], or none: the specification's three parts are
    empty. *)
Lemma delta_sse_nothing (data : value) (entries : list value) :
  truthy (choice0 data) = false ->
  tool_call_entries data = Some entries ->
  delta_sse_token data ++ flat_map delta_sse_tool_call entries
    ++ delta_sse_finish data = [].
Proof.
  intros H Hent. destruct (falsy_fields _ H) as (_ & Hdelta & Hfinish).
  unfold tool_call_entries in Hent. unfold delta_sse_token, delta_sse_finish.
  rewrite Hdelta in *. rewrite Hfinish. cbn in *.
  inversion Hent; subst. reflexivity.
Qed.

Lemma openai_data_events (data : value) (entries : list value) (st : list value) :
  tool_call_entries data = Some entries ->
  snd (openai_data data st)
  = st ++ delta_sse_token data ++ flat_map delta_sse_tool_call entries
       ++ delta_sse_finish data.
Proof.
  intros Hent. unfold openai_data.
  destruct (nullish data) eqn:Hd.
  { rewrite bind_get_nullish by assumption.
    rewrite delta_sse_nothing; [rewrite app_nil_r; reflexivity| |assumption].
    unfold choice0. rewrite (field_of_nullish data _ Hd). reflexivity. }
  rewrite bind_get by assumption.
  destruct (truthy (field data "choices")) eqn:Hc.
  2: { unfold bind at 1, ret at 1. rewrite Hc. cbn [when ret snd].
       rewrite delta_sse_nothing; [rewrite app_nil_r; reflexivity| |assumption].
       unfold choice0. apply falsy_fields in Hc as (-> & _). reflexivity. }
  pose proof (truthy_not_nullish _ Hc) as Hcn.
  rewrite bind_assoc, bind_get by assumption. rewrite bind_get by assumption.
  change (field (field data "choices") "0") with (choice0 data).
  destruct (truthy (choice0 data)) eqn:Hch.
  2: { cbn [when ret snd].
       rewrite delta_sse_nothing; [rewrite app_nil_r; reflexivity| |];
         assumption. }
  pose proof (truthy_not_nullish _ Hch) as Hchn.
  cbn [when].
  rewrite bind_get by assumption. rewrite bind_get by assumption.
  change (field (field data "choices") "0") with (choice0 data).
  rewrite bind_get by assumption. rewrite bind_get_optional.
  unfold delta_sse_token, delta_sse_finish, tool_call_entries in *.
  cbv zeta in *.
  (* Regular content delta *)
  destruct (truthy (field (field (choice0 data) "delta") "content")) eqn:Hcontent.
  1: pose proof (truthy_field_not_nullish _ _ Hcontent) as Hdn;
     cbn [when]; rewrite !bind_assoc, bind_get by assumption;
     rewrite !bind_assoc, bind_get by assumption;
     unfold bind at 1, push at 1.
  2: cbn [when]; unfold bind at 1, ret at 1.
  (* Tool calls *)
  all: rewrite bind_get by assumption; rewrite bind_get_optional.
  all: destruct (truthy (field (field (choice0 data) "delta") "tool_calls")) eqn:Htc.
  1, 3: pose proof (truthy_field_not_nullish _ _ Htc) as Hdn';
        cbn [when]; rewrite !bind_assoc, bind_get by assumption;
        rewrite !bind_assoc, bind_get by assumption;
        unfold for_of; rewrite bind_assoc;
        destruct (iterate (field (field (choice0 data) "delta") "tool_calls")) as [e|items];
          [discriminate Hent|];
        destruct (forallb (fun entry => negb (nullish entry)) items) eqn:Hall;
          [|discriminate Hent];
        injection Hent as <-;
        unfold bind at 1, lift at 1;
        unfold bind at 1; rewrite tool_calls_loop by assumption.
  3, 4: injection Hent as <-; cbn [when];
        unfold bind at 1, ret at 1; cbn [flat_map].
  (* Finish reason *)
  all: rewrite bind_get by assumption.
  all: destruct (truthy (field (choice0 data) "finish_reason")) eqn:Hfin.
  all: cbn [when ret snd].
  all: try (rewrite bind_get by assumption; unfold push; cbn [snd]).
  all: rewrite <- ?app_assoc, ?app_nil_r; reflexivity.
Qed.

(** The loop over [tool_calls] can throw only under a truthy
    [choices[0]]. *)
Lemma tool_call_entries_falsy (data : value) :
  truthy (choice0 data) = false -> tool_call_entries data = Some [].
Proof.
  intros H. destruct (falsy_fields _ H) as (_ & Hdelta & _).
  unfold tool_call_entries. rewrite Hdelta. reflexivity.
Qed.

(** The same loop over entries one of which is [null] or [undefined]: it
    throws there, the events of the entries before it pushed. *)
Lemma tool_calls_loop_throws (entries : list value) (st : list value) :
  forallb (fun entry => negb (nullish entry)) entries = false ->
  exists e,
  for_each entries
    (fun toolCall =>
       bind (lift (get_property toolCall (js "function"))) (fun f =>
       when (truthy f)
         (bind (lift (get_property toolCall (js "id"))) (fun id =>
          bind (lift (get_property toolCall (js "function"))) (fun f1 =>
          bind (lift (get_property f1 (js "name"))) (fun name =>
          bind (lift (get_property toolCall (js "function"))) (fun f2 =>
          bind (lift (get_property f2 (js "arguments"))) (fun arguments =>
          push (ev_tool_call (VObject [(js "id", id); (js "name", name);
                                       (js "arguments", arguments)]))))))))))
    st
  = (inl e, st ++ flat_map delta_sse_tool_call (before_nullish entries)).
Proof.
  revert st. induction entries as [|entry entries IH]; intros st H;
    [discriminate|].
  cbn [forallb] in H. cbn [for_each before_nullish].
  destruct (nullish entry) eqn:He.
  - eexists. unfold bind at 1, lift at 1.
    cbn [flat_map]. rewrite app_nil_r.
    destruct entry; try discriminate; reflexivity.
  - cbn [negb andb] in H. cbn [flat_map].
    rewrite bind_assoc, bind_get by assumption.
    unfold delta_sse_tool_call at 1.
    destruct (truthy (field entry "function")) eqn:Hf.
    + pose proof (truthy_not_nullish _ Hf) as Hfn.
      cbn [when]. rewrite !bind_assoc, bind_get by assumption.
      rewrite !bind_assoc, bind_get by assumption.
      rewrite !bind_assoc, bind_get by assumption.
      rewrite !bind_assoc, bind_get by assumption.
      rewrite !bind_assoc, bind_get by assumption.
      unfold bind at 1, push at 1.
      destruct (IH (st ++ [ev_tool_call
          (VObject [(js "id", field entry "id");
                    (js "name", field (field entry "function") "name");
                    (js "arguments", field (field entry "function") "arguments")])]) H)
        as (e & ->).
      exists e. rewrite <- app_assoc. reflexivity.
    + cbn [when]. unfold bind at 1, ret at 1.
      destruct (IH st H) as (e & ->). exists e. reflexivity.
Qed.

(** When the loop over [tool_calls] throws, what the line has pushed is
    the token and the tool calls of the entries gone through. *)
Lemma openai_data_throws (data : value) (st : list value) :
  tool_call_entries data = None ->
  snd (openai_data data st)
  = st ++ delta_sse_token data
       ++ flat_map delta_sse_tool_call (tool_calls_visited data).
Proof.
  intros Hent. unfold openai_data.
  assert (Hch : truthy (choice0 data) = true).
  { destruct (truthy (choice0 data)) eqn:H; [reflexivity|].
    rewrite (tool_call_entries_falsy data H) in Hent. discriminate. }
  pose proof (truthy_not_nullish _ Hch) as Hchn.
  assert (Hcn : nullish (field data "choices") = false).
  { apply (truthy_field_not_nullish _ "0"). exact Hch. }
  assert (Hc : truthy (field data "choices") = true).
  { destruct (truthy (field data "choices")) eqn:H; [reflexivity|].
    apply falsy_fields in H as (H0 & _). unfold choice0 in Hch.
    rewrite H0 in Hch. discriminate. }
  assert (Hd : nullish data = false).
  { destruct (nullish data) eqn:H; [|reflexivity].
    rewrite (field_of_nullish data _ H) in Hcn. discriminate. }
  rewrite bind_get by assumption. rewrite Hc.
  rewrite bind_assoc, bind_get by assumption. rewrite bind_get by assumption.
  change (field (field data "choices") "0") with (choice0 data).
  rewrite Hch. cbn [when].
  rewrite bind_get by assumption. rewrite bind_get by assumption.
  change (field (field data "choices") "0") with (choice0 data).
  rewrite bind_get by assumption. rewrite bind_get_optional.
  unfold delta_sse_token, tool_calls_visited, tool_call_entries in *.
  cbv zeta in *.
  destruct (truthy (field (field (choice0 data) "delta") "content")) eqn:Hcontent.
  1: pose proof (truthy_field_not_nullish _ _ Hcontent) as Hdn;
     cbn [when]; rewrite !bind_assoc, bind_get by assumption;
     rewrite !bind_assoc, bind_get by assumption;
     unfold bind at 1, push at 1.
  2: cbn [when]; unfold bind at 1, ret at 1.
  all: rewrite bind_get by assumption; rewrite bind_get_optional.
  all: destruct (truthy (field (field (choice0 data) "delta") "tool_calls")) eqn:Htc;
    [|discriminate Hent].
  all: pose proof (truthy_field_not_nullish _ _ Htc) as Hdn';
       cbn [when]; rewrite !bind_assoc, bind_get by assumption;
       rewrite !bind_assoc, bind_get by assumption;
       unfold for_of; rewrite bind_assoc.
  all: destruct (iterate (field (field (choice0 data) "delta") "tool_calls"))
         as [e|items].
  1, 3: unfold bind at 1, lift at 1; cbn [snd flat_map];
        rewrite ?app_nil_r; reflexivity.
  all: destruct (forallb (fun entry => negb (nullish entry)) items) eqn:Hall;
         [discriminate Hent|].
  all: unfold bind at 1, lift at 1; unfold bind at 1.
  all: match goal with
       | H : forallb _ ?its = false |- context [for_each ?its ?body ?st0] =>
           destruct (tool_calls_loop_throws its st0 H) as (e & ->)
       end.
  all: cbn [snd]; rewrite <- ?app_assoc; reflexivity.
Qed.
Lemma delta_sse_token_nothing (data : value) :
  truthy (choice0 data) = false -> delta_sse_token data = [].
Proof.
  intros H. destruct (falsy_fields _ H) as (_ & Hdelta & _).
  unfold delta_sse_token. rewrite Hdelta. reflexivity.
Qed.

(** The token comes first, whatever the rest of the line does. *)
Lemma openai_data_token (data : value) (st : list value) :
  exists more, snd (openai_data data st) = st ++ delta_sse_token data ++ more.
Proof.
  unfold openai_data.
  destruct (nullish data) eqn:Hd.
  { rewrite bind_get_nullish by assumption. exists [].
    rewrite delta_sse_token_nothing; [rewrite app_nil_r; reflexivity|].
    unfold choice0. rewrite (field_of_nullish data _ Hd). reflexivity. }
  rewrite bind_get by assumption.
  destruct (truthy (field data "choices")) eqn:Hc.
  2: { unfold bind at 1, ret at 1. rewrite Hc. cbn [when ret snd]. exists [].
       rewrite delta_sse_token_nothing; [rewrite app_nil_r; reflexivity|].
       unfold choice0. apply falsy_fields in Hc as (-> & _). reflexivity. }
  pose proof (truthy_not_nullish _ Hc) as Hcn.
  rewrite bind_assoc, bind_get by assumption. rewrite bind_get by assumption.
  change (field (field data "choices") "0") with (choice0 data).
  destruct (truthy (choice0 data)) eqn:Hch.
  2: { cbn [when ret snd]. exists [].
       rewrite delta_sse_token_nothing; [rewrite app_nil_r; reflexivity|].
       assumption. }
  pose proof (truthy_not_nullish _ Hch) as Hchn.
  cbn [when].
  rewrite bind_get by assumption. rewrite bind_get by assumption.
  change (field (field data "choices") "0") with (choice0 data).
  rewrite bind_get by assumption. rewrite bind_get_optional.
  unfold delta_sse_token. cbv zeta.
  destruct (truthy (field (field (choice0 data) "delta") "content")) eqn:Hcontent.
  1: pose proof (truthy_field_not_nullish _ _ Hcontent) as Hdn;
     cbn [when]; rewrite !bind_assoc, bind_get by assumption;
     rewrite !bind_assoc, bind_get by assumption;
     unfold bind at 1, push at 1.
  2: cbn [when]; unfold bind at 1, ret at 1.
  all: match goal with
       | |- exists more, snd (?c ?s) = _ =>
           let Hem := fresh "Hem" in
           assert (Hem : emits (fun _ => True) c) by emits_tac;
           destruct Hem as (r & items & _ & E); rewrite E; exists items
       end.
  all: cbn [snd]; rewrite <- ?app_assoc; reflexivity.
Qed.

Lemma openai_line_parsed (l : jsstring) (data : value) (st : list value) :
  is_empty (trim l) = false -> trim l <> js "data: [DONE]" ->
  startsWith l (js "data: ") = true ->
  JSON_parse (substring l 6) = inr data ->
  openai_line JSON_parse l st = (inr tt, snd (openai_data data st)).
Proof.
  intros Hblank Hdone Hprefix Hparse. unfold openai_line.
  rewrite Hblank, (eqb_neq Hdone), Hprefix. cbn [orb].
  unfold try_skip, bind at 1, lift at 1. rewrite Hparse. reflexivity.
Qed.

End DeltaSse.

(** C2, amended. A decode pass of the delta-SSE decoder splits the buffer
    on newline and keeps the last element as the remainder.  Of the other
    lines, a blank line and the sentinel 'data: [DONE]' push nothing.  For a
    line prefixed 'data: ' whose text after the prefix parses to [data], a
    non-empty [choices[0].delta.content] pushes one token event with that
    text, first; and, provided the loop over [choices[0].delta.tool_calls]
    throws nothing (the member is falsy, or can be iterated and holds no
    [null]), each entry with a function payload pushes one tool_call event
    with that entry's id, name and arguments, and a
    [choices[0].finish_reason] pushes one finish event with that reason,
    last.  When that loop throws (the member is truthy and cannot be
    iterated, or an entry is [null]), the [catch] skips the rest of the
    line: what the line pushes is the token and the tool calls of the
    entries before the one the loop throws at, and no finish event. *)
Theorem delta_sse_decode_pass (JSON_parse : jsstring -> completion value) :
  (forall provider this,
      provider = js "openai" \/ provider = js "deepseek" ->
      processBuffer JSON_parse provider this
      = (inr (flat_map (line_events (openai_line JSON_parse))
                       (fst (pop_or_empty (split_newline (buffer this))))),
         set_buffer this (snd (pop_or_empty (split_newline (buffer this))))))
  /\
  (forall l,
      is_empty (trim l) = true \/ trim l = js "data: [DONE]" ->
      line_events (openai_line JSON_parse) l = [])
  /\
  (forall l data,
      is_empty (trim l) = false -> trim l <> js "data: [DONE]" ->
      startsWith l (js "data: ") = true ->
      JSON_parse (substring l 6) = inr data ->
      (exists more,
          line_events (openai_line JSON_parse) l = delta_sse_token data ++ more)
      /\
      (forall entries,
          tool_call_entries data = Some entries ->
          line_events (openai_line JSON_parse) l
          = delta_sse_token data ++ flat_map delta_sse_tool_call entries
              ++ delta_sse_finish data)
      /\
      (tool_call_entries data = None ->
       line_events (openai_line JSON_parse) l
       = delta_sse_token data
           ++ flat_map delta_sse_tool_call (tool_calls_visited data))).
Proof.
  split; [|split].
  - intros provider this Hp. rewrite processBuffer_spec.
    unfold buffer_events, decoder_line, complete_lines, remainder.
    destruct Hp as [-> | ->]; reflexivity.
  - intros l H. unfold line_events, openai_line.
    destruct H as [-> | ->]; [reflexivity|].
    rewrite orb_true_r. reflexivity.
  - intros l data Hblank Hdone Hprefix Hparse. unfold line_events.
    rewrite (openai_line_parsed JSON_parse l data [] Hblank Hdone Hprefix Hparse).
    cbn [snd]. split; [|split].
    + apply openai_data_token.
    + intros entries Hent. apply (openai_data_events data entries [] Hent).
    + intros Hent. apply (openai_data_throws data [] Hent).
Qed.

Lemma delta_sse_decode_pass_witness :
  is_empty (trim (payload "data: {'choices':[{'delta':{'content':'Hi'}}]}")) = false
  /\ trim (payload "data: {'choices':[{'delta':{'content':'Hi'}}]}")
     <> js "data: [DONE]"
  /\ startsWith (payload "data: {'choices':[{'delta':{'content':'Hi'}}]}")
                (js "data: ") = true
  /\ (exists data,
        JSON.parse (substring (payload "data: {'choices':[{'delta':{'content':'Hi'}}]}") 6)
        = inr data
        /\ tool_call_entries data = Some []
        /\ line_events (openai_line JSON.parse)
                       (payload "data: {'choices':[{'delta':{'content':'Hi'}}]}")
           = delta_sse_token data ++ flat_map delta_sse_tool_call []
               ++ delta_sse_finish data
        /\ delta_sse_token data = [ev_token (VString (js "Hi"))])
  /\ (exists data,
        JSON.parse (substring null_after_call_line 6) = inr data
        /\ tool_call_entries data = None
        /\ line_events (openai_line JSON.parse) null_after_call_line
           = delta_sse_token data
               ++ flat_map delta_sse_tool_call (tool_calls_visited data)
        /\ delta_sse_token data
             ++ flat_map delta_sse_tool_call (tool_calls_visited data)
           = [ev_token (VString (js "Hi")); ev_tool_call search_call]).
Proof.
  assert (Hblank : is_empty (trim (payload "data: {'choices':[{'delta':{'content':'Hi'}}]}"))
                   = false) by reflexivity.
  assert (Hdone : trim (payload "data: {'choices':[{'delta':{'content':'Hi'}}]}")
                  <> js "data: [DONE]") by discriminate.
  assert (Hprefix : startsWith (payload "data: {'choices':[{'delta':{'content':'Hi'}}]}")
                               (js "data: ") = true) by reflexivity.
  split; [exact Hblank|]. split; [exact Hdone|]. split; [exact Hprefix|].
  split.
  - eexists.
    assert (Hparse : JSON.parse (substring (payload "data: {'choices':[{'delta':{'content':'Hi'}}]}") 6)
                     = inr (VObject [(js "choices",
                              VArray [VObject [(js "delta",
                                VObject [(js "content", VString (js "Hi"))])]])]))
      by reflexivity.
    split; [exact Hparse|].
    assert (Hent : tool_call_entries
                     (VObject [(js "choices",
                        VArray [VObject [(js "delta",
                          VObject [(js "content", VString (js "Hi"))])]])])
                   = Some []) by reflexivity.
    split; [exact Hent|]. split; [|reflexivity].
    exact (proj1 (proj2 (proj2 (proj2 (delta_sse_decode_pass JSON.parse)) _ _
                               Hblank Hdone Hprefix Hparse))
                 [] Hent).
  - destruct (JSON.parse (substring null_after_call_line 6)) as [e|data] eqn:Hparse;
      [discriminate Hparse|].
    exists data. split; [reflexivity|].
    assert (Hdata : inr data
                    = JSON.parse (substring null_after_call_line 6))
      by (symmetry; exact Hparse).
    assert (Hent : tool_call_entries data = None).
    { vm_compute in Hdata. injection Hdata as ->. reflexivity. }
    split; [exact Hent|]. split.
    + assert (Hb : is_empty (trim null_after_call_line) = false) by reflexivity.
      assert (Hd : trim null_after_call_line <> js "data: [DONE]") by discriminate.
      assert (Hp : startsWith null_after_call_line (js "data: ") = true)
        by reflexivity.
      exact (proj2 (proj2 (proj2 (proj2 (delta_sse_decode_pass JSON.parse)) _ _
                                 Hb Hd Hp Hparse))
                   Hent).
    + vm_compute in Hdata. injection Hdata as ->. reflexivity.
Defined.

(** C2 as stated fails when an entry of [tool_calls] is [null]: reading
    its function payload throws, the [catch] skips the rest of the line,
    and the finish reason of the line yields no finish event, the token
    already pushed staying. *)
Lemma delta_sse_decode_counterexample :
  exists data,
    JSON.parse (substring null_entry_line 6) = inr data
    /\ field (field (choice0 data) "delta") "tool_calls" = VArray [VNull]
    /\ field (choice0 data) "finish_reason" = VString (js "stop")
    /\ delta_sse_finish data = [ev_finish (VString (js "stop"))]
    /\ line_events (openai_line JSON.parse) null_entry_line
       = [ev_token (VString (js "Hi"))]
    /\ processBuffer JSON.parse (js "openai") (Handler (null_entry_line ++ [LF]) true)
       = (inr [ev_token (VString (js "Hi"))], Handler [] true).
Proof.
  eexists. split; [reflexivity|]. repeat split; reflexivity.
Qed.

(* ================================================================== *)
(** ** The fields of a tool call *)
(* ================================================================== *)

Section EmitReads.

Variable P : value -> Prop.

(** A pure read, and what follows it knowing what was read. *)
Lemma emits_bind_lift {A B} (c : completion A) (k : A -> dec B) :
  (forall a, c = inr a -> emits P (k a)) -> emits P (bind (lift c) k).
Proof.
  intros H. destruct c as [e|a].
  - exists (inl e), []. split; [constructor|].
    intros st. rewrite app_nil_r. reflexivity.
  - destruct (H a eq_refl) as (r & items & HP & E).
    exists r, items. split; [assumption|].
    intros st. unfold bind, lift. apply E.
Qed.

Lemma emits_when_true (b : bool) (c : dec unit) :
  (b = true -> emits P c) -> emits P (when b c).
Proof.
  destruct b; cbn; intros H; [apply H; reflexivity|apply emits_ret].
Qed.

End EmitReads.

Lemma get_property_inr_field (v : value) (k : string) (x : value) :
  get_property v (js k) = inr x -> x = field v k.
Proof.
  intros H. destruct (nullish v) eqn:Hn.
  - destruct v; discriminate.
  - rewrite (get_property_field v k Hn) in H. congruence.
Qed.

(** What a loop pushes, knowing that its variable is a member of what it
    goes over. *)
Section EmitMembers.

Variable P : value -> Prop.

Lemma emits_weaken (Q : value -> Prop) {A} (c : dec A) :
  (forall item, Q item -> P item) -> emits Q c -> emits P c.
Proof.
  intros H (r & items & HQ & E). exists r, items. split; [|exact E].
  eapply Forall_impl; eassumption.
Qed.

Lemma emits_if_eq {A} (b : bool) (c1 c2 : dec A) :
  (b = true -> emits P c1) -> (b = false -> emits P c2) ->
  emits P (if b then c1 else c2).
Proof. destruct b; intros H1 H2; [apply H1|apply H2]; reflexivity. Qed.

Lemma emits_for_each_in {A} (items : list A) (body : A -> dec unit) :
  (forall x, In x items -> emits P (body x)) -> emits P (for_each items body).
Proof.
  induction items as [|x items IH]; intros Hb; cbn [for_each].
  - apply emits_ret.
  - apply emits_bind; [apply Hb; left; reflexivity|].
    intros _. apply IH. intros y Hy. apply Hb. right. exact Hy.
Qed.

Lemma emits_for_of_in (v : value) (body : value -> dec unit) :
  (forall items x, iterate v = inr items -> In x items -> emits P (body x)) ->
  emits P (for_of v body).
Proof.
  intros Hb. unfold for_of. apply emits_bind_lift. intros items Hitems.
  apply emits_for_each_in. intros x Hx. exact (Hb items x Hitems Hx).
Qed.

End EmitMembers.

Ltac read_fields :=
  repeat match goal with
         | H : get_property ?v (js ?k) = inr ?x |- _ =>
             apply get_property_inr_field in H; subst x
         | H : get_optional ?v (js ?k) = inr ?x |- _ =>
             rewrite get_optional_field in H; injection H as <-
         end.

(** The tool calls of a parsed line of the delta-SSE decoder are made of
    entries of its [tool_calls]. *)
Lemma openai_data_tool_calls (data : value) :
  emits (fun item => has_type "tool_call" item = true -> delta_sse_call_of data item)
        (openai_data data).
Proof.
  unfold openai_data.
  apply emits_bind_lift; intros choices Hchoices.
  apply emits_bind; [apply emits_if; emits_tac|]. intros guard.
  apply emits_when.
  apply emits_bind_lift; intros c Hc.
  apply emits_bind_lift; intros choice Hchoice.
  read_fields. change (field (field data "choices") "0") with (choice0 data).
  apply emits_bind_lift; intros delta Hdelta.
  apply emits_bind_lift; intros content Hcontent.
  apply emits_bind.
  { apply emits_when. apply emits_bind_lift; intros d Hd.
    apply emits_bind_lift; intros text Htext.
    apply emits_push. intros H. discriminate H. }
  intros _.
  apply emits_bind_lift; intros delta' Hdelta'.
  apply emits_bind_lift; intros tool_calls Htool_calls.
  apply emits_bind.
  { apply emits_when. apply emits_bind_lift; intros d Hd.
    apply emits_bind_lift; intros calls Hcalls.
    apply emits_for_of_in. intros entries toolCall Hentries Hin.
    apply emits_bind_lift; intros f Hf. apply emits_when_true; intros Hpayload.
    apply emits_bind_lift; intros id Hid.
    apply emits_bind_lift; intros f1 Hf1.
    apply emits_bind_lift; intros name Hname.
    apply emits_bind_lift; intros f2 Hf2.
    apply emits_bind_lift; intros arguments Harguments.
    apply emits_push. intros _. read_fields.
    exists entries, toolCall. split; [exact Hentries|]. split; [exact Hin|].
    split; [exact Hpayload|reflexivity]. }
  intros _.
  apply emits_bind_lift; intros finish_reason Hfinish.
  apply emits_when. apply emits_bind_lift; intros reason Hreason.
  apply emits_push. intros H. discriminate H.
Qed.

(** The tool calls of a parsed line of the NDJSON decoder are made of parts
    of its [parts]. *)
Lemma gemini_data_tool_calls (data : value) :
  emits (fun item => has_type "tool_call" item = true -> ndjson_call_of data item)
        (gemini_data data).
Proof.
  unfold gemini_data.
  apply emits_bind_lift; intros candidates Hcandidates.
  apply emits_bind; [apply emits_if; emits_tac|]. intros guard.
  apply emits_when.
  apply emits_bind_lift; intros c Hc.
  apply emits_bind_lift; intros candidate Hcandidate.
  read_fields.
  apply emits_bind_lift; intros content Hcontent.
  apply emits_bind_lift; intros parts Hparts.
  apply emits_bind.
  { apply emits_when. apply emits_bind_lift; intros content' Hcontent'.
    apply emits_bind_lift; intros parts' Hparts'.
    apply emits_for_of_in. intros items part Hitems Hin.
    apply emits_bind_lift; intros text Htext.
    apply emits_bind.
    { apply emits_when. apply emits_bind_lift; intros t Ht.
      apply emits_push. intros H. discriminate H. }
    intros _.
    apply emits_bind_lift; intros functionCall HfunctionCall.
    apply emits_when_true; intros Hcall.
    apply emits_bind_lift; intros f1 Hf1.
    apply emits_bind_lift; intros name Hname.
    apply emits_bind_lift; intros f2 Hf2.
    apply emits_bind_lift; intros args Hargs.
    apply emits_push. intros _. read_fields.
    exists items, part. split; [exact Hitems|]. split; [exact Hin|].
    split; [exact Hcall|reflexivity]. }
  intros _.
  apply emits_bind_lift; intros finishReason Hfinish.
  apply emits_when. apply emits_bind_lift; intros reason Hreason.
  apply emits_push. intros H. discriminate H.
Qed.

Section ToolCallLines.

Variable JSON_parse : jsstring -> completion value.

Lemma openai_line_tool_calls (l : jsstring) :
  emits (fun item =>
           has_type "tool_call" item = true ->
           exists data,
             is_empty (trim l) || JsString.eqb (trim l) (js "data: [DONE]") = false
             /\ startsWith l (js "data: ") = true
             /\ JSON_parse (substring l 6) = inr data
             /\ delta_sse_call_of data item)
        (openai_line JSON_parse l).
Proof.
  unfold openai_line.
  apply emits_if_eq; intros Hskip; [apply emits_ret|].
  apply emits_if_eq; intros Hprefix; [|apply emits_ret].
  apply emits_try_skip. cbv zeta. apply emits_bind_lift. intros data Hparse.
  eapply emits_weaken; [|apply openai_data_tool_calls].
  intros item H Ht. exists data. auto.
Qed.

Lemma gemini_line_tool_calls (l : jsstring) :
  emits (fun item =>
           has_type "tool_call" item = true ->
           exists data,
             is_empty (trim l) = false
             /\ JSON_parse l = inr data
             /\ ndjson_call_of data item)
        (gemini_line JSON_parse l).
Proof.
  unfold gemini_line.
  apply emits_if_eq; intros Hblank; [apply emits_ret|].
  apply emits_try_skip. apply emits_bind_lift. intros data Hparse.
  eapply emits_weaken; [|apply gemini_data_tool_calls].
  intros item H Ht. exists data. auto.
Qed.

End ToolCallLines.

(** C3, amended. Every tool_call event of a pass of the delta-SSE decoder
    is made of an entry of [choices[0].delta.tool_calls] of the object
    parsed from a line of the buffer, and carries exactly the fields [id],
    [name] and [arguments], with the values of that entry's [id],
    [function.name] and [function.arguments]; every one of the NDJSON
    decoder is made of a part of [candidates[0].content.parts] of the
    object parsed from a line, and carries exactly [name] and [arguments],
    with the values of that part's [functionCall.name] and
    [functionCall.args].  The values are copied as they are, of whatever
    type, [undefined] when the entry has no such member. *)
Theorem tool_call_fields (JSON_parse : jsstring -> completion value)
  (provider : jsstring) (this : handler) :
  provider <> js "anthropic" ->
  exists processed this',
    processBuffer JSON_parse provider this = (inr processed, this')
    /\ Forall (fun item =>
                 has_type "tool_call" item = true ->
                 exists l text data,
                   In l (complete_lines (buffer this))
                   /\ json_payload provider l = Some text
                   /\ JSON_parse text = inr data
                   /\ if JsString.eqb provider (js "gemini")
                      then ndjson_call_of data item
                      else delta_sse_call_of data item)
              processed.
Proof.
  intros Hp. rewrite processBuffer_spec. do 2 eexists. split; [reflexivity|].
  unfold buffer_events. apply Forall_flat_map, Forall_forall. intros l Hl.
  apply emits_line_events. unfold decoder_line, json_payload.
  rewrite (eqb_neq Hp).
  assert (Hopenai :
    emits (fun item =>
             has_type "tool_call" item = true ->
             exists l0 text data,
               In l0 (complete_lines (buffer this))
               /\ (if is_empty (trim l0)
                      || JsString.eqb (trim l0) (js "data: [DONE]")
                   then None
                   else if startsWith l0 (js "data: ")
                        then Some (substring l0 6) else None) = Some text
               /\ JSON_parse text = inr data
               /\ delta_sse_call_of data item)
          (openai_line JSON_parse l)).
  { eapply emits_weaken; [|apply openai_line_tool_calls].
    intros item H Ht. destruct (H Ht) as (data & Hskip & Hprefix & Hparse & Hcall).
    exists l, (substring l 6), data. rewrite Hskip, Hprefix.
    repeat split; assumption. }
  destruct (JsString.eqb provider (js "openai") || JsString.eqb provider (js "deepseek"))
    eqn:Ho.
  - assert (Hg : JsString.eqb provider (js "gemini") = false).
    { apply orb_prop in Ho as [H|H]; apply eqb_eq in H; subst; reflexivity. }
    rewrite Hg. exact Hopenai.
  - destruct (JsString.eqb provider (js "gemini")); [|exact Hopenai].
    eapply emits_weaken; [|apply gemini_line_tool_calls].
    intros item H Ht. destruct (H Ht) as (data & Hblank & Hparse & Hcall).
    exists l, l, data. rewrite Hblank. repeat split; assumption.
Qed.

Lemma tool_call_fields_witness :
  js "openai" <> js "anthropic"
  /\ processBuffer JSON.parse (js "openai") (Handler tool_call_payload true)
     = (inr [ev_tool_call search_call], Handler [] true)
  /\ exists processed this',
       processBuffer JSON.parse (js "openai") (Handler tool_call_payload true)
       = (inr processed, this')
       /\ Forall (fun item =>
                    has_type "tool_call" item = true ->
                    exists l text data,
                      In l (complete_lines tool_call_payload)
                      /\ json_payload (js "openai") l = Some text
                      /\ JSON.parse text = inr data
                      /\ delta_sse_call_of data item)
                 processed.
Proof.
  assert (Hp : js "openai" <> js "anthropic") by discriminate.
  split; [exact Hp|]. split; [reflexivity|].
  exact (tool_call_fields JSON.parse (js "openai")
           (Handler tool_call_payload true) Hp).
Defined.

(** C3 as stated fails on two inputs.  A later fragment of a streamed tool
    call of a delta-SSE provider is emitted without a name: its [name] is
    [undefined], not a string.  The tool call of the typed-SSE decoder
    carries the arguments under [input]: it has no [arguments] field. *)
Lemma tool_call_fields_counterexample :
  processBuffer JSON.parse (js "openai") (Handler fragment_payload true)
  = (inr [ev_tool_call (VObject [(js "id", VUndefined); (js "name", VUndefined);
                                 (js "arguments", VString (js "{}"))])],
     Handler [] true)
  /\ tool_call_as_specified
       (VObject [(js "id", VUndefined); (js "name", VUndefined);
                 (js "arguments", VString (js "{}"))]) = false
  /\ processBuffer JSON.parse (js "anthropic") (Handler tool_use_payload true)
     = (inr [ev_tool_call (VObject [(js "id", VString (js "tu_1"));
                                    (js "name", VString (js "search"));
                                    (js "input", VObject [])])],
        Handler [] true)
  /\ tool_call_as_specified
       (VObject [(js "id", VString (js "tu_1"));
                 (js "name", VString (js "search"));
                 (js "input", VObject [])]) = false.
Proof. repeat split; reflexivity. Qed.

(* ================================================================== *)
(** ** Tool failures on the two paths *)
(* ================================================================== *)

Lemma initiated_app (l1 l2 : list action) :
  initiated (l1 ++ l2) = initiated l1 ++ initiated l2.
Proof.
  induction l1 as [|a l1 IH]; [reflexivity|].
  destruct a; cbn; rewrite ?IH; reflexivity.
Qed.

Section DispatchFacts.

Variable NumberToString : Z -> Z -> jsstring.
Variable W : Type.
Variable hasTool : value -> bool.
Variable executeTool : value -> value -> W -> promise value * W.
Variable options_onToolCall : option (value -> W -> completion unit * W).
Variable options_onComplete : option (parsed_response -> W -> completion unit * W).

Hypothesis onToolCall_returns : callback_returns options_onToolCall.

(** A call of [options.onToolCall] that returns leaves the messages and
    logs nothing that counts as an initiated or failed tool call. *)
Lemma user_onToolCall_returns (toolCall : value) (a : agent W) :
  exists w,
    user_call (UserOnToolCall toolCall) options_onToolCall toolCall a
    = (Fulfilled tt,
       Agent (messages a) w
             (log a ++ match options_onToolCall with
                       | Some _ => [UserOnToolCall toolCall]
                       | None => []
                       end)).
Proof.
  unfold user_call. destruct options_onToolCall as [f|] eqn:E.
  - pose proof (onToolCall_returns f eq_refl toolCall (tools_world a)) as H.
    destruct (f toolCall (tools_world a)) as [c w]. cbn in H. subst c.
    exists w. reflexivity.
  - exists (tools_world a). rewrite app_nil_r. destruct a. reflexivity.
Qed.

Lemma abind_get {B : Type} (v : value) (k : string)
  (K : value -> Async.async (S := agent W) B) (a : agent W) :
  nullish v = false ->
  Async.bind (Async.lift (get_property v (js k))) K a = K (field v k) a.
Proof.
  intros H. unfold Async.bind, Async.lift.
  rewrite (get_property_field v k H). reflexivity.
Qed.

Lemma abind_act {B : Type} (x : action)
  (K : unit -> Async.async (S := agent W) B) (a : agent W) :
  Async.bind (act x) K a
  = K tt (Agent (messages a) (tools_world a) (log a ++ [x])).
Proof. reflexivity. Qed.

Lemma abind_user_onToolCall {B : Type} (toolCall : value)
  (K : unit -> Async.async (S := agent W) B) (a : agent W) :
  exists w,
    Async.bind (user_call (UserOnToolCall toolCall) options_onToolCall toolCall) K a
    = K tt (Agent (messages a) w
                  (log a ++ match options_onToolCall with
                            | Some _ => [UserOnToolCall toolCall]
                            | None => []
                            end)).
Proof.
  destruct (user_onToolCall_returns toolCall a) as (w & E).
  exists w. unfold Async.bind. rewrite E. reflexivity.
Qed.

(** One iteration of the loop of the non-streaming path: it completes, and
    a failure of the tool is in the log. *)
Lemma nonstreaming_toolCall_completes (toolCall : value) (a : agent W) :
  nullish toolCall = false ->
  always_settles executeTool ->
  exists w more,
    nonstreaming_toolCall hasTool executeTool options_onToolCall toolCall a
    = (Fulfilled tt,
       Agent (messages a) w
             (log a ++ LogToolCallInitiated (field toolCall "name")
                                            (field toolCall "arguments") :: more))
    /\ initiated more = []
    /\ (forall e,
           hasTool (field toolCall "name") = true ->
           always_rejects executeTool (field toolCall "name")
                          (field toolCall "arguments") e ->
           In (LogToolCallFailed (field toolCall "name")
                                 (field toolCall "arguments") e) more
           /\ In (ConsoleError e) more).
Proof.
  intros Hn Hsettles. unfold nonstreaming_toolCall.
  rewrite abind_get by assumption. rewrite abind_get by assumption.
  rewrite abind_act.
  match goal with
  | |- context [Async.bind (user_call _ _ ?x) ?K ?s] =>
      destruct (abind_user_onToolCall x K s) as (w1 & ->)
  end.
  cbn [messages log tools_world].
  rewrite abind_get by assumption.
  destruct (hasTool (field toolCall "name")) eqn:Hhas; cbn [Async.when].
  2: { unfold Async.ret. exists w1. eexists. split.
       - rewrite <- app_assoc. reflexivity.
       - split; [destruct options_onToolCall; reflexivity|].
         intros e H. discriminate. }
  unfold Async.try_catch.
  rewrite abind_get by assumption. rewrite abind_get by assumption.
  unfold Async.bind at 1, await_executeTool at 1.
  cbn [messages log tools_world].
  pose proof (Hsettles (field toolCall "name") (field toolCall "arguments") w1)
    as Hs.
  destruct (executeTool (field toolCall "name") (field toolCall "arguments") w1)
    as [[|result|e0] w2] eqn:Eexec; cbn [fst] in Hs.
  - contradiction.
  - rewrite abind_get by assumption. rewrite abind_get by assumption.
    unfold Async.bind at 1, Async.lift at 1.
    destruct (get_property result (js "result")) as [e1|payload].
    + rewrite abind_get by assumption. rewrite abind_get by assumption.
      rewrite abind_act. unfold act. cbn [messages log tools_world].
      exists w2. eexists. split; [rewrite <- !app_assoc; reflexivity|].
      split; [destruct options_onToolCall; reflexivity|].
      intros e _ Hrej. specialize (Hrej w1). rewrite Eexec in Hrej.
      discriminate.
    + unfold act. cbn [messages log tools_world].
      exists w2. eexists. split; [rewrite <- !app_assoc; reflexivity|].
      split; [destruct options_onToolCall; reflexivity|].
      intros e _ Hrej. specialize (Hrej w1). rewrite Eexec in Hrej.
      discriminate.
  - rewrite abind_get by assumption. rewrite abind_get by assumption.
    rewrite abind_act. unfold act. cbn [messages log tools_world].
    exists w2. eexists. split; [rewrite <- !app_assoc; reflexivity|].
    split; [destruct options_onToolCall; reflexivity|].
    intros e _ Hrej. specialize (Hrej w1). rewrite Eexec in Hrej.
    cbn in Hrej. injection Hrej as <-.
    split; apply in_or_app; right; cbn; auto.
Qed.

Lemma nonstreaming_loop_completes (toolCalls : list value) (a : agent W) :
  forallb (fun toolCall => negb (nullish toolCall)) toolCalls = true ->
  always_settles executeTool ->
  exists w logged,
    Async.for_each toolCalls
      (nonstreaming_toolCall hasTool executeTool options_onToolCall) a
    = (Fulfilled tt, Agent (messages a) w (log a ++ logged))
    /\ initiated logged = map call_signature toolCalls
    /\ (forall toolCall e,
           In toolCall toolCalls ->
           hasTool (field toolCall "name") = true ->
           always_rejects executeTool (field toolCall "name")
                          (field toolCall "arguments") e ->
           In (LogToolCallFailed (field toolCall "name")
                                 (field toolCall "arguments") e) logged
           /\ In (ConsoleError e) logged).
Proof.
  intros Hall Hsettles. revert a.
  induction toolCalls as [|toolCall rest IH]; intros a.
  - exists (tools_world a), []. rewrite app_nil_r. destruct a.
    split; [reflexivity|]. split; [reflexivity|]. intros tc e [].
  - cbn [forallb] in Hall. apply andb_prop in Hall as [Hn Hrest].
    apply negb_true_iff in Hn.
    destruct (nonstreaming_toolCall_completes toolCall a Hn Hsettles)
      as (w1 & more & E1 & Hinit & Hfail).
    cbn [Async.for_each]. unfold Async.bind at 1. rewrite E1.
    destruct (IH Hrest (Agent (messages a) w1
                (log a ++ LogToolCallInitiated (field toolCall "name")
                                               (field toolCall "arguments") :: more)))
      as (w2 & logged & E2 & Hinit2 & Hfail2).
    rewrite E2. cbn [messages log].
    exists w2, (LogToolCallInitiated (field toolCall "name")
                                     (field toolCall "arguments") :: more ++ logged).
    split; [rewrite <- app_assoc; reflexivity|]. split.
    + cbn [initiated map]. rewrite initiated_app, Hinit, Hinit2. reflexivity.
    + intros tc e [<-|Hin] Hhas Hrej.
      * destruct (Hfail e Hhas Hrej) as [H1 H2].
        split; right; apply in_or_app; left; assumption.
      * destruct (Hfail2 tc e Hin Hhas Hrej) as [H1 H2].
        split; right; apply in_or_app; right; assumption.
Qed.

Lemma abind_assoc {A B C : Type} (c : Async.async (S := agent W) A)
  (K1 : A -> Async.async B) (K2 : B -> Async.async C) (a : agent W) :
  Async.bind (Async.bind c K1) K2 a
  = Async.bind c (fun x => Async.bind (K1 x) K2) a.
Proof. unfold Async.bind. destruct (c a) as [[|x|e] a']; reflexivity. Qed.

Lemma abind_lift {A B : Type} (c : completion A) (x : A)
  (K : A -> Async.async (S := agent W) B) (a : agent W) :
  c = inr x -> Async.bind (Async.lift c) K a = K x a.
Proof. intros ->. reflexivity. Qed.

Lemma streaming_onToolCall_rejects (toolCall : value) (text : jsstring)
  (e : thrown) (a : agent W) :
  nullish toolCall = false ->
  to_string NumberToString (field toolCall "name") = inr text ->
  hasTool (field toolCall "name") = true ->
  always_rejects executeTool (field toolCall "name") (field toolCall "arguments") e ->
  exists w logged,
    streaming_onToolCall NumberToString hasTool executeTool
                         options_onToolCall toolCall a
    = (Rejected e, Agent (messages a) w (log a ++ logged))
    /\ In (LogToolCallFailed (field toolCall "name") (field toolCall "arguments") e)
          logged
    /\ In (ConsoleError e) logged.
Proof.
  intros Hn Htext Hhas Hrej. unfold streaming_onToolCall.
  rewrite abind_get by assumption.
  rewrite (abind_lift _ text) by assumption.
  rewrite abind_act.
  rewrite abind_get by assumption. rewrite abind_get by assumption.
  rewrite abind_act.
  match goal with
  | |- context [Async.bind (user_call _ _ ?x) ?K ?s] =>
      destruct (abind_user_onToolCall x K s) as (w1 & ->)
  end.
  cbn [messages log tools_world].
  rewrite abind_get by assumption. rewrite Hhas.
  unfold Async.try_catch.
  rewrite abind_get by assumption. rewrite abind_get by assumption.
  unfold Async.bind at 1, await_executeTool at 1.
  cbn [messages log tools_world].
  specialize (Hrej w1).
  destruct (executeTool (field toolCall "name") (field toolCall "arguments") w1)
    as [p w2]. cbn [fst] in Hrej. subst p.
  rewrite abind_get by assumption. rewrite abind_get by assumption.
  rewrite abind_act. rewrite abind_act. unfold Async.throw.
  cbn [messages log tools_world].
  exists w2. eexists. split; [rewrite <- !app_assoc; reflexivity|].
  split; apply in_or_app; right; apply in_or_app; right;
    apply in_or_app; right; cbn; auto.
Qed.

Hypothesis onComplete_returns : callback_returns options_onComplete.

Lemma abind_user_onComplete {B : Type} (result : parsed_response)
  (K : unit -> Async.async (S := agent W) B) (a : agent W) :
  exists w tail,
    Async.bind (user_call (UserOnComplete result) options_onComplete result) K a
    = K tt (Agent (messages a) w (log a ++ tail))
    /\ initiated tail = [].
Proof.
  unfold Async.bind, user_call. destruct options_onComplete as [f|] eqn:E.
  - pose proof (onComplete_returns f eq_refl result (tools_world a)) as H.
    destruct (f result (tools_world a)) as [c w]. cbn in H. subst c.
    exists w, [UserOnComplete result]. split; reflexivity.
  - exists (tools_world a), []. rewrite app_nil_r. destruct a.
    split; reflexivity.
Qed.

Lemma handleNonStreamingResponse_completes (data : value)
  (parseResponse : value -> completion parsed_response)
  (result : parsed_response) (a : agent W) :
  parseResponse data = inr result ->
  forallb (fun toolCall => negb (nullish toolCall)) (calls_of result) = true ->
  always_settles executeTool ->
  exists a',
    handleNonStreamingResponse hasTool executeTool options_onToolCall
      options_onComplete (Fulfilled data) parseResponse a
    = (Fulfilled result, a')
    /\ initiated (log a')
       = initiated (log a) ++ map call_signature (calls_of result)
    /\ (forall toolCall e,
           In toolCall (calls_of result) ->
           hasTool (field toolCall "name") = true ->
           always_rejects executeTool (field toolCall "name")
                          (field toolCall "arguments") e ->
           In (LogToolCallFailed (field toolCall "name")
                                 (field toolCall "arguments") e) (log a')
           /\ In (ConsoleError e) (log a')).
Proof.
  intros Hparse Hall Hsettles. unfold handleNonStreamingResponse.
  rewrite abind_act. unfold Async.bind at 1.
  unfold Async.bind at 1, Async.lift at 1. rewrite Hparse.
  rewrite abind_act.
  set (a1 := Agent _ _ _).
  assert (Hpush : exists msgs,
             forall (K : unit -> Async.async parsed_response),
               Async.bind
                 (Async.when (truthy (pr_content result))
                    (messages_push
                       (VObject [(js "role", VString (js "assistant"));
                                 (js "content", pr_content result)]))) K a1
               = K tt (Agent msgs (tools_world a) (log a1))).
  { destruct (truthy (pr_content result)); eexists; intros K; reflexivity. }
  destruct Hpush as (msgs & ->). subst a1. cbn [log].
  rewrite abind_act.
  set (a2 := Agent _ _ _).
  assert (Hloop : exists w logged,
             (forall (K : unit -> Async.async parsed_response),
               Async.bind
                 match pr_toolCalls result with
                 | Some (first :: others) =>
                     Async.bind (act (SetAction (js "Processing tool calls")))
                       (fun _ => Async.for_each (first :: others)
                          (nonstreaming_toolCall hasTool executeTool
                                                 options_onToolCall))
                 | _ => Async.ret tt
                 end K a2
               = K tt (Agent msgs w (log a2 ++ logged)))
             /\ initiated logged = map call_signature (calls_of result)
             /\ (forall toolCall e,
                    In toolCall (calls_of result) ->
                    hasTool (field toolCall "name") = true ->
                    always_rejects executeTool (field toolCall "name")
                                   (field toolCall "arguments") e ->
                    In (LogToolCallFailed (field toolCall "name")
                                          (field toolCall "arguments") e) logged
                    /\ In (ConsoleError e) logged)).
  { unfold calls_of in *.
    destruct (pr_toolCalls result) as [[|first others]|].
    - exists (tools_world a), []. split; [|split; [reflexivity|intros tc e []]].
      intros K. rewrite app_nil_r. reflexivity.
    - destruct (nonstreaming_loop_completes (first :: others)
                  (Agent msgs (tools_world a)
                         (log a2 ++ [SetAction (js "Processing tool calls")]))
                  Hall Hsettles) as (w & logged & E & Hinit & Hfail).
      exists w, (SetAction (js "Processing tool calls") :: logged).
      split; [|split].
      + intros K. rewrite abind_assoc, abind_act.
        unfold Async.bind at 1. subst a2. cbn [messages tools_world log] in *.
        rewrite E. rewrite <- !app_assoc. reflexivity.
      + exact Hinit.
      + intros tc e Hin Hhas Hrej. destruct (Hfail tc e Hin Hhas Hrej).
        split; right; assumption.
    - exists (tools_world a), []. split; [|split; [reflexivity|intros tc e []]].
      intros K. rewrite app_nil_r. reflexivity. }
  destruct Hloop as (w & logged & -> & Hinit & Hfail). subst a2. cbn [log].
  rewrite abind_act, abind_act. cbn [messages tools_world log].
  match goal with
  | |- context [Async.bind (user_call _ _ ?x) ?K ?s] =>
      destruct (abind_user_onComplete x K s) as (w' & tail & -> & Htail)
  end.
  unfold Async.ret. eexists. split; [reflexivity|]. cbn [log]. split.
  - rewrite !initiated_app. cbn [initiated]. rewrite Hinit, Htail.
    rewrite !app_nil_r. reflexivity.
  - intros tc e Hin Hhas Hrej. destruct (Hfail tc e Hin Hhas Hrej) as [H1 H2].
    split; apply in_or_app; left; apply in_or_app; left; apply in_or_app; left;
      apply in_or_app; right; assumption.
Qed.

End DispatchFacts.

(** C8. An error thrown by [executeTool] is thrown again by the
    [onToolCall] closure of the streaming path, after it is logged: the
    promise of the closure is rejected with it.  On the non-streaming path
    the same error is caught and only logged: [handleNonStreamingResponse]
    goes on to the remaining tool calls, every one of which is initiated,
    and completes with the parsed result.  (The caller's own callbacks are
    taken to return, and the tool calls to be objects.) *)
Theorem tool_failure_on_both_paths
  (NumberToString : Z -> Z -> jsstring) {W : Type}
  (hasTool : value -> bool)
  (executeTool : value -> value -> W -> promise value * W)
  (options_onToolCall : option (value -> W -> completion unit * W))
  (options_onComplete : option (parsed_response -> W -> completion unit * W)) :
  callback_returns options_onToolCall ->
  callback_returns options_onComplete ->
  (forall toolCall text e a,
      nullish toolCall = false ->
      to_string NumberToString (field toolCall "name") = inr text ->
      hasTool (field toolCall "name") = true ->
      always_rejects executeTool (field toolCall "name")
                     (field toolCall "arguments") e ->
      let run := streaming_onToolCall NumberToString hasTool executeTool
                                      options_onToolCall toolCall a in
      fst run = Rejected e
      /\ In (LogToolCallFailed (field toolCall "name")
                               (field toolCall "arguments") e) (log (snd run)))
  /\
  (forall data parseResponse result a,
      parseResponse data = inr result ->
      forallb (fun toolCall => negb (nullish toolCall)) (calls_of result) = true ->
      always_settles executeTool ->
      let run := handleNonStreamingResponse hasTool executeTool
                   options_onToolCall options_onComplete
                   (Fulfilled data) parseResponse a in
      fst run = Fulfilled result
      /\ initiated (log (snd run))
         = initiated (log a) ++ map call_signature (calls_of result)
      /\ (forall toolCall e,
             In toolCall (calls_of result) ->
             hasTool (field toolCall "name") = true ->
             always_rejects executeTool (field toolCall "name")
                            (field toolCall "arguments") e ->
             In (LogToolCallFailed (field toolCall "name")
                                   (field toolCall "arguments") e) (log (snd run))
             /\ In (ConsoleError e) (log (snd run)))).
Proof.
  intros Hcall Hcomplete. split.
  - intros toolCall text e a Hn Htext Hhas Hrej run.
    destruct (streaming_onToolCall_rejects NumberToString W hasTool executeTool
                options_onToolCall Hcall toolCall text e a Hn Htext Hhas Hrej)
      as (w & logged & E & Hin & _).
    subst run. rewrite E. cbn [fst snd log]. split; [reflexivity|].
    apply in_or_app. right. assumption.
  - intros data parseResponse result a Hparse Hall Hsettles run.
    destruct (handleNonStreamingResponse_completes W hasTool executeTool
                options_onToolCall options_onComplete Hcall Hcomplete
                data parseResponse result a Hparse Hall Hsettles)
      as (a' & E & Hinit & Hfail).
    subst run. rewrite E. cbn [fst snd]. split; [reflexivity|].
    split; assumption.
Qed.

Lemma tool_failure_on_both_paths_witness :
  callback_returns (W := unit) (A := value) None
  /\ callback_returns (W := unit) (A := parsed_response) None
  /\ always_rejects failing_tool (field search_call "name")
                    (field search_call "arguments") tool_failure
  /\ always_settles failing_tool
  /\ fst (streaming_onToolCall number_unprinted (fun _ => true) failing_tool None
            search_call (Agent [] tt []))
     = Rejected tool_failure
  /\ handleNonStreamingResponse (fun _ => true) failing_tool None None
       (Fulfilled VNull) (fun _ => inr two_calls_response) (Agent [] tt [])
     = (Fulfilled two_calls_response,
        Agent [VObject [(js "role", VString (js "assistant"));
                        (js "content", VString (js "Hi"))]]
              tt
              [SetAction (js "Parsing response"); LogApiResponse;
               LogAssistantMessageCompleted (VString (js "Hi"))
                                            (VString (js "tool_calls"));
               SetAction (js "Processing tool calls");
               LogToolCallInitiated (VString (js "search")) (VString (js "{}"));
               LogToolCallFailed (VString (js "search")) (VString (js "{}"))
                                 tool_failure;
               ConsoleError tool_failure;
               LogToolCallInitiated (VString (js "fetch")) (VString (js "{}"));
               LogToolCallFailed (VString (js "fetch")) (VString (js "{}"))
                                 tool_failure;
               ConsoleError tool_failure;
               UpdateTaskCompleted (VString (js "Hi")); StopThinking])
  /\ fst (handleNonStreamingResponse (fun _ => true) failing_tool None None
            (Fulfilled VNull) (fun _ => inr two_calls_response) (Agent [] tt []))
     = Fulfilled two_calls_response.
Proof.
  assert (H1 : callback_returns (W := unit) (A := value) None)
    by (intros f H; discriminate).
  assert (H2 : callback_returns (W := unit) (A := parsed_response) None)
    by (intros f H; discriminate).
  assert (H3 : always_rejects failing_tool (field search_call "name")
                 (field search_call "arguments") tool_failure)
    by (intros w; reflexivity).
  assert (H4 : always_settles failing_tool) by (intros n x w; discriminate).
  split; [exact H1|]. split; [exact H2|]. split; [exact H3|]. split; [exact H4|].
  pose proof (tool_failure_on_both_paths number_unprinted (fun _ => true)
                failing_tool None None H1 H2) as [Hstreaming Hnonstreaming].
  split; [|split; [reflexivity|]].
  - exact (proj1 (Hstreaming search_call (js "search") tool_failure
                    (Agent [] tt []) eq_refl eq_refl eq_refl H3)).
  - exact (proj1 (Hnonstreaming VNull (fun _ => inr two_calls_response)
                    two_calls_response (Agent [] tt []) eq_refl eq_refl H4)).
Defined.

(* ================================================================== *)
(* ================================================================== *)
(** * Further properties of the code *)
(* ================================================================== *)
(* ================================================================== *)

(* ================================================================== *)
(** ** Further facts on lines and buffers *)
(* ================================================================== *)

Lemma lines_text_cons (l : jsstring) (ls : list jsstring) :
  lines_text (l :: ls) = l ++ LF :: lines_text ls.
Proof.
  unfold lines_text. cbn [map List.concat]. rewrite <- app_assoc. reflexivity.
Qed.

(** The complete lines, each with its newline, and the unfinished line make
    up the text. *)
Lemma lines_join (s : jsstring) :
  lines_text (complete_lines s) ++ remainder s = s.
Proof.
  induction s as [|c s IH]; [reflexivity|].
  rewrite complete_lines_cons, remainder_cons.
  destruct (N.eqb c LF) eqn:Ec.
  - apply N.eqb_eq in Ec. subst c. rewrite lines_text_cons. cbn [app].
    rewrite IH. reflexivity.
  - destruct (complete_lines s) as [|l ls].
    + cbn [app] in *. change (lines_text []) with (@nil code_unit) in *.
      cbn [app] in *. rewrite IH. reflexivity.
    + rewrite lines_text_cons in *. cbn [app]. rewrite <- app_assoc in *.
      cbn [app] in *. rewrite IH. reflexivity.
Qed.

Lemma no_newline_app (a b : jsstring) :
  no_newline (a ++ b) = no_newline a && no_newline b.
Proof. apply forallb_app. Qed.

Lemma remainder_no_newline (s : jsstring) : no_newline (remainder s) = true.
Proof.
  induction s as [|c s IH]; [reflexivity|].
  rewrite remainder_cons. destruct (N.eqb c LF) eqn:Ec; [exact IH|].
  destruct (complete_lines s); [|exact IH].
  cbn. rewrite Ec. exact IH.
Qed.

Lemma no_newline_lines (s : jsstring) :
  no_newline s = true -> complete_lines s = [] /\ remainder s = s.
Proof.
  induction s as [|c s IH]; intros H; [split; reflexivity|].
  cbn in H. apply andb_prop in H as [Hc Hs].
  apply negb_true_iff in Hc. destruct (IH Hs) as [Hl Hr].
  rewrite complete_lines_cons, remainder_cons, Hc, Hl, Hr.
  split; reflexivity.
Qed.

Lemma lines_text_end (lines : list jsstring) :
  lines_text lines = [] \/ exists text, lines_text lines = text ++ [LF].
Proof.
  induction lines as [|l lines IH]; [left; reflexivity|].
  right. rewrite lines_text_cons.
  destruct IH as [->|(text & ->)].
  - exists l. reflexivity.
  - exists (l ++ LF :: text). rewrite <- app_assoc. reflexivity.
Qed.

(** X1. A decode pass, whatever the provider tag, leaves in the buffer
    exactly the text after the last newline of the buffer it was given: the
    new buffer holds no newline, what was consumed is empty or ends with a
    newline, and the streaming flag is untouched. *)
Theorem buffer_keeps_unfinished_line
  (JSON_parse : jsstring -> completion value) (provider : jsstring)
  (this : handler) :
  let this' := snd (processBuffer JSON_parse provider this) in
  no_newline (getBuffer this') = true
  /\ isCurrentlyStreaming this' = isCurrentlyStreaming this
  /\ exists consumed,
       getBuffer this = consumed ++ getBuffer this'
       /\ (consumed = [] \/ exists text, consumed = text ++ [LF]).
Proof.
  rewrite processBuffer_spec. cbn.
  split; [apply remainder_no_newline|]. split; [reflexivity|].
  exists (lines_text (complete_lines (buffer this))).
  split; [symmetry; apply lines_join|apply lines_text_end].
Qed.

(** X2. A second decode pass right after a first one returns no event
    and changes nothing: the unfinished line waits in the buffer for more
    text. *)
Theorem second_pass_emits_nothing
  (JSON_parse : jsstring -> completion value) (provider : jsstring)
  (this : handler) :
  let this' := snd (processBuffer JSON_parse provider this) in
  processBuffer JSON_parse provider this' = (inr [], this').
Proof.
  cbv zeta. rewrite (processBuffer_spec JSON_parse provider this). cbn [snd].
  rewrite processBuffer_spec. unfold set_buffer, buffer_events.
  cbn [buffer isStreaming].
  destruct (no_newline_lines _ (remainder_no_newline (buffer this))) as [-> ->].
  reflexivity.
Qed.

(* ================================================================== *)
(** ** The typed-SSE decoder and line terminators *)
(* ================================================================== *)

Lemma startsWith_split (s p : jsstring) :
  startsWith s p = true -> s = p ++ skipn (List.length p) s.
Proof.
  revert s. induction p as [|x p IH]; intros s H; [reflexivity|].
  destruct s as [|y s]; [discriminate|]. cbn in H.
  apply andb_prop in H as [Hx Hs]. apply N.eqb_eq in Hx. subst y.
  cbn. rewrite <- (IH s Hs). reflexivity.
Qed.

Lemma existsb_forallb_negb {A : Type} (f : A -> bool) (l : list A) :
  existsb f l = true -> forallb (fun x => negb (f x)) l = false.
Proof.
  induction l as [|x l IH]; cbn; [discriminate|].
  destruct (f x); cbn; [reflexivity|exact IH].
Qed.

Lemma match_prefix_rest_terminator (l : jsstring) :
  existsb is_line_terminator l = true ->
  match_prefix_rest (js "data: ") l = None.
Proof.
  intros H. unfold match_prefix_rest.
  destruct (startsWith l (js "data: ")) eqn:Hp; [|reflexivity].
  apply startsWith_split in Hp. rewrite Hp in H.
  rewrite existsb_app in H.
  change (existsb is_line_terminator (js "data: ")) with false in H.
  cbn [orb] in H. apply existsb_forallb_negb in H. rewrite H.
  rewrite andb_false_r. reflexivity.
Qed.

Lemma anthropic_line_terminator (JSON_parse : jsstring -> completion value)
  (l : jsstring) (processed : list value) :
  existsb is_line_terminator l = true ->
  anthropic_line JSON_parse l processed = (inr tt, processed).
Proof.
  intros H. unfold anthropic_line.
  rewrite (match_prefix_rest_terminator l H).
  destruct (is_empty (trim l)); [reflexivity|].
  destruct (_ || _); reflexivity.
Qed.

(** X3. The typed-SSE decoder drops every line that holds a line
    terminator (a carriage return, U+2028 or U+2029), since the regular
    expression [/^data: (.+)$/] does not match it: a buffer whose complete
    lines all hold one, as the lines of a stream framed by CR LF do,
    decodes to no event. *)
Theorem anthropic_drops_lines_with_terminator
  (JSON_parse : jsstring -> completion value) (text : jsstring)
  (streaming : bool) :
  Forall (fun l => existsb is_line_terminator l = true) (complete_lines text) ->
  processBuffer JSON_parse (js "anthropic") (Handler text streaming)
  = (inr [], Handler (remainder text) streaming).
Proof.
  intros H. rewrite processBuffer_spec. unfold set_buffer. cbn [buffer isStreaming].
  f_equal. f_equal. unfold buffer_events.
  change (decoder_line JSON_parse (js "anthropic")) with (anthropic_line JSON_parse).
  induction H as [|l ls Hl _ IH]; [reflexivity|].
  cbn [flat_map]. rewrite IH, app_nil_r. unfold line_events.
  rewrite anthropic_line_terminator by assumption. reflexivity.
Qed.

Lemma anthropic_drops_lines_with_terminator_witness :
  Forall (fun l => existsb is_line_terminator l = true) (complete_lines crlf_line)
  /\ processBuffer JSON.parse (js "anthropic") (Handler crlf_line true)
     = (inr [], Handler (remainder crlf_line) true)
  /\ processBuffer JSON.parse (js "anthropic")
       (Handler (line "data: {'type':'content_block_delta','delta':{'text':'Hi'}}") true)
     = (inr [ev_token (VString (js "Hi"))], Handler [] true).
Proof.
  assert (H : Forall (fun l => existsb is_line_terminator l = true)
                     (complete_lines crlf_line)).
  { repeat constructor. }
  split; [exact H|]. split; [|reflexivity].
  exact (anthropic_drops_lines_with_terminator JSON.parse crlf_line true H).
Defined.

(* ================================================================== *)
(** ** The payload of the events *)
(* ================================================================== *)

(** A member read through [?.] and found truthy reads the same through
    [.]. *)
Lemma reread_optional (v : value) (k : string) (x y : value) :
  get_optional v (js k) = inr x -> truthy x = true ->
  get_property v (js k) = inr y -> truthy y = true.
Proof.
  intros Hx Ht Hy. rewrite get_optional_field in Hx.
  apply get_property_inr_field in Hy. congruence.
Qed.

Ltac same_reads :=
  repeat match goal with
         | H : ?c = inr ?x, H' : ?c = inr ?y |- _ =>
             assert (y = x) by congruence; subst y; clear H'
         end.

Ltac payload_tac :=
  repeat first
    [ apply emits_ret | apply emits_lift | apply emits_try_skip
    | apply emits_for_of; intros ?
    | apply emits_for_each; intros ?
    | apply emits_bind_lift; intros ? ?
    | apply emits_when_true; intros ?
    | apply emits_for_of; intros ?
    | apply emits_bind; [|intros ?]
    | apply emits_if
    | apply emits_push;
      first [ reflexivity
            | same_reads; assumption
            | same_reads; eapply reread_optional; eassumption ] ].

Section Payload.

Variable JSON_parse : jsstring -> completion value.

Local Abbreviation P := (fun item => carries_payload item = true).

Lemma openai_line_payload (l : jsstring) : emits P (openai_line JSON_parse l).
Proof. unfold openai_line, openai_data. payload_tac. Qed.

Lemma anthropic_line_payload (l : jsstring) : emits P (anthropic_line JSON_parse l).
Proof.
  unfold anthropic_line, anthropic_data. payload_tac.
  destruct (match_prefix_rest (js "data: ") l); payload_tac.
Qed.

Lemma gemini_line_payload (l : jsstring) : emits P (gemini_line JSON_parse l).
Proof. unfold gemini_line, gemini_data. payload_tac. Qed.

Lemma buffer_events_payload (provider text : jsstring) :
  Forall P (buffer_events JSON_parse provider text).
Proof.
  unfold buffer_events. apply Forall_flat_map, Forall_forall. intros l _.
  apply emits_line_events. unfold decoder_line.
  destruct (_ || _); [apply openai_line_payload|].
  destruct (JsString.eqb provider (js "anthropic")); [apply anthropic_line_payload|].
  destruct (JsString.eqb provider (js "gemini"));
    [apply gemini_line_payload|apply openai_line_payload].
Qed.

End Payload.

(* ================================================================== *)
(** ** What the loop body does to the session *)
(* ================================================================== *)

Ltac nothing_made :=
  exists []; rewrite app_nil_r; split; [reflexivity|];
  left; repeat split; reflexivity.

Section ItemEffect.

Variable formatThinkingContent : value -> value.
Variable NumberToString : Z -> Z -> jsstring.
Variable W : Type.
Variable cbs : callbacks W.

Local Abbreviation handle := (handle_item formatThinkingContent NumberToString cbs).

(** One item makes at most one call; a token extends [fullContent] by the
    text of the value handed to [onToken], a tool call extends [toolCalls]
    by the value handed to [onToolCall]. *)
Lemma handle_item_effect (item : value) (s : session W) :
  let s' := snd (handle item s) in
  exists made,
    calls s' = calls s ++ made /\
    ((made = [] /\ fullContent s' = fullContent s /\ toolCalls s' = toolCalls s)
     \/ (exists text,
           has_type "token" item = true
           /\ to_string NumberToString (field item "content") = inr text
           /\ made = [OnToken (field item "content")]
           /\ fullContent s' = fullContent s ++ text
           /\ toolCalls s' = toolCalls s)
     \/ (exists v,
           made = [OnThinking v]
           /\ fullContent s' = fullContent s /\ toolCalls s' = toolCalls s)
     \/ (has_type "tool_call" item = true
         /\ made = [OnToolCall (field item "data")]
         /\ fullContent s' = fullContent s
         /\ toolCalls s' = toolCalls s ++ [field item "data"])).
Proof.
  cbv zeta.
  unfold handle_item, bind, lift, ret, throw, invoke, append_fullContent,
    append_thinkingContent, push_toolCall.
  destruct (get_property item (js "type")) as [e|ty] eqn:Ety; cbn [fst snd];
    [nothing_made|].
  assert (Hty : forall name, is_string ty (js name) = has_type name item).
  { intros name. unfold has_type, event_type. rewrite Ety. reflexivity. }
  destruct (is_string ty (js "token")) eqn:Etoken.
  { rewrite Hty in Etoken.
    destruct (get_property item (js "content")) as [e|c] eqn:Ec; cbn [fst snd];
      [nothing_made|].
    apply get_property_inr_field in Ec. subst c.
    destruct (to_string NumberToString (field item "content")) as [e|text] eqn:Et;
      cbn [fst snd]; [nothing_made|].
    cbn. eexists. split; [reflexivity|].
    right. left. exists text. auto. }
  destruct (is_string ty (js "thinking")).
  { destruct (get_property item (js "content")) as [e|c]; cbn [fst snd];
      [nothing_made|].
    destruct (to_string NumberToString c) as [e|text]; cbn [fst snd];
      [nothing_made|].
    cbn. eexists. split; [reflexivity|].
    right. right. left. eexists. auto. }
  destruct (is_string ty (js "tool_call")) eqn:Etool.
  { rewrite Hty in Etool.
    destruct (get_property item (js "data")) as [e|d] eqn:Ed; cbn [fst snd];
      [nothing_made|].
    apply get_property_inr_field in Ed. subst d.
    cbn. eexists. split; [reflexivity|].
    right. right. right. auto. }
  destruct (is_string ty (js "error")); [|nothing_made].
  destruct (get_property item (js "data")) as [e|d]; nothing_made.
Qed.

End ItemEffect.

(** X4. Every token event a decode pass returns carries a truthy
    [content] and every finish event a truthy [reason], whatever the
    provider tag; hence [handleStream] never calls [onToken] with an empty
    string or another falsy value. *)
Theorem events_carry_payload
  (JSON_parse : jsstring -> completion value)
  (formatThinkingContent : value -> value) (NumberToString : Z -> Z -> jsstring)
  {W : Type} (cbs : callbacks W) (provider : jsstring) :
  (forall this, exists processed this',
      processBuffer JSON_parse provider this = (inr processed, this')
      /\ forallb carries_payload processed = true)
  /\
  (forall resp w,
      forallb token_is_truthy
        (calls (snd (handleStream JSON_parse formatThinkingContent NumberToString
                                  cbs provider resp w))) = true).
Proof.
  split.
  - intros this. rewrite processBuffer_spec. do 2 eexists. split; [reflexivity|].
    apply forallb_forall. apply Forall_forall. apply buffer_events_payload.
  - intros resp w.
    set (Q := fun c : call => token_is_truthy c = true).
    assert (H : calls_extended Q (initial_session w)
                  (snd (handleStream JSON_parse formatThinkingContent
                                     NumberToString cbs provider resp w))).
    { apply (handleStream_preserves JSON_parse formatThinkingContent
               NumberToString W cbs provider (calls_extended Q) (fun _ => True)).
      - apply calls_extended_refl.
      - apply calls_extended_trans.
      - apply calls_extended_with_this.
      - intros r s. split; [|trivial]. apply calls_extended_invoke. reflexivity.
      - intros e s. apply calls_extended_invoke. reflexivity.
      - intros text item Hin s. split; [|trivial].
        pose proof (proj1 (Forall_forall _ _)
                      (buffer_events_payload JSON_parse provider text) item Hin)
          as Hp.
        destruct (handle_item_effect formatThinkingContent NumberToString W cbs
                    item s) as (made & Hm & Hcases).
        exists made. split; [exact Hm|].
        destruct Hcases
          as [(-> & _)|[(text0 & Htok & _ & -> & _)|[(v & -> & _)|(_ & -> & _)]]];
          repeat constructor.
        unfold Q, token_is_truthy. unfold carries_payload in Hp.
        rewrite Htok in Hp. exact Hp.
      - destruct resp as [e|reads]; cbn; [trivial|].
        induction reads; cbn; trivial. }
    destruct H as (made & Hm & Hall). cbn in Hm. rewrite Hm.
    apply forallb_forall. apply Forall_forall. exact Hall.
Qed.

(* ================================================================== *)
(** ** The tool calls of the typed-SSE decoder *)
(* ================================================================== *)

(** X5. Every tool_call event of the typed-SSE decoder carries an object
    with the three members [id], [name] and [input], and no member
    [arguments]. *)
Theorem anthropic_tool_call_shape (JSON_parse : jsstring -> completion value)
  (this : handler) :
  exists processed this',
    processBuffer JSON_parse (js "anthropic") this = (inr processed, this')
    /\ Forall (fun item =>
                 has_type "tool_call" item = true ->
                 exists id name input,
                   item = ev_tool_call (VObject [(js "id", id);
                                                 (js "name", name);
                                                 (js "input", input)])
                   /\ has_own "arguments" (field item "data") = false)
              processed.
Proof.
  rewrite processBuffer_spec. do 2 eexists. split; [reflexivity|].
  unfold buffer_events. apply Forall_flat_map, Forall_forall. intros l _.
  apply emits_line_events.
  change (decoder_line JSON_parse (js "anthropic")) with (anthropic_line JSON_parse).
  apply anthropic_line_emits; try discriminate.
  intros id name input _. exists id, name, input. split; reflexivity.
Qed.

(* ================================================================== *)
(** ** The decode rules of the typed-SSE and of the Gemini decoder *)
(* ================================================================== *)

Section MoreStepping.

Context {S B : Type}.

Lemma bind_ret {A : Type} (x : A) (K : A -> @m S B) (st : S) :
  bind (ret x) K st = K x st.
Proof. reflexivity. Qed.

End MoreStepping.

Lemma bind_push {B : Type} (item : value) (K : unit -> dec B) (st : list value) :
  bind (push item) K st = K tt (st ++ [item]).
Proof. reflexivity. Qed.

Lemma is_string_field_nullish (v : value) (k : string) (lit : jsstring) :
  nullish v = true -> is_string (field v k) lit = false.
Proof. intros H. rewrite (field_of_nullish v k H). reflexivity. Qed.

Lemma is_string_not_nullish (v : value) (lit : jsstring) :
  is_string v lit = true -> nullish v = false.
Proof. destruct v; cbn; congruence. Qed.

Lemma field_not_nullish (v : value) (k : string) :
  nullish (field v k) = false -> nullish v = false.
Proof.
  intros H. destruct (nullish v) eqn:E; [|reflexivity].
  rewrite (field_of_nullish v k E) in H. discriminate.
Qed.

Ltac dec_step :=
  first [ rewrite bind_assoc
        | rewrite bind_get by assumption
        | rewrite bind_get_optional
        | rewrite bind_ret
        | rewrite bind_push ].

Section TypedSse.

Variable JSON_parse : jsstring -> completion value.

Lemma anthropic_data_events (data : value) (st : list value) :
  snd (anthropic_data data st)
  = st ++ typed_sse_token data ++ typed_sse_tool_call data ++ typed_sse_finish data.
Proof.
  unfold anthropic_data, typed_sse_token, typed_sse_tool_call, typed_sse_finish.
  cbv zeta.
  destruct (nullish data) eqn:Hd.
  { rewrite bind_get_nullish by assumption.
    rewrite !(is_string_field_nullish data "type") by assumption.
    cbn. rewrite app_nil_r. reflexivity. }
  destruct (is_string (field data "type") (js "content_block_delta")) eqn:H1.
  all: destruct (is_string (field data "type") (js "content_block_start")) eqn:H2.
  all: destruct (is_string (field data "type") (js "message_stop")) eqn:H3.
  all: destruct (truthy (field (field data "delta") "text")) eqn:H4.
  all: destruct (is_string (field (field data "content_block") "type")
                           (js "tool_use")) eqn:H5.
  all: try pose proof (truthy_field_not_nullish _ _ H4) as Hdelta.
  all: try pose proof (is_string_not_nullish _ _ H5) as Htype.
  all: try pose proof (field_not_nullish _ _ Htype) as Hblock.
  all: repeat first [ dec_step | rewrite H1 | rewrite H2 | rewrite H3
                    | rewrite H4 | rewrite H5 | progress cbn [when andb] ].
  all: cbn [ret push snd app]; rewrite <- ?app_assoc, ?app_nil_r; reflexivity.
Qed.

End TypedSse.

Lemma drop_space_last (x : jsstring) (c : code_unit) :
  is_trim_space c = false -> drop_space (x ++ [c]) <> [].
Proof.
  intros Hc. induction x as [|y x IH]; cbn.
  - rewrite Hc. discriminate.
  - destruct (is_trim_space y); [exact IH|discriminate].
Qed.

(** A line that starts with a code unit that is not white space is not
    blank. *)
Lemma trim_not_blank (c : code_unit) (rest : jsstring) :
  is_trim_space c = false -> is_empty (trim (c :: rest)) = false.
Proof.
  intros Hc. unfold trim. cbn [drop_space]. rewrite Hc. cbn [rev].
  pose proof (drop_space_last (rev rest) c Hc) as H.
  destruct (drop_space (rev rest ++ [c])) as [|y ys]; [contradiction|].
  cbn [rev]. destruct (rev ys); reflexivity.
Qed.

Lemma data_line_not_blank (l : jsstring) :
  startsWith l (js "data: ") = true -> is_empty (trim l) = false.
Proof.
  intros H. apply startsWith_split in H. rewrite H.
  change (js "data: " ++ skipn (List.length (js "data: ")) l)
    with (100%N :: (js "ata: " ++ skipn (List.length (js "data: ")) l)).
  apply trim_not_blank. reflexivity.
Qed.

Lemma is_string_unique (v : value) (a b : jsstring) :
  is_string v a = true -> is_string v b = true -> a = b.
Proof.
  destruct v; cbn; try discriminate. intros Ha Hb.
  apply eqb_eq in Ha, Hb. congruence.
Qed.

(** X6. The decode rule of the typed-SSE decoder.  For a line that
    matches [/^data: (.+)$/] and whose group parses to [data], the events
    are: a token with [data.delta.text] when [data.type] is
    'content_block_delta' and the text is truthy; a tool call with the
    [id], [name] and [input] of [data.content_block] when [data.type] is
    'content_block_start' and the block's type is 'tool_use'; a finish
    event with the reason 'stop' when [data.type] is 'message_stop'.  A
    line yields at most one event. *)
Theorem typed_sse_decode_rule (JSON_parse : jsstring -> completion value)
  (l text : jsstring) (data : value) :
  match_prefix_rest (js "data: ") l = Some text ->
  JSON_parse text = inr data ->
  line_events (anthropic_line JSON_parse) l
  = typed_sse_token data ++ typed_sse_tool_call data ++ typed_sse_finish data
  /\ List.length (line_events (anthropic_line JSON_parse) l) <= 1.
Proof.
  intros Hmatch Hparse.
  assert (Hprefix : startsWith l (js "data: ") = true).
  { unfold match_prefix_rest in Hmatch.
    destruct (startsWith l (js "data: ")); [reflexivity|discriminate]. }
  assert (E : line_events (anthropic_line JSON_parse) l
              = typed_sse_token data ++ typed_sse_tool_call data
                  ++ typed_sse_finish data).
  { unfold line_events, anthropic_line.
    rewrite (data_line_not_blank l Hprefix), Hprefix, orb_true_r, Hmatch.
    unfold try_skip, bind at 1, lift at 1. rewrite Hparse. cbn [snd].
    rewrite anthropic_data_events. reflexivity. }
  split; [exact E|]. rewrite E.
  unfold typed_sse_token, typed_sse_tool_call, typed_sse_finish. cbv zeta.
  destruct (is_string (field data "type") (js "content_block_delta")) eqn:H1;
    destruct (is_string (field data "type") (js "content_block_start")) eqn:H2;
    destruct (is_string (field data "type") (js "message_stop")) eqn:H3;
    try (pose proof (is_string_unique _ _ _ H1 H2) as Hx; discriminate Hx);
    try (pose proof (is_string_unique _ _ _ H1 H3) as Hx; discriminate Hx);
    try (pose proof (is_string_unique _ _ _ H2 H3) as Hx; discriminate Hx);
    cbn [andb];
    repeat match goal with
           | |- context [if ?b then _ else _] => destruct b
           end; cbn; lia.
Qed.

Lemma typed_sse_decode_rule_witness :
  match_prefix_rest (js "data: ")
    (payload "data: {'type':'content_block_delta','delta':{'text':'Hi'}}")
  = Some (payload "{'type':'content_block_delta','delta':{'text':'Hi'}}")
  /\ JSON.parse (payload "{'type':'content_block_delta','delta':{'text':'Hi'}}")
     = inr (VObject [(js "type", VString (js "content_block_delta"));
                     (js "delta", VObject [(js "text", VString (js "Hi"))])])
  /\ line_events (anthropic_line JSON.parse)
       (payload "data: {'type':'content_block_delta','delta':{'text':'Hi'}}")
     = [ev_token (VString (js "Hi"))].
Proof.
  split; [reflexivity|]. split; [reflexivity|].
  exact (proj1 (typed_sse_decode_rule JSON.parse
                  (payload "data: {'type':'content_block_delta','delta':{'text':'Hi'}}")
                  _ _ eq_refl eq_refl)).
Defined.

(** The fields the Gemini decoder reads are [undefined] on a falsy
    value. *)
Lemma falsy_candidate (v : value) :
  truthy v = false ->
  field v "0" = VUndefined /\ field v "content" = VUndefined
  /\ field v "finishReason" = VUndefined.
Proof.
  destruct v as [| |b|m e|s|items|props]; cbn; intros H; try discriminate;
    try (repeat split; reflexivity).
  destruct s; [repeat split; reflexivity|discriminate].
Qed.

Section Gemini.

Variable JSON_parse : jsstring -> completion value.

(** The loop over the parts, none of them [null]. *)
Lemma gemini_parts_loop (entries : list value) (st : list value) :
  forallb (fun part => negb (nullish part)) entries = true ->
  for_each entries
    (fun part =>
       bind (lift (get_property part (js "text"))) (fun text =>
       bind (when (truthy text)
               (bind (lift (get_property part (js "text"))) (fun t =>
                push (ev_token t)))) (fun _ =>
       bind (lift (get_property part (js "functionCall"))) (fun functionCall =>
       when (truthy functionCall)
         (bind (lift (get_property part (js "functionCall"))) (fun f1 =>
          bind (lift (get_property f1 (js "name"))) (fun name =>
          bind (lift (get_property part (js "functionCall"))) (fun f2 =>
          bind (lift (get_property f2 (js "args"))) (fun args =>
          push (ev_tool_call (VObject [(js "name", name);
                                       (js "arguments", args)])))))))))))
    st
  = (inr tt, st ++ flat_map gemini_part_events entries).
Proof.
  revert st. induction entries as [|part entries IH]; intros st H.
  - cbn. rewrite app_nil_r. reflexivity.
  - cbn [forallb] in H. apply andb_prop in H as [Hp Hrest].
    apply negb_true_iff in Hp.
    cbn [for_each flat_map]. unfold gemini_part_events at 1.
    destruct (truthy (field part "text")) eqn:H1.
    all: destruct (truthy (field part "functionCall")) eqn:H2.
    all: try pose proof (truthy_not_nullish _ H2) as Hf.
    all: repeat first [ dec_step | rewrite H1 | rewrite H2
                      | progress cbn [when] ].
    all: rewrite IH by assumption.
    all: cbn [app]; rewrite <- ?app_assoc; reflexivity.
Qed.

Lemma gemini_data_events (data : value) (parts : list value) (st : list value) :
  gemini_parts data = Some parts ->
  snd (gemini_data data st)
  = st ++ flat_map gemini_part_events parts ++ gemini_finish data.
Proof.
  intros Hparts. unfold gemini_data, gemini_parts, gemini_finish in *.
  cbv zeta in *.
  assert (Hnothing : truthy (candidate0 data) = false ->
                     st = st ++ flat_map gemini_part_events parts
                             ++ (if truthy (field (candidate0 data) "finishReason")
                                 then [ev_finish (field (candidate0 data) "finishReason")]
                                 else [])).
  { intros H. destruct (falsy_candidate _ H) as (_ & Hcontent & Hfinish).
    rewrite Hcontent, Hfinish in *. cbn in Hparts. injection Hparts as <-.
    cbn. rewrite app_nil_r. reflexivity. }
  destruct (nullish data) eqn:Hd.
  { rewrite bind_get_nullish by assumption. apply Hnothing.
    unfold candidate0. rewrite (field_of_nullish data _ Hd). reflexivity. }
  dec_step.
  destruct (truthy (field data "candidates")) eqn:Hc.
  2: { rewrite bind_ret, Hc. cbn [when ret snd]. apply Hnothing.
       unfold candidate0. apply falsy_candidate in Hc as (-> & _). reflexivity. }
  pose proof (truthy_not_nullish _ Hc) as Hcn.
  repeat dec_step.
  change (field (field data "candidates") "0") with (candidate0 data) in *.
  destruct (truthy (candidate0 data)) eqn:Hch.
  2: { cbn [when ret snd]. apply Hnothing. reflexivity. }
  pose proof (truthy_not_nullish _ Hch) as Hchn.
  cbn [when]. repeat dec_step.
  change (field (field data "candidates") "0") with (candidate0 data) in *.
  repeat dec_step.
  destruct (truthy (field (field (candidate0 data) "content") "parts")) eqn:Hp.
  - pose proof (truthy_field_not_nullish _ _ Hp) as Hcontent.
    cbn [when]. repeat dec_step. unfold for_of. repeat dec_step.
    destruct (iterate (field (field (candidate0 data) "content") "parts"))
      as [e|items]; [discriminate Hparts|].
    destruct (forallb (fun part => negb (nullish part)) items) eqn:Hall;
      [|discriminate Hparts].
    injection Hparts as <-.
    unfold bind at 1, lift at 1. unfold bind at 1.
    rewrite gemini_parts_loop by assumption.
    repeat dec_step.
    destruct (truthy (field (candidate0 data) "finishReason")) eqn:Hf;
      cbn [when]; repeat dec_step; unfold push, ret; cbn [snd];
      rewrite <- ?app_assoc, ?app_nil_r; reflexivity.
  - injection Hparts as <-. cbn [when flat_map app]. repeat dec_step.
    destruct (truthy (field (candidate0 data) "finishReason")) eqn:Hf;
      cbn [when]; repeat dec_step; unfold push, ret; cbn [snd];
      rewrite <- ?app_assoc, ?app_nil_r; reflexivity.
Qed.

End Gemini.

(** X7. The decode rule of the Gemini decoder.  For a line that is not
    blank and parses to [data], provided the loop over
    [candidates[0].content.parts] throws nothing (the member is falsy, or
    can be iterated and holds no [null]): each part yields a token with its
    [text] when that is truthy, then a tool call with the [name] and, under
    [arguments], the [args] of its [functionCall] when that is truthy; a
    truthy [candidates[0].finishReason] yields a finish event, last. *)
Theorem gemini_decode_rule (JSON_parse : jsstring -> completion value)
  (l : jsstring) (data : value) (parts : list value) :
  is_blank l = false ->
  JSON_parse l = inr data ->
  gemini_parts data = Some parts ->
  line_events (gemini_line JSON_parse) l
  = flat_map gemini_part_events parts ++ gemini_finish data.
Proof.
  intros Hblank Hparse Hparts. unfold line_events, gemini_line.
  unfold is_blank in Hblank. rewrite Hblank.
  unfold try_skip, bind at 1, lift at 1. rewrite Hparse. cbn [snd].
  rewrite (gemini_data_events data parts [] Hparts). reflexivity.
Qed.

Lemma gemini_decode_rule_witness :
  is_blank gemini_sample = false
  /\ JSON.parse gemini_sample = inr gemini_sample_data
  /\ gemini_parts gemini_sample_data = Some gemini_sample_parts
  /\ line_events (gemini_line JSON.parse) gemini_sample
     = flat_map gemini_part_events gemini_sample_parts
         ++ gemini_finish gemini_sample_data
  /\ flat_map gemini_part_events gemini_sample_parts
       ++ gemini_finish gemini_sample_data
     = [ev_token (VString (js "Hi"));
        ev_tool_call (VObject [(js "name", VString (js "search"));
                               (js "arguments", VObject [])]);
        ev_finish (VString (js "STOP"))].
Proof.
  split; [reflexivity|]. split; [reflexivity|]. split; [reflexivity|].
  split; [|reflexivity].
  exact (gemini_decode_rule JSON.parse gemini_sample gemini_sample_data
           gemini_sample_parts eq_refl eq_refl eq_refl).
Defined.

(* ================================================================== *)
(** ** The result and the calls *)
(* ================================================================== *)

Lemma tool_calls_made_app (a b : list call) :
  tool_calls_made (a ++ b) = tool_calls_made a ++ tool_calls_made b.
Proof.
  induction a as [|c a IH]; [reflexivity|].
  destruct c; cbn; rewrite ?IH; reflexivity.
Qed.

Lemma tokens_text_app (N2S : Z -> Z -> jsstring) (a b : list call) :
  tokens_text N2S (a ++ b)
  = match tokens_text N2S a, tokens_text N2S b with
    | Some x, Some y => Some (x ++ y)
    | _, _ => None
    end.
Proof.
  induction a as [|c a IH]; cbn [app tokens_text].
  - destruct (tokens_text N2S b); reflexivity.
  - destruct c; try exact IH.
    rewrite IH. destruct (to_string N2S text) as [e|t]; [reflexivity|].
    destruct (tokens_text N2S a); [|reflexivity].
    destruct (tokens_text N2S b); [|reflexivity].
    rewrite app_assoc. reflexivity.
Qed.

Section Accumulators.

Variable JSON_parse : jsstring -> completion value.
Variable formatThinkingContent : value -> value.
Variable NumberToString : Z -> Z -> jsstring.
Variable W : Type.
Variable cbs : callbacks W.
Variable provider : jsstring.

Lemma accumulated_invoke {A : Type} (record : call) (cb : A -> W -> effect W)
  (arg : A) (s : session W) :
  tool_calls_made [record] = [] -> tokens_text NumberToString [record] = Some [] ->
  accumulated NumberToString s -> accumulated NumberToString (snd (invoke record cb arg s)).
Proof.
  intros H1 H2 [Ht Hf].
  destruct (invoke_session W record cb arg s) as (Hc & Hfc & Htc & _).
  split.
  - rewrite Hc, Htc, tool_calls_made_app, H1, app_nil_r. exact Ht.
  - rewrite Hc, Hfc, tokens_text_app, H2, Hf, app_nil_r. reflexivity.
Qed.

Lemma accumulated_handle_item (item : value) (s : session W) :
  accumulated NumberToString s ->
  accumulated NumberToString (snd (handle_item formatThinkingContent NumberToString cbs item s)).
Proof.
  intros [Ht Hf].
  destruct (handle_item_effect formatThinkingContent NumberToString W cbs item s)
    as (made & Hm & Hcases).
  unfold accumulated. rewrite Hm, tool_calls_made_app, tokens_text_app, Ht, Hf.
  destruct Hcases
    as [(-> & -> & ->)
       |[(text & _ & Htext & -> & -> & ->)
        |[(v & -> & -> & ->)|(_ & -> & -> & ->)]]];
    cbn [tool_calls_made tokens_text]; rewrite ?Htext, ?app_nil_r;
    split; reflexivity.
Qed.

Lemma handleStream_accumulated (resp : response) (w : W) :
  accumulated NumberToString (snd (handleStream JSON_parse formatThinkingContent NumberToString
                                 cbs provider resp w)).
Proof.
  apply (handleStream_preserves JSON_parse formatThinkingContent NumberToString
           W cbs provider (fun s s' => accumulated NumberToString s -> accumulated NumberToString s')
           (fun _ => True)).
  - auto.
  - auto.
  - intros s h H. exact H.
  - intros r s. split; [|trivial]. apply accumulated_invoke; reflexivity.
  - intros e s. apply accumulated_invoke; reflexivity.
  - intros text item _ s. split; [|trivial]. apply accumulated_handle_item.
  - destruct resp as [e|reads]; cbn; [trivial|].
    induction reads; cbn; trivial.
  - split; reflexivity.
Qed.

End Accumulators.

(** X8. Whatever happens in a session, [toolCalls] is the list of the
    values handed to [onToolCall] and [fullContent] the concatenation, as
    strings, of the values handed to [onToken], in order; a fulfilled
    promise carries these two in its result. *)
Theorem result_matches_callbacks
  (JSON_parse : jsstring -> completion value)
  (formatThinkingContent : value -> value) (NumberToString : Z -> Z -> jsstring)
  {W : Type} (cbs : callbacks W) (provider : jsstring) (resp : response) (w : W) :
  let run := handleStream JSON_parse formatThinkingContent NumberToString
                          cbs provider resp w in
  tool_calls_made (calls (snd run)) = toolCalls (snd run)
  /\ tokens_text NumberToString (calls (snd run)) = Some (fullContent (snd run))
  /\ (forall r, fst run = Fulfilled r ->
        tool_calls_made (calls (snd run)) = Result.toolCalls r
        /\ tokens_text NumberToString (calls (snd run)) = Some (Result.content r)).
Proof.
  intros run.
  destruct (handleStream_accumulated JSON_parse formatThinkingContent
              NumberToString W cbs provider resp w) as [Ht Hf].
  fold run in Ht, Hf. split; [exact Ht|]. split; [exact Hf|].
  intros r Hr. destruct run as [p s] eqn:Erun. cbn [fst snd] in *. subst p.
  apply handleStream_fulfilled in Erun. subst r. cbn. split; assumption.
Qed.

(* ================================================================== *)
(** ** The calls of a fulfilled session *)
(* ================================================================== *)

Section LoopCalls.

Variable JSON_parse : jsstring -> completion value.
Variable formatThinkingContent : value -> value.
Variable NumberToString : Z -> Z -> jsstring.
Variable W : Type.
Variable cbs : callbacks W.
Variable provider : jsstring.

(** The read loop calls [onToken], [onToolCall] and [onThinking] only. *)
Lemma read_loop_calls (reads : transport) (s : session W) :
  calls_extended (fun c => is_stream_call c = true) s
    (snd (read_loop JSON_parse formatThinkingContent NumberToString cbs provider
                    reads s)).
Proof.
  eapply proj1.
  eapply (read_loop_preserves JSON_parse formatThinkingContent NumberToString
            W cbs provider (calls_extended (fun c => is_stream_call c = true))
            (fun _ => True)).
  - apply calls_extended_refl.
  - apply calls_extended_trans.
  - apply calls_extended_with_this.
  - intros text item _. apply handle_item_preserves.
    + apply calls_extended_refl.
    + apply calls_extended_trans.
    + trivial.
    + intros t s0. split; [|trivial]. apply calls_extended_same. reflexivity.
    + intros data s0. split; [|trivial]. apply calls_extended_same. reflexivity.
    + intros v s0. split; [|trivial]. apply calls_extended_invoke. reflexivity.
    + intros v s0. split; [|trivial]. apply calls_extended_invoke. reflexivity.
    + intros _. split.
      * intros t s0. split; [|trivial]. apply calls_extended_same. reflexivity.
      * intros v s0. split; [|trivial]. apply calls_extended_invoke. reflexivity.
    + intros _ data. trivial.
  - induction reads; cbn; trivial.
Qed.

End LoopCalls.

(** X9. When the promise of [handleStream] is fulfilled with [r], the
    last call made is [onComplete(r)] and every call before it is a call of
    [onToken], [onToolCall] or [onThinking]: [onComplete] is called once,
    [onError] never. *)
Theorem fulfilled_calls_onComplete_last
  (JSON_parse : jsstring -> completion value)
  (formatThinkingContent : value -> value) (NumberToString : Z -> Z -> jsstring)
  {W : Type} (cbs : callbacks W) (provider : jsstring)
  (resp : response) (w : W) (r : Result.t) (s : session W) :
  handleStream JSON_parse formatThinkingContent NumberToString cbs provider resp w
  = (Fulfilled r, s) ->
  exists before,
    calls s = before ++ [OnComplete r]
    /\ forallb is_stream_call before = true.
Proof.
  unfold handleStream, try_block. cbv zeta.
  destruct resp as [e|reads].
  - destruct (catch_block cbs e (initial_session w)). congruence.
  - pose proof (read_loop_calls JSON_parse formatThinkingContent NumberToString
                  W cbs provider reads (initial_session w)) as (made & Hm & Hall).
    destruct (read_loop JSON_parse formatThinkingContent NumberToString cbs
                provider reads (initial_session w)) as [[|e|] s'];
      cbn [fst snd] in *.
    + match goal with
      | |- context [invoke ?rec ?cb ?a s'] =>
          pose proof (invoke_session W rec cb a s') as (Hc & _);
          destruct (invoke rec cb a s') as [[e|u] s'']
      end; cbn [snd] in *.
      * destruct (catch_block cbs e s''). congruence.
      * intros H. inversion H; subst. exists made.
        unfold finally_block, with_this. cbn [calls].
        rewrite Hc, Hm. split; [reflexivity|].
        apply forallb_forall. apply Forall_forall. exact Hall.
    + destruct (catch_block cbs e s'). congruence.
    + congruence.
Qed.

Lemma fulfilled_calls_onComplete_last_witness :
  run_stream default_callbacks "openai" (Stream (Chunk hi_payload false Done))
  = (Fulfilled (Result.make (js "Hi") [] [] (js "stop")),
     Session (Handler [] false) (js "Hi") [] [] tt
       [OnToken (VString (js "Hi"));
        OnComplete (Result.make (js "Hi") [] [] (js "stop"))])
  /\ exists before,
       [OnToken (VString (js "Hi"));
        OnComplete (Result.make (js "Hi") [] [] (js "stop"))]
       = before ++ [OnComplete (Result.make (js "Hi") [] [] (js "stop"))]
       /\ forallb is_stream_call before = true.
Proof.
  assert (H : run_stream default_callbacks "openai"
                (Stream (Chunk hi_payload false Done))
              = (Fulfilled (Result.make (js "Hi") [] [] (js "stop")),
                 Session (Handler [] false) (js "Hi") [] [] tt
                   [OnToken (VString (js "Hi"));
                    OnComplete (Result.make (js "Hi") [] [] (js "stop"))]))
    by reflexivity.
  split; [exact H|].
  exact (fulfilled_calls_onComplete_last JSON.parse format_identity
           number_unprinted default_callbacks (js "openai")
           (Stream (Chunk hi_payload false Done)) tt _ _ H).
Defined.

(* ================================================================== *)
(** ** Sessions that differ in the instance state *)
(* ================================================================== *)

Lemma same_but_this_refl {W : Type} (s : session W) : same_but_this s s.
Proof. intros h. reflexivity. Qed.

Lemma loop_equiv_refl {W : Type} (r : loop_exit * session W) : loop_equiv r r.
Proof. split; [reflexivity|]. split; [apply same_but_this_refl|reflexivity]. Qed.

Section SameButThis.

Variable JSON_parse : jsstring -> completion value.
Variable formatThinkingContent : value -> value.
Variable NumberToString : Z -> Z -> jsstring.
Variable W : Type.
Variable cbs : callbacks W.
Variable provider : jsstring.

Local Abbreviation handle := (handle_item formatThinkingContent NumberToString cbs).
Local Abbreviation loop := (read_loop JSON_parse formatThinkingContent NumberToString cbs provider).

(** The loop body does not read the instance state. *)
Lemma handle_item_same_but_this (item : value) (s1 s2 : session W) :
  same_but_this s1 s2 ->
  fst (handle item s1) = fst (handle item s2)
  /\ same_but_this (snd (handle item s1)) (snd (handle item s2)).
Proof.
  intros H. destruct (same_but_this_fields s1 s2 H)
    as (h1 & h2 & fc & tc & th & w & cs & -> & ->).
  unfold handle_item, bind, lift, ret, throw, invoke, append_fullContent,
    append_thinkingContent, push_toolCall.
  cbn.
  destruct (get_property item (js "type")) as [e|ty]; cbn;
    [split; [reflexivity|intros h; reflexivity]|].
  destruct (is_string ty (js "token")).
  { destruct (get_property item (js "content")) as [e|c]; cbn;
      [split; [reflexivity|intros h; reflexivity]|].
    destruct (to_string NumberToString c) as [e|text]; cbn;
      split; try reflexivity; intros h; reflexivity. }
  destruct (is_string ty (js "thinking")).
  { destruct (get_property item (js "content")) as [e|c]; cbn;
      [split; [reflexivity|intros h; reflexivity]|].
    destruct (to_string NumberToString c) as [e|text]; cbn;
      split; try reflexivity; intros h; reflexivity. }
  destruct (is_string ty (js "tool_call")).
  { destruct (get_property item (js "data")) as [e|d]; cbn;
      split; try reflexivity; intros h; reflexivity. }
  destruct (is_string ty (js "error")); [|split; [reflexivity|intros h; reflexivity]].
  destruct (get_property item (js "data")) as [e|d];
    split; try reflexivity; intros h; reflexivity.
Qed.

Lemma for_each_same_but_this (items : list value) (s1 s2 : session W) :
  same_but_this s1 s2 ->
  fst (for_each items handle s1) = fst (for_each items handle s2)
  /\ same_but_this (snd (for_each items handle s1)) (snd (for_each items handle s2)).
Proof.
  revert s1 s2. induction items as [|item items IH]; intros s1 s2 H; cbn.
  - split; [reflexivity|exact H].
  - unfold bind. destruct (handle_item_same_but_this item s1 s2 H) as [Hf Hs].
    destruct (handle item s1) as [[e1|u1] s1'], (handle item s2) as [[e2|u2] s2'];
      cbn [fst snd] in *; try discriminate.
    + split; assumption.
    + apply IH. exact Hs.
Qed.

(** The same chunks, then two continuations that leave the loop alike. *)
Lemma read_loop_chunks_then (chunks : list (jsstring * bool))
  (last1 last2 : transport) :
  (forall s, loop_equiv (loop last1 s) (loop last2 s)) ->
  forall s, loop_equiv (loop (chunks_then chunks last1) s)
                       (loop (chunks_then chunks last2) s).
Proof.
  intros Hlast. induction chunks as [|[text stop] chunks IH]; intros s.
  - apply Hlast.
  - cbn [chunks_then read_loop].
    destruct (isStreaming (this s)); [|apply loop_equiv_refl].
    destruct (processBuffer JSON_parse provider _) as [[e|processed] h'];
      [apply loop_equiv_refl|].
    destruct (for_each processed handle (with_this s h')) as [[e|u] s'];
      [apply loop_equiv_refl|apply IH].
Qed.

(** Two transports that leave the loop alike settle the promise alike. *)
Lemma handleStream_loop_equiv (reads1 reads2 : transport) (w : W) :
  loop_equiv (loop reads1 (initial_session w)) (loop reads2 (initial_session w)) ->
  handleStream JSON_parse formatThinkingContent NumberToString cbs provider
               (Stream reads1) w
  = handleStream JSON_parse formatThinkingContent NumberToString cbs provider
                 (Stream reads2) w.
Proof.
  intros (Hf & Hs & Hb). unfold handleStream, try_block. cbv zeta.
  destruct (loop reads1 (initial_session w)) as [x1 s1].
  destruct (loop reads2 (initial_session w)) as [x2 s2].
  cbn [fst snd] in *. subst x2.
  destruct x1 as [|e|].
  - destruct (same_but_this_fields s1 s2 Hs)
      as (h1 & h2 & fc & tc & th & w0 & cs & -> & ->).
    cbn [fullContent toolCalls thinkingContent].
    unfold invoke. cbn [this fullContent toolCalls thinkingContent world calls].
    destruct (cb_completion (onComplete cbs _ w0)) as [e|v].
    + match goal with
      | |- context [catch_block cbs e ?a] =>
          match goal with
          | |- context [(let (_, _) := catch_block cbs e a in _) =
                        (let (_, _) := catch_block cbs e ?b in _)] =>
              destruct (catch_block_same_but_this cbs e a b) as [Hc Hfin];
              [intros h; reflexivity|];
              destruct (catch_block cbs e a) as [e1 s1'];
              destruct (catch_block cbs e b) as [e2 s2']
          end
      end.
      cbn [fst snd] in *. subst e2. rewrite Hfin. reflexivity.
    + reflexivity.
  - destruct (catch_block_same_but_this cbs e s1 s2 Hs) as [Hc Hfin].
    destruct (catch_block cbs e s1) as [e1 s1'].
    destruct (catch_block cbs e s2) as [e2 s2'].
    cbn [fst snd] in *. subst e2. rewrite Hfin. reflexivity.
  - rewrite (Hb eq_refl). reflexivity.
Qed.

End SameButThis.

(** Text without a newline adds no complete line. *)
Lemma buffer_events_tail (JSON_parse : jsstring -> completion value)
  (provider a tail : jsstring) :
  no_newline tail = true ->
  buffer_events JSON_parse provider (a ++ tail)
  = buffer_events JSON_parse provider a.
Proof.
  intros H. rewrite buffer_events_app. unfold buffer_events at 2.
  assert (Hn : no_newline (remainder a ++ tail) = true).
  { rewrite no_newline_app, remainder_no_newline, H. reflexivity. }
  destruct (no_newline_lines _ Hn) as [-> _]. cbn. apply app_nil_r.
Qed.

Section LastChunk.

Variable JSON_parse : jsstring -> completion value.
Variable formatThinkingContent : value -> value.
Variable NumberToString : Z -> Z -> jsstring.
Variable W : Type.
Variable cbs : callbacks W.
Variable provider : jsstring.

Local Abbreviation handle := (handle_item formatThinkingContent NumberToString cbs).
Local Abbreviation loop := (read_loop JSON_parse formatThinkingContent NumberToString cbs provider).

Lemma read_loop_Done (s : session W) : loop Done s = (Exited, s).
Proof. cbn. destruct (isStreaming (this s)); reflexivity. Qed.

Lemma read_loop_tail (text tail : jsstring) (stop : bool) (s : session W) :
  no_newline tail = true ->
  loop_equiv (loop (Chunk (text ++ tail) stop Done) s)
             (loop (Chunk text stop Done) s).
Proof.
  intros H. cbn [read_loop].
  destruct (isStreaming (this s)); [|apply loop_equiv_refl].
  rewrite !processBuffer_spec. unfold set_buffer.
  cbn [buffer isStreaming].
  rewrite app_assoc, buffer_events_tail by assumption.
  match goal with
  | |- loop_equiv
         match for_each ?items _ ?a with _ => _ end
         match for_each _ _ ?b with _ => _ end =>
      destruct (for_each_same_but_this formatThinkingContent NumberToString
                  W cbs items a b) as [Hf Hs];
      [intros h; reflexivity|];
      destruct (for_each items handle a) as [[e1|u1] s1];
      destruct (for_each items handle b) as [[e2|u2] s2]
  end; cbn [fst snd] in *; try discriminate.
  - injection Hf as <-. split; [reflexivity|]. split; [exact Hs|discriminate].
  - destruct (isStreaming (this s1)), (isStreaming (this s2));
      (split; [reflexivity|]; split; [exact Hs|discriminate]).
Qed.

Lemma read_loop_stopped (reads : transport) (s : session W) :
  isStreaming (this s) = false -> loop reads s = (Exited, s).
Proof. intros H. destruct reads; cbn; rewrite H; reflexivity. Qed.

(** Nothing in the loop body sets [isStreaming] again. *)
Lemma for_each_stopped (items : list value) (s : session W) :
  isStreaming (this s) = false ->
  isStreaming (this (snd (for_each items handle s))) = false.
Proof.
  set (I := fun s s' : session W =>
              isStreaming (this s) = false -> isStreaming (this s') = false).
  assert (Hinv : forall (A : Type) record (cb : A -> W -> effect W) arg,
             preserves I (fun _ => True) (invoke record cb arg)).
  { intros A record cb arg s0. split; [|trivial]. intros H0.
    unfold invoke. cbn. destruct (cb_stop _); [reflexivity|exact H0]. }
  apply (preserves_for_each W I (fun _ => True)).
  - intros s0 H0. exact H0.
  - intros a b c Hab Hbc H0. auto.
  - intros item _. apply handle_item_preserves.
    + intros s0 H0. exact H0.
    + intros a b c Hab Hbc H0. auto.
    + trivial.
    + intros t s0. split; [|trivial]. intros H0. exact H0.
    + intros d s0. split; [|trivial]. intros H0. exact H0.
    + intros v. apply Hinv.
    + intros v. apply Hinv.
    + intros _. split; [|intros v; apply Hinv].
      intros t s0. split; [|trivial]. intros H0. exact H0.
    + trivial.
Qed.

Lemma read_loop_stop_flag (text : jsstring) (rest : transport) (s : session W) :
  loop (Chunk text true rest) s = loop (Chunk text true Done) s.
Proof.
  cbn [read_loop]. destruct (isStreaming (this s)); [|reflexivity].
  rewrite !processBuffer_spec. unfold stopStream, set_isStreaming, set_buffer.
  cbn [buffer isStreaming].
  match goal with
  | |- match for_each ?items _ ?a with _ => _ end = _ =>
      pose proof (for_each_stopped items a eq_refl) as Hstop;
      destruct (for_each items handle a) as [[e|u] s']
  end; [reflexivity|].
  cbn [snd] in Hstop. rewrite (read_loop_stopped rest s' Hstop), Hstop.
  reflexivity.
Qed.

(** The chunk of a read during which [stopStream()] was called is decoded
    and handed over as the last chunk of a transport that ends is. *)
Lemma read_loop_stop_last (text : jsstring) (rest : transport) (s : session W) :
  loop_equiv (loop (Chunk text true rest) s) (loop (Chunk text false Done) s).
Proof.
  rewrite read_loop_stop_flag. cbn [read_loop].
  destruct (isStreaming (this s)); [|apply loop_equiv_refl].
  rewrite !processBuffer_spec. unfold stopStream, set_isStreaming, set_buffer.
  cbn [buffer isStreaming].
  match goal with
  | |- loop_equiv
         match for_each ?items _ ?a with _ => _ end
         match for_each _ _ ?b with _ => _ end =>
      destruct (for_each_same_but_this formatThinkingContent NumberToString
                  W cbs items a b) as [Hf Hs];
      [intros h; reflexivity|];
      destruct (for_each items handle a) as [[e1|u1] s1];
      destruct (for_each items handle b) as [[e2|u2] s2]
  end; cbn [fst snd] in *; try discriminate.
  - injection Hf as <-. split; [reflexivity|]. split; [exact Hs|discriminate].
  - destruct (isStreaming (this s1)), (isStreaming (this s2));
      (split; [reflexivity|]; split; [exact Hs|discriminate]).
Qed.

Lemma read_loop_after_stop (chunks : list (jsstring * bool)) (rest : transport)
  (s : session W) :
  isStreaming (this (snd (loop (chunks_then chunks Done) s))) = false ->
  loop (chunks_then chunks rest) s = loop (chunks_then chunks Done) s.
Proof.
  revert s. induction chunks as [|[text stop] chunks IH]; intros s H.
  - cbn [chunks_then] in *. rewrite read_loop_Done in *. cbn [snd] in H.
    apply read_loop_stopped. exact H.
  - cbn [chunks_then read_loop] in *.
    destruct (isStreaming (this s)); [|reflexivity].
    destruct (processBuffer JSON_parse provider _) as [[e|processed] h'];
      [reflexivity|].
    destruct (for_each processed handle (with_this s h')) as [[e|u] s'];
      [reflexivity|].
    apply IH. exact H.
Qed.

(** The loop is left blocked only at a read that never settles, and the
    instance is then streaming unless [stopStream()] was called during that
    read. *)
Lemma read_loop_blocked (reads : transport) (s : session W) :
  fst (loop reads s) = Blocked ->
  exists chunks stop,
    reads = chunks_then chunks (Stalled stop)
    /\ isStreaming (this (snd (loop reads s))) = negb stop.
Proof.
  revert s.
  induction reads as [text stop rest IH| |e|stalled]; intros s; cbn [read_loop];
    destruct (isStreaming (this s)) eqn:Hs; cbn [fst snd]; try discriminate.
  - destruct (processBuffer JSON_parse provider _) as [[e|processed] h'];
      cbn [fst snd]; [discriminate|].
    destruct (for_each processed handle (with_this s h')) as [[e|u] s'];
      cbn [fst snd]; [discriminate|].
    intros H. destruct (IH s' H) as (chunks & stalled & -> & Hstreaming).
    exists ((text, stop) :: chunks), stalled. split; [reflexivity|assumption].
  - intros _. exists [], stalled. split; [reflexivity|].
    destruct stalled; cbn; [reflexivity|exact Hs].
Qed.

(** Two reads, the first one not stopped, leave the loop as one read of
    the two texts. *)
Lemma read_loop_merge (a b : jsstring) (stop : bool) (rest : transport)
  (s : session W) :
  never_stop cbs -> isStreaming (this s) = true ->
  loop_equiv (loop (Chunk a false (Chunk b stop rest)) s)
             (loop (Chunk (a ++ b) stop rest) s).
Proof.
  intros Hstop Hs.
  destruct (read_loop_split JSON_parse formatThinkingContent NumberToString
              W cbs provider Hstop a b stop rest s Hs) as (Hf & Hsame & Heq).
  split; [exact Hf|]. split; [exact Hsame|].
  intros Hb. apply Heq. intros e He. congruence.
Qed.

Lemma handleStream_chunks (a : jsstring) (rest : list jsstring) (w : W) :
  never_stop cbs ->
  handleStream JSON_parse formatThinkingContent NumberToString cbs provider
    (Stream (Chunk a false (chunks_then (map (fun t => (t, false)) rest) Done))) w
  = handleStream JSON_parse formatThinkingContent NumberToString cbs provider
      (Stream (Chunk (a ++ List.concat rest) false Done)) w.
Proof.
  intros Hstop. revert a. induction rest as [|b rest IH]; intros a.
  - cbn [map chunks_then List.concat]. rewrite app_nil_r. reflexivity.
  - cbn [map chunks_then List.concat]. rewrite app_assoc, <- IH.
    apply handleStream_loop_equiv. apply read_loop_merge; [exact Hstop|reflexivity].
Qed.

End LastChunk.

(* ================================================================== *)
(** ** The end of the stream, stops and pending reads *)
(* ================================================================== *)





(** X12. For callbacks that are an object or left out, so that
    [handleStream] enters its [try]: once its promise is settled, fulfilled
    or rejected, [isCurrentlyStreaming()] is false and [getBuffer()] is the
    empty string.  Its promise stays pending only at a read of the transport
    that never settles, and [isCurrentlyStreaming()] is then true unless
    [stopStream()] was called during that read. *)
Theorem streaming_while_pending
  (JSON_parse : jsstring -> completion value)
  (formatThinkingContent : value -> value) (NumberToString : Z -> Z -> jsstring)
  {W : Type} (cbs : callbacks W) (provider : jsstring) (resp : response) (w : W) :
  let run := handleStream JSON_parse formatThinkingContent NumberToString
                          cbs provider resp w in
  (fst run <> Pending ->
   isCurrentlyStreaming (this (snd run)) = false
   /\ getBuffer (this (snd run)) = [])
  /\ (fst run = Pending ->
      exists chunks stop,
        resp = Stream (chunks_then chunks (Stalled stop))
        /\ isCurrentlyStreaming (this (snd run)) = negb stop).
Proof.
  cbv zeta. unfold handleStream, try_block. cbv zeta.
  destruct resp as [e|reads].
  - destruct (catch_block cbs e (initial_session w)) as [e' s']. cbn.
    split; [split; reflexivity|discriminate].
  - pose proof (read_loop_blocked JSON_parse formatThinkingContent NumberToString
                  W cbs provider reads (initial_session w)) as Hb.
    destruct (read_loop JSON_parse formatThinkingContent NumberToString cbs
                provider reads (initial_session w)) as [[|e|] s'];
      cbn [fst snd] in *.
    + destruct (invoke _ _ _ s') as [[e|u] s''].
      * destruct (catch_block cbs e s'') as [e' s3]. cbn.
        split; [split; reflexivity|discriminate].
      * cbn. split; [split; reflexivity|discriminate].
    + destruct (catch_block cbs e s') as [e' s3]. cbn.
      split; [split; reflexivity|discriminate].
    + split; [intros H; contradiction|]. intros _.
      destruct (Hb eq_refl) as (chunks & stop & -> & Hstreaming).
      exists chunks, stop. split; [reflexivity|exact Hstreaming].
Qed.

Lemma handleStream_concat
  (JSON_parse : jsstring -> completion value)
  (formatThinkingContent : value -> value) (NumberToString : Z -> Z -> jsstring)
  {W : Type} (cbs : callbacks W) (provider : jsstring)
  (texts : list jsstring) (w : W) :
  never_stop cbs ->
  handleStream JSON_parse formatThinkingContent NumberToString cbs provider
    (Stream (chunks_then (map (fun t => (t, false)) texts) Done)) w
  = handleStream JSON_parse formatThinkingContent NumberToString cbs provider
      (Stream (Chunk (List.concat texts) false Done)) w.
Proof.
  intros Hstop. destruct texts as [|a rest].
  - cbn [map chunks_then List.concat]. unfold handleStream, try_block.
    cbn [read_loop initial_session this isStreaming].
    rewrite processBuffer_spec. reflexivity.
  - apply handleStream_chunks. exact Hstop.
Qed.



(* ================================================================== *)
(** ** Facts on [split] *)
(* ================================================================== *)

Lemma split_newline_app (a b : jsstring) :
  split_newline (a ++ LF :: b) = split_newline a ++ split_newline b.
Proof.
  induction a as [|c a IH]; [reflexivity|].
  cbn [app split_newline]. rewrite IH.
  destruct (N.eqb c LF); [reflexivity|].
  pose proof (split_newline_not_nil a) as Hne.
  destruct (split_newline a) as [|l ls]; [contradiction|reflexivity].
Qed.

Lemma split_newline_no_newline (l : jsstring) :
  no_newline l = true -> split_newline l = [l].
Proof.
  induction l as [|c l IH]; intros H; [reflexivity|].
  cbn in H. apply andb_prop in H as [Hc Hl]. apply negb_true_iff in Hc.
  cbn [split_newline]. rewrite Hc, (IH Hl). reflexivity.
Qed.

Lemma lines_text_app (a b : list jsstring) :
  lines_text (a ++ b) = lines_text a ++ lines_text b.
Proof.
  unfold lines_text. rewrite map_app, concat_app. reflexivity.
Qed.

(** The lines of a text made of complete lines and a rest. *)
Lemma split_lines_text (ls : list jsstring) (r : jsstring) :
  Forall (fun l => no_newline l = true) ls ->
  split_newline (lines_text ls ++ r) = ls ++ split_newline r.
Proof.
  induction 1 as [|l ls Hl _ IH]; [reflexivity|].
  rewrite lines_text_cons, <- app_assoc. cbn [app].
  rewrite split_newline_app, IH, (split_newline_no_newline l Hl). reflexivity.
Qed.

Lemma complete_lines_newline (text : jsstring) :
  complete_lines (text ++ [LF]) = split_newline text
  /\ remainder (text ++ [LF]) = [].
Proof.
  unfold complete_lines, remainder, pop_or_empty.
  rewrite split_newline_app. cbn [split_newline fst snd].
  rewrite removelast_last, last_last. split; reflexivity.
Qed.

(* ================================================================== *)
(** ** [parseNDJSON] *)
(* ================================================================== *)

Section Ndjson.

Variable JSON_parse : jsstring -> completion value.

Lemma ndjson_line_returns (l : jsstring) (st : list value) :
  fst (ndjson_line JSON_parse l st) = inr tt.
Proof. unfold ndjson_line. destruct (is_empty (trim l)); reflexivity. Qed.

Lemma ndjson_line_emits (l : jsstring) :
  emits (fun _ => True) (ndjson_line JSON_parse l).
Proof. unfold ndjson_line. emits_tac. Qed.

Lemma parseNDJSON_flat_map (chunk : jsstring) :
  parseNDJSON JSON_parse chunk
  = flat_map (line_events (ndjson_line JSON_parse)) (split_newline chunk).
Proof.
  unfold parseNDJSON. cbv zeta.
  rewrite for_each_lines;
    [reflexivity|apply ndjson_line_returns|apply ndjson_line_emits].
Qed.

Lemma ndjson_line_events (l : jsstring) :
  line_events (ndjson_line JSON_parse) l
  = if is_blank l then []
    else match JSON_parse l with
         | inr object => [object]
         | inl _ => []
         end.
Proof.
  unfold line_events, ndjson_line, is_blank.
  destruct (is_empty (trim l)); [reflexivity|].
  unfold try_skip, bind, lift. destruct (JSON_parse l); reflexivity.
Qed.

End Ndjson.

(** X14. [parseNDJSON] works line by line: the objects of a chunk cut at
    a newline are the objects of the part before it followed by the objects
    of the part after it; a single line yields nothing when it is blank or
    does not parse, and the parsed object otherwise. *)
Theorem parseNDJSON_lines (JSON_parse : jsstring -> completion value) :
  (forall a b,
      parseNDJSON JSON_parse (a ++ LF :: b)
      = parseNDJSON JSON_parse a ++ parseNDJSON JSON_parse b)
  /\
  (forall l,
      no_newline l = true ->
      parseNDJSON JSON_parse l
      = if is_blank l then []
        else match JSON_parse l with
             | inr object => [object]
             | inl _ => []
             end).
Proof.
  split.
  - intros a b. rewrite !parseNDJSON_flat_map, split_newline_app.
    apply flat_map_app.
  - intros l H. rewrite parseNDJSON_flat_map, (split_newline_no_newline l H).
    cbn [flat_map]. rewrite app_nil_r. apply ndjson_line_events.
Qed.

Lemma gemini_line_ndjson (JSON_parse : jsstring -> completion value) (l : jsstring) :
  line_events (gemini_line JSON_parse) l
  = flat_map gemini_events (line_events (ndjson_line JSON_parse) l).
Proof.
  rewrite ndjson_line_events. unfold line_events, gemini_line, is_blank.
  destruct (is_empty (trim l)); [reflexivity|].
  unfold try_skip, bind at 1, lift at 1.
  destruct (JSON_parse l) as [e|data]; [reflexivity|].
  cbn [flat_map snd]. rewrite app_nil_r. reflexivity.
Qed.

(** X15. The Gemini decoder reads newline-delimited JSON: on a buffer
    that ends with a newline, a decode pass returns what [gemini_data]
    pushes for each object [parseNDJSON] returns for the text before that
    newline, in order, and empties the buffer. *)
Theorem gemini_decodes_ndjson (JSON_parse : jsstring -> completion value)
  (text : jsstring) (streaming : bool) :
  processBuffer JSON_parse (js "gemini") (Handler (text ++ [LF]) streaming)
  = (inr (flat_map gemini_events (parseNDJSON JSON_parse text)),
     Handler [] streaming).
Proof.
  rewrite processBuffer_spec, parseNDJSON_flat_map.
  unfold set_buffer, buffer_events. cbn [buffer isStreaming].
  destruct (complete_lines_newline text) as [-> ->].
  change (decoder_line JSON_parse (js "gemini")) with (gemini_line JSON_parse).
  f_equal. f_equal.
  induction (split_newline text) as [|l ls IH]; [reflexivity|].
  cbn [flat_map]. rewrite flat_map_app, IH, gemini_line_ndjson. reflexivity.
Qed.

(* ================================================================== *)
(** ** [parseSSE] *)
(* ================================================================== *)

Local Abbreviation sse_loop :=
  (fold_left (fun st line => parseSSE_line line st)).

(** An event is pushed with the data gathered so far, which is not
    empty. *)
Lemma parseSSE_line_data (line : jsstring) (st : list Sse.t * Sse.t) :
  Forall (fun ev => is_empty (Sse.data ev) = false) (fst st) ->
  Forall (fun ev => is_empty (Sse.data ev) = false) (fst (parseSSE_line line st)).
Proof.
  destruct st as [events event]. unfold parseSSE_line. cbn [fst].
  intros H.
  destruct (startsWith line (js "event: ")); [exact H|].
  destruct (startsWith line (js "data: ")); [exact H|].
  destruct (is_empty (trim line)); [|exact H].
  destruct (is_empty (Sse.data event)) eqn:Hd; cbn [negb fst]; [exact H|].
  apply Forall_app. split; [exact H|]. constructor; [exact Hd|constructor].
Qed.

Lemma sse_loop_data (lines : list jsstring) (st : list Sse.t * Sse.t) :
  Forall (fun ev => is_empty (Sse.data ev) = false) (fst st) ->
  Forall (fun ev => is_empty (Sse.data ev) = false) (fst (sse_loop lines st)).
Proof.
  revert st. induction lines as [|l lines IH]; intros st H; [exact H|].
  cbn [fold_left]. apply IH. apply parseSSE_line_data. exact H.
Qed.

Lemma parseSSE_line_count (line : jsstring) (st : list Sse.t * Sse.t) :
  List.length (fst (parseSSE_line line st))
  <= List.length (fst st) + (if is_blank line then 1 else 0).
Proof.
  destruct st as [events event]. unfold parseSSE_line, is_blank. cbn [fst].
  destruct (startsWith line (js "event: "));
    [destruct (is_empty (trim line)); cbn [fst]; lia|].
  destruct (startsWith line (js "data: "));
    [destruct (is_empty (trim line)); cbn [fst]; lia|].
  destruct (is_empty (trim line)); [|cbn [fst]; lia].
  destruct (negb (is_empty (Sse.data event))); cbn [fst]; [|lia].
  rewrite length_app. cbn. lia.
Qed.

Lemma sse_loop_count (lines : list jsstring) (st : list Sse.t * Sse.t) :
  List.length (fst (sse_loop lines st))
  <= List.length (fst st) + List.length (filter is_blank lines).
Proof.
  revert st. induction lines as [|l lines IH]; intros st; [cbn; lia|].
  cbn [fold_left filter]. specialize (IH (parseSSE_line l st)).
  pose proof (parseSSE_line_count l st) as H.
  destruct (is_blank l); cbn [List.length]; lia.
Qed.


Lemma no_newline_app_prefix (prefix : string) (l : jsstring) :
  no_newline (js prefix) = true ->
  no_newline (js prefix ++ l) = no_newline l.
Proof. intros H. rewrite no_newline_app, H. reflexivity. Qed.

Lemma startsWith_app (p s : jsstring) : startsWith (p ++ s) p = true.
Proof.
  induction p as [|x p IH]; [destruct s; reflexivity|].
  cbn. rewrite N.eqb_refl, IH. reflexivity.
Qed.

Lemma parseSSE_line_event (n : jsstring) (events : list Sse.t) (event : Sse.t) :
  parseSSE_line (js "event: " ++ n) (events, event)
  = (events, Sse.make (Sse.data event) n).
Proof. unfold parseSSE_line. rewrite startsWith_app. reflexivity. Qed.

Lemma parseSSE_line_data_line (piece : jsstring) (events : list Sse.t)
  (event : Sse.t) :
  parseSSE_line (js "data: " ++ piece) (events, event)
  = (events, Sse.make (Sse.data event ++ piece) (Sse.event event)).
Proof.
  unfold parseSSE_line.
  change (startsWith (js "data: " ++ piece) (js "event: ")) with false.
  rewrite startsWith_app. reflexivity.
Qed.

(** The blocks of an event stream. *)
Lemma sse_loop_blanks (n : nat) (events : list Sse.t) (name : jsstring) :
  sse_loop (repeat [] n) (events, Sse.make [] name) = (events, Sse.make [] name).
Proof. induction n as [|n IH]; [reflexivity|exact IH]. Qed.

Lemma sse_loop_data_lines (pieces : list jsstring) (events : list Sse.t)
  (data name : jsstring) :
  sse_loop (map (fun piece => js "data: " ++ piece) pieces)
           (events, Sse.make data name)
  = (events, Sse.make (data ++ List.concat pieces) name).
Proof.
  revert data. induction pieces as [|piece pieces IH]; intros data.
  - cbn. rewrite app_nil_r. reflexivity.
  - cbn [map fold_left List.concat].
    rewrite parseSSE_line_data_line. cbn [Sse.data Sse.event].
    rewrite IH, app_assoc. reflexivity.
Qed.

Lemma sse_data_lines_text (pieces : list jsstring) :
  sse_data_lines pieces = lines_text (map (fun piece => js "data: " ++ piece) pieces).
Proof.
  unfold sse_data_lines, lines_text. rewrite map_map. reflexivity.
Qed.

Lemma repeat_LF_text (n : nat) : repeat LF n = lines_text (repeat [] n).
Proof.
  induction n as [|n IH]; [reflexivity|].
  cbn [repeat]. rewrite lines_text_cons, <- IH. reflexivity.
Qed.



(* ================================================================== *)
(** ** What the dispatch logs *)
(* ================================================================== *)

Section Logs.

Variable W : Type.
Variable Q : action -> Prop.

Lemma logs_nothing {A : Type} (c : Async.async (S := agent W) A) :
  (forall a, log (snd (c a)) = log a) -> logs Q c.
Proof.
  intros H a. exists []. rewrite app_nil_r. split; [apply H|constructor].
Qed.

Lemma logs_ret {A : Type} (x : A) : logs Q (Async.ret (S := agent W) x).
Proof. apply logs_nothing. reflexivity. Qed.

Lemma logs_throw {A : Type} (e : thrown) :
  logs Q (Async.throw (S := agent W) (A := A) e).
Proof. apply logs_nothing. reflexivity. Qed.

Lemma logs_lift {A : Type} (c : completion A) :
  logs Q (Async.lift (S := agent W) c).
Proof. apply logs_nothing. reflexivity. Qed.

Lemma logs_act (x : action) : Q x -> logs Q (act (W := W) x).
Proof.
  intros H a. exists [x]. split; [reflexivity|]. constructor; [exact H|constructor].
Qed.

Lemma logs_messages_push (msg : value) : logs Q (messages_push (W := W) msg).
Proof. apply logs_nothing. reflexivity. Qed.

Lemma logs_bind {A B : Type} (c : Async.async (S := agent W) A)
  (k : A -> Async.async B) :
  logs Q c -> (forall x, logs Q (k x)) -> logs Q (Async.bind c k).
Proof.
  intros Hc Hk a. unfold Async.bind. destruct (Hc a) as (m1 & E1 & F1).
  destruct (c a) as [[|x|e] a1]; cbn [snd] in *; try (exists m1; split; assumption).
  destruct (Hk x a1) as (m2 & E2 & F2). exists (m1 ++ m2).
  rewrite E2, E1, app_assoc. split; [reflexivity|].
  apply Forall_app. split; assumption.
Qed.

Lemma logs_try_catch {A : Type} (body : Async.async (S := agent W) A)
  (handler : thrown -> Async.async A) :
  logs Q body -> (forall e, logs Q (handler e)) ->
  logs Q (Async.try_catch body handler).
Proof.
  intros Hb Hh a. unfold Async.try_catch. destruct (Hb a) as (m1 & E1 & F1).
  destruct (body a) as [[|x|e] a1]; cbn [snd] in *; try (exists m1; split; assumption).
  destruct (Hh e a1) as (m2 & E2 & F2). exists (m1 ++ m2).
  rewrite E2, E1, app_assoc. split; [reflexivity|].
  apply Forall_app. split; assumption.
Qed.

Lemma logs_when (b : bool) (c : Async.async (S := agent W) unit) :
  logs Q c -> logs Q (Async.when b c).
Proof. destruct b; cbn; [trivial|intros _; apply logs_ret]. Qed.

Lemma logs_for_each {A : Type} (items : list A)
  (body : A -> Async.async (S := agent W) unit) :
  (forall x, logs Q (body x)) -> logs Q (Async.for_each items body).
Proof.
  intros Hb. induction items as [|x items IH]; cbn.
  - apply logs_ret.
  - apply logs_bind; [apply Hb|intros _; exact IH].
Qed.

Lemma logs_user_call {A : Type} (x : action)
  (cb : option (A -> W -> completion unit * W)) (arg : A) :
  Q x -> logs Q (user_call x cb arg).
Proof.
  intros H. destruct cb as [f|]; [|apply logs_ret].
  intros a. unfold user_call. destruct (f arg (tools_world a)) as [c w].
  exists [x]. split; [reflexivity|]. constructor; [exact H|constructor].
Qed.

Lemma logs_await (executeTool : value -> value -> W -> promise value * W)
  (name arguments : value) :
  logs Q (await_executeTool executeTool name arguments).
Proof.
  apply logs_nothing. intros a. unfold await_executeTool.
  destruct (executeTool name arguments (tools_world a)). reflexivity.
Qed.

End Logs.

Ltac logs_tac :=
  repeat first
    [ apply logs_ret | apply logs_throw | apply logs_lift | apply logs_await
    | apply logs_messages_push
    | apply logs_act; reflexivity
    | apply logs_user_call; reflexivity
    | apply logs_when
    | apply logs_for_each; intros ?
    | apply logs_try_catch; [|intros ?]
    | apply logs_bind; [|intros ?] ].

Section DispatchMore.

Variable NumberToString : Z -> Z -> jsstring.
Variable W : Type.
Variable hasTool : value -> bool.
Variable executeTool : value -> value -> W -> promise value * W.
Variable options_onToolCall : option (value -> W -> completion unit * W).
Variable options_onComplete : option (parsed_response -> W -> completion unit * W).

(** An iteration of the loop over the tool calls closes no task. *)
Lemma nonstreaming_toolCall_logs (toolCall : value) :
  logs (fun x => closes_task x = false)
       (nonstreaming_toolCall hasTool executeTool options_onToolCall toolCall).
Proof. unfold nonstreaming_toolCall. logs_tac. Qed.

Lemma nonstreaming_tool_calls_logs (result : parsed_response) :
  logs (fun x => closes_task x = false)
       (match pr_toolCalls result with
        | Some (first :: others) =>
            Async.bind (act (SetAction (js "Processing tool calls")))
              (fun _ => Async.for_each (first :: others)
                 (nonstreaming_toolCall hasTool executeTool options_onToolCall))
        | _ => Async.ret tt
        end).
Proof.
  destruct (pr_toolCalls result) as [[|first others]|]; logs_tac.
Qed.

(** The statements that follow the loop over the tool calls close the
    task and fulfil the promise, when [options.onComplete] returns. *)
Lemma user_onComplete_returns (result : parsed_response) (a : agent W) :
  callback_returns options_onComplete ->
  exists w,
    user_call (UserOnComplete result) options_onComplete result a
    = (Fulfilled tt,
       Agent (messages a) w
             (log a ++ match options_onComplete with
                       | Some _ => [UserOnComplete result]
                       | None => []
                       end)).
Proof.
  intros Hret. unfold user_call. destruct options_onComplete as [f|] eqn:E.
  - pose proof (Hret f eq_refl result (tools_world a)) as H.
    destruct (f result (tools_world a)) as [c w]. cbn in H. subst c.
    exists w. reflexivity.
  - exists (tools_world a). rewrite app_nil_r. destruct a. reflexivity.
Qed.

Lemma closing_run (result : parsed_response) (a : agent W) :
  callback_returns options_onComplete ->
  exists w,
    Async.bind (act (UpdateTaskCompleted (pr_content result))) (fun _ =>
    Async.bind (act StopThinking) (fun _ =>
    Async.bind (user_call (UserOnComplete result) options_onComplete result)
      (fun _ => Async.ret result))) a
    = (Fulfilled result,
       Agent (messages a) w
             (log a ++ [UpdateTaskCompleted (pr_content result); StopThinking]
                ++ match options_onComplete with
                   | Some _ => [UserOnComplete result]
                   | None => []
                   end)).
Proof.
  intros Hret. rewrite !abind_act.
  match goal with
  | |- context [Async.bind (user_call _ _ _) _ ?a0] =>
      destruct (user_onComplete_returns result a0 Hret) as (w & E)
  end.
  exists w. unfold Async.bind. rewrite E. unfold Async.ret.
  cbn [messages log tools_world]. rewrite <- !app_assoc. reflexivity.
Qed.

Lemma unless_fulfilled_bind {A B : Type} (Q : action -> Prop)
  (c : Async.async (S := agent W) A) (k : A -> Async.async B) :
  logs Q c -> (forall x, logs_unless_fulfilled Q (k x)) ->
  logs_unless_fulfilled Q (Async.bind c k).
Proof.
  intros Hc Hk a. unfold Async.bind. destruct (Hc a) as (m1 & E1 & F1).
  destruct (c a) as [[|x|e] a1]; cbn [snd] in *;
    try (intros _; exists m1; split; assumption).
  intros Hnot. destruct (Hk x a1 Hnot) as (m2 & E2 & F2). exists (m1 ++ m2).
  rewrite E2, E1, app_assoc. split; [reflexivity|].
  apply Forall_app. split; assumption.
Qed.

Lemma handleNonStreamingResponse_unfinished (response_json : promise value)
  (parseResponse : value -> completion parsed_response) :
  callback_returns options_onComplete ->
  logs_unless_fulfilled (fun x => closes_task x = false)
    (handleNonStreamingResponse hasTool executeTool options_onToolCall
       options_onComplete response_json parseResponse).
Proof.
  intros Hret. unfold handleNonStreamingResponse.
  apply unless_fulfilled_bind; [logs_tac|]. intros _.
  apply unless_fulfilled_bind; [apply logs_nothing; reflexivity|]. intros data.
  apply unless_fulfilled_bind; [logs_tac|]. intros result.
  apply unless_fulfilled_bind; [logs_tac|]. intros _.
  apply unless_fulfilled_bind; [logs_tac|]. intros _.
  apply unless_fulfilled_bind; [logs_tac|]. intros _.
  apply unless_fulfilled_bind; [apply nonstreaming_tool_calls_logs|]. intros _.
  intros a Hnot. exfalso.
  destruct (closing_run result a Hret) as (w & E).
  apply (Hnot result). rewrite E. reflexivity.
Qed.

(** The run of [handleNonStreamingResponse] on a response that parses,
    with tools that settle. *)
Lemma handleNonStreamingResponse_run (data : value)
  (parseResponse : value -> completion parsed_response)
  (result : parsed_response) (a : agent W) :
  callback_returns options_onToolCall ->
  callback_returns options_onComplete ->
  parseResponse data = inr result ->
  forallb (fun toolCall => negb (nullish toolCall)) (calls_of result) = true ->
  always_settles executeTool ->
  exists w logged,
    handleNonStreamingResponse hasTool executeTool options_onToolCall
      options_onComplete (Fulfilled data) parseResponse a
    = (Fulfilled result,
       Agent (messages a ++ if truthy (pr_content result)
                            then [assistant_message (pr_content result)]
                            else [])
             w
             (log a ++ ([SetAction (js "Parsing response"); LogApiResponse;
                         LogAssistantMessageCompleted (pr_content result)
                                                      (pr_finishReason result)]
                        ++ logged)
                ++ [UpdateTaskCompleted (pr_content result); StopThinking]
                ++ match options_onComplete with
                   | Some _ => [UserOnComplete result]
                   | None => []
                   end))
    /\ Forall (fun x => closes_task x = false) logged.
Proof.
  intros Hcall Hcomp Hparse Hall Hsettles. unfold handleNonStreamingResponse.
  rewrite abind_act. unfold Async.bind at 1.
  unfold Async.bind at 1, Async.lift at 1. rewrite Hparse.
  rewrite abind_act. cbn [messages tools_world log].
  set (msgs := messages a ++ if truthy (pr_content result)
                             then [assistant_message (pr_content result)]
                             else []).
  match goal with
  | |- context [Async.bind (Async.when _ _) ?K ?a1] =>
      assert (Hpush : Async.bind
                        (Async.when (truthy (pr_content result))
                           (messages_push
                              (VObject [(js "role", VString (js "assistant"));
                                        (js "content", pr_content result)]))) K a1
                      = K tt (Agent msgs (tools_world a1) (log a1)))
  end.
  { subst msgs. destruct (truthy (pr_content result)).
    - reflexivity.
    - cbn [Async.when]. unfold Async.bind, Async.ret.
      cbn [messages tools_world log]. rewrite app_nil_r. reflexivity. }
  rewrite Hpush. clear Hpush. cbn [tools_world log].
  rewrite abind_act. cbn [messages tools_world log].
  match goal with
  | |- context [Async.bind (match pr_toolCalls result with _ => _ end) ?K ?a0] =>
      set (a2 := a0);
      destruct (nonstreaming_tool_calls_logs result a2) as (more & Hmore & Hq);
      assert (Hloop : exists w,
                 match pr_toolCalls result with
                 | Some (first :: others) =>
                     Async.bind (act (SetAction (js "Processing tool calls")))
                       (fun _ => Async.for_each (first :: others)
                          (nonstreaming_toolCall hasTool executeTool
                                                 options_onToolCall))
                 | _ => Async.ret tt
                 end a2
                 = (Fulfilled tt, Agent msgs w (log a2 ++ more)))
  end.
  { unfold calls_of in Hall.
    destruct (pr_toolCalls result) as [[|first others]|].
    - cbn in Hmore |- *. exists (tools_world a). subst a2. cbn in *.
      rewrite <- Hmore. reflexivity.
    - rewrite abind_act in Hmore |- *.
      match goal with
      | |- context [Async.for_each _ _ ?a3] =>
          destruct (nonstreaming_loop_completes W hasTool executeTool
                      options_onToolCall Hcall (first :: others) a3 Hall Hsettles)
            as (w & logged & E & _)
      end.
      rewrite E in Hmore |- *. cbn [snd log messages] in Hmore |- *.
      exists w. rewrite Hmore. subst a2. reflexivity.
    - cbn in Hmore |- *. exists (tools_world a). subst a2. cbn in *.
      rewrite <- Hmore. reflexivity. }
  destruct Hloop as (w & Hloop). unfold Async.bind at 1. rewrite Hloop.
  match goal with
  | |- context [Async.bind (act (UpdateTaskCompleted _)) _ ?a3] =>
      destruct (closing_run result a3 Hcomp) as (w' & ->)
  end.
  exists w', more. split; [|exact Hq].
  subst a2. cbn [messages log]. rewrite <- !app_assoc. reflexivity.
Qed.

End DispatchMore.

(** X18. When the response parses, the tool calls are objects, the tools
    settle and the caller's callbacks return, [handleNonStreamingResponse]
    is fulfilled with the parsed result; the history gains the assistant
    message when the content is truthy and nothing otherwise, whether tools
    fail or not; and the log ends with the task update, the end of
    thinking and the call of [options.onComplete] when there is one, in
    that order and once each. *)
Theorem completed_response_state {W : Type}
  (hasTool : value -> bool)
  (executeTool : value -> value -> W -> promise value * W)
  (options_onToolCall : option (value -> W -> completion unit * W))
  (options_onComplete : option (parsed_response -> W -> completion unit * W))
  (data : value) (parseResponse : value -> completion parsed_response)
  (result : parsed_response) (a : agent W) :
  callback_returns options_onToolCall ->
  callback_returns options_onComplete ->
  parseResponse data = inr result ->
  forallb (fun toolCall => negb (nullish toolCall)) (calls_of result) = true ->
  always_settles executeTool ->
  let run := handleNonStreamingResponse hasTool executeTool
               options_onToolCall options_onComplete
               (Fulfilled data) parseResponse a in
  fst run = Fulfilled result
  /\ messages (snd run)
     = messages a ++ (if truthy (pr_content result)
                      then [assistant_message (pr_content result)]
                      else [])
  /\ exists before,
       log (snd run)
       = log a ++ before
           ++ [UpdateTaskCompleted (pr_content result); StopThinking]
           ++ match options_onComplete with
              | Some _ => [UserOnComplete result]
              | None => []
              end
       /\ forallb (fun x => negb (closes_task x)) before = true.
Proof.
  intros Hcall Hcomp Hparse Hall Hsettles run.
  destruct (handleNonStreamingResponse_run W hasTool executeTool
              options_onToolCall options_onComplete data parseResponse result a
              Hcall Hcomp Hparse Hall Hsettles) as (w & logged & E & Hq).
  subst run. rewrite E. cbn [fst snd messages log].
  split; [reflexivity|]. split; [reflexivity|].
  eexists. split; [reflexivity|].
  apply forallb_forall. intros x Hin. apply in_app_or in Hin as [Hin|Hin].
  - cbn in Hin. destruct Hin as [<-|[<-|[<-|[]]]]; reflexivity.
  - rewrite Forall_forall in Hq. rewrite (Hq x Hin). reflexivity.
Qed.

Lemma completed_response_state_witness :
  callback_returns (W := unit) (A := value) None
  /\ callback_returns (W := unit) (A := parsed_response) None
  /\ forallb (fun toolCall => negb (nullish toolCall))
             (calls_of two_calls_response) = true
  /\ always_settles failing_tool
  /\ messages (snd (handleNonStreamingResponse (fun _ => true) failing_tool None
                      None (Fulfilled VNull) (fun _ => inr two_calls_response)
                      (Agent [] tt [])))
     = [assistant_message (VString (js "Hi"))].
Proof.
  assert (H1 : callback_returns (W := unit) (A := value) None)
    by (intros f Hf; discriminate).
  assert (H2 : callback_returns (W := unit) (A := parsed_response) None)
    by (intros f Hf; discriminate).
  assert (H3 : forallb (fun toolCall => negb (nullish toolCall))
                       (calls_of two_calls_response) = true) by reflexivity.
  assert (H4 : always_settles failing_tool) by (intros n x w; discriminate).
  split; [exact H1|]. split; [exact H2|]. split; [exact H3|]. split; [exact H4|].
  exact (proj1 (proj2 (completed_response_state (fun _ => true) failing_tool
                         None None VNull (fun _ => inr two_calls_response)
                         two_calls_response (Agent [] tt [])
                         H1 H2 eq_refl H3 H4))).
Defined.

(** X19. When [handleNonStreamingResponse] is not fulfilled (the body
    does not parse, a tool call is [null], [options.onToolCall] throws, a
    tool never settles), it has neither updated the task to completed, nor
    stopped thinking, nor called [options.onComplete].
    ([options.onComplete] is taken to return.) *)
Theorem unfinished_response_leaves_task_open {W : Type}
  (hasTool : value -> bool)
  (executeTool : value -> value -> W -> promise value * W)
  (options_onToolCall : option (value -> W -> completion unit * W))
  (options_onComplete : option (parsed_response -> W -> completion unit * W))
  (response_json : promise value)
  (parseResponse : value -> completion parsed_response) (a : agent W) :
  callback_returns options_onComplete ->
  let run := handleNonStreamingResponse hasTool executeTool
               options_onToolCall options_onComplete
               response_json parseResponse a in
  (forall result, fst run <> Fulfilled result) ->
  exists more,
    log (snd run) = log a ++ more
    /\ forallb (fun x => negb (closes_task x)) more = true.
Proof.
  intros Hcomp run Hnot.
  destruct (handleNonStreamingResponse_unfinished W hasTool executeTool
              options_onToolCall options_onComplete response_json parseResponse
              Hcomp a Hnot) as (more & E & Hq).
  exists more. split; [exact E|].
  apply forallb_forall. intros x Hin.
  rewrite Forall_forall in Hq. rewrite (Hq x Hin). reflexivity.
Qed.

Lemma unfinished_response_leaves_task_open_witness :
  callback_returns (W := unit) (A := parsed_response) None
  /\ handleNonStreamingResponse (fun _ => true) failing_tool
       (Some throwing_onToolCall) None
       (Fulfilled VNull) (fun _ => inr two_calls_response) (Agent [] tt [])
     = (Rejected boom,
        Agent [assistant_message (VString (js "Hi"))] tt
              [SetAction (js "Parsing response"); LogApiResponse;
               LogAssistantMessageCompleted (VString (js "Hi"))
                                            (VString (js "tool_calls"));
               SetAction (js "Processing tool calls");
               LogToolCallInitiated (VString (js "search")) (VString (js "{}"));
               UserOnToolCall (VObject [(js "name", VString (js "search"));
                                        (js "arguments", VString (js "{}"))])])
  /\ exists more,
       log (snd (handleNonStreamingResponse (fun _ => true) failing_tool
                   (Some throwing_onToolCall) None
                   (Fulfilled VNull) (fun _ => inr two_calls_response)
                   (Agent [] tt [])))
       = [] ++ more
       /\ forallb (fun x => negb (closes_task x)) more = true.
Proof.
  assert (H : callback_returns (W := unit) (A := parsed_response) None)
    by (intros f Hf; discriminate).
  split; [exact H|]. split; [reflexivity|].
  apply (unfinished_response_leaves_task_open (fun _ => true) failing_tool
           (Some throwing_onToolCall) None (Fulfilled VNull)
           (fun _ => inr two_calls_response) (Agent [] tt []) H).
  intros result. discriminate.
Defined.

Section Unregistered.

Variable W : Type.

Lemma abind_ext {A B : Type} (c : Async.async (S := agent W) A)
  (K K' : A -> Async.async B) (a : agent W) :
  (forall x a', K x a' = K' x a') -> Async.bind c K a = Async.bind c K' a.
Proof.
  intros H. unfold Async.bind. destruct (c a) as [[|x|e] a']; [reflexivity| |reflexivity].
  apply H.
Qed.

Lemma abind_lift_ext {A B : Type} (c : completion A)
  (K K' : A -> Async.async (S := agent W) B) (a : agent W) :
  (forall x, c = inr x -> K x a = K' x a) ->
  Async.bind (Async.lift c) K a = Async.bind (Async.lift c) K' a.
Proof.
  intros H. unfold Async.bind, Async.lift. destruct c as [e|x]; [reflexivity|].
  apply H. reflexivity.
Qed.

End Unregistered.

(** X20. A tool call whose name is not registered is never executed:
    on both paths what happens does not depend on [executeTool]. *)
Theorem unregistered_tool_not_executed
  (NumberToString : Z -> Z -> jsstring) {W : Type}
  (hasTool : value -> bool)
  (executeTool executeTool' : value -> value -> W -> promise value * W)
  (options_onToolCall : option (value -> W -> completion unit * W))
  (toolCall : value) (a : agent W) :
  hasTool (field toolCall "name") = false ->
  streaming_onToolCall NumberToString hasTool executeTool options_onToolCall
                       toolCall a
  = streaming_onToolCall NumberToString hasTool executeTool' options_onToolCall
                         toolCall a
  /\ nonstreaming_toolCall hasTool executeTool options_onToolCall toolCall a
     = nonstreaming_toolCall hasTool executeTool' options_onToolCall toolCall a.
Proof.
  intros H. split.
  - unfold streaming_onToolCall.
    repeat first [ apply abind_lift_ext; intros ? ?
                 | apply abind_ext; intros ? ? ].
    match goal with
    | Hn : get_property toolCall (js "name") = inr ?n |- context [hasTool ?n] =>
        apply get_property_inr_field in Hn; subst n
    end.
    rewrite H. reflexivity.
  - unfold nonstreaming_toolCall.
    repeat first [ apply abind_lift_ext; intros ? ?
                 | apply abind_ext; intros ? ? ].
    match goal with
    | Hn : get_property toolCall (js "name") = inr ?n |- context [hasTool ?n] =>
        apply get_property_inr_field in Hn; subst n
    end.
    rewrite H. reflexivity.
Qed.

Lemma unregistered_tool_not_executed_witness :
  (fun _ : value => false) (field search_call "name") = false
  /\ streaming_onToolCall number_unprinted (fun _ => false) failing_tool None
       search_call (Agent [] tt [])
     = (Fulfilled VUndefined,
        Agent [] tt [SetAction (js "Executing tool: search");
                     LogToolCallInitiated (VString (js "search"))
                                          (VString (js "{}"))])
  /\ streaming_onToolCall number_unprinted (fun _ => false) failing_tool None
       search_call (Agent [] tt [])
     = streaming_onToolCall number_unprinted (fun _ => false)
         (fun _ _ w => (Pending, w)) None search_call (Agent [] tt []).
Proof.
  split; [reflexivity|]. split; [reflexivity|].
  exact (proj1 (unregistered_tool_not_executed number_unprinted (fun _ => false)
                  failing_tool (fun _ _ w => (Pending, w)) None search_call
                  (Agent [] tt []) eq_refl)).
Defined.

Lemma streaming_onToolCall_fulfils
  (NumberToString : Z -> Z -> jsstring) {W : Type}
  (hasTool : value -> bool)
  (executeTool : value -> value -> W -> promise value * W)
  (options_onToolCall : option (value -> W -> completion unit * W))
  (toolCall result : value) (text : jsstring) (a : agent W) :
  callback_returns options_onToolCall ->
  nullish toolCall = false ->
  to_string NumberToString (field toolCall "name") = inr text ->
  hasTool (field toolCall "name") = true ->
  always_fulfils executeTool (field toolCall "name") (field toolCall "arguments")
                 result ->
  exists w,
    streaming_onToolCall NumberToString hasTool executeTool
                         options_onToolCall toolCall a
    = (if nullish result
       then Rejected (TypeError "Cannot read properties of null or undefined")
       else Fulfilled result,
       Agent (messages a) w
         (log a
            ++ [SetAction (js "Executing tool: " ++ text);
                LogToolCallInitiated (field toolCall "name")
                                     (field toolCall "arguments")]
            ++ match options_onToolCall with
               | Some _ => [UserOnToolCall toolCall]
               | None => []
               end
            ++ if nullish result
               then [LogToolCallFailed (field toolCall "name")
                       (field toolCall "arguments")
                       (TypeError "Cannot read properties of null or undefined");
                     ConsoleError
                       (TypeError "Cannot read properties of null or undefined")]
               else [LogToolCallCompleted (field toolCall "name")
                       (field toolCall "arguments") (field result "result")])).
Proof.
  intros Hret Hn Htext Hhas Hful. unfold streaming_onToolCall.
  rewrite abind_get by assumption.
  rewrite (abind_lift W _ text) by assumption.
  rewrite abind_act.
  rewrite abind_get by assumption. rewrite abind_get by assumption.
  rewrite abind_act.
  match goal with
  | |- context [Async.bind (user_call _ _ ?x) ?K ?s] =>
      destruct (abind_user_onToolCall W options_onToolCall Hret x K s)
        as (w1 & ->)
  end.
  cbn [messages log tools_world].
  rewrite abind_get by assumption. rewrite Hhas.
  unfold Async.try_catch.
  rewrite abind_get by assumption. rewrite abind_get by assumption.
  unfold Async.bind at 1, await_executeTool at 1.
  cbn [messages log tools_world].
  specialize (Hful w1).
  destruct (executeTool (field toolCall "name") (field toolCall "arguments") w1)
    as [p w2]. cbn [fst] in Hful. subst p.
  rewrite abind_get by assumption. rewrite abind_get by assumption.
  exists w2.
  destruct (nullish result) eqn:Hr.
  - assert (Hget : get_property result (js "result")
                   = inl (TypeError "Cannot read properties of null or undefined")).
    { destruct result; try discriminate; reflexivity. }
    unfold Async.bind at 1, Async.lift at 1. rewrite Hget.
    rewrite abind_get by assumption. rewrite abind_get by assumption.
    rewrite abind_act, abind_act. unfold Async.throw.
    cbn [messages log tools_world]. rewrite <- !app_assoc. reflexivity.
  - rewrite abind_get by assumption. rewrite abind_act. unfold Async.ret.
    cbn [messages log tools_world]. rewrite <- !app_assoc. reflexivity.
Qed.

(** X21. The [onToolCall] closure of the streaming path, for a registered
    tool whose execution is fulfilled with [result]: it logs the completion
    with [result.result] and its promise is fulfilled with [result] itself;
    but when [result] is [null] or [undefined], reading [result.result]
    throws inside the [try], so that the call is logged as failed and the
    promise is rejected with a TypeError. *)
Theorem streaming_onToolCall_outcome
  (NumberToString : Z -> Z -> jsstring) {W : Type}
  (hasTool : value -> bool)
  (executeTool : value -> value -> W -> promise value * W)
  (options_onToolCall : option (value -> W -> completion unit * W))
  (toolCall result : value) (text : jsstring) (a : agent W) :
  callback_returns options_onToolCall ->
  nullish toolCall = false ->
  to_string NumberToString (field toolCall "name") = inr text ->
  hasTool (field toolCall "name") = true ->
  always_fulfils executeTool (field toolCall "name") (field toolCall "arguments")
                 result ->
  let run := streaming_onToolCall NumberToString hasTool executeTool
                                  options_onToolCall toolCall a in
  let name := field toolCall "name" in
  let arguments := field toolCall "arguments" in
  exists reported,
    log (snd run)
    = log a ++ [SetAction (js "Executing tool: " ++ text);
                LogToolCallInitiated name arguments]
        ++ match options_onToolCall with
           | Some _ => [UserOnToolCall toolCall]
           | None => []
           end
        ++ reported
    /\ if nullish result
       then fst run
            = Rejected (TypeError "Cannot read properties of null or undefined")
            /\ reported
               = [LogToolCallFailed name arguments
                    (TypeError "Cannot read properties of null or undefined");
                  ConsoleError
                    (TypeError "Cannot read properties of null or undefined")]
       else fst run = Fulfilled result
            /\ reported
               = [LogToolCallCompleted name arguments (field result "result")].
Proof.
  intros Hret Hn Htext Hhas Hful run name arguments.
  destruct (streaming_onToolCall_fulfils NumberToString hasTool executeTool
              options_onToolCall toolCall result text a Hret Hn Htext Hhas Hful)
    as (w & E).
  subst run name arguments. rewrite E. cbn [fst snd log].
  eexists. split; [reflexivity|].
  destruct (nullish result); split; reflexivity.
Qed.

Lemma streaming_onToolCall_outcome_witness :
  callback_returns (W := unit) (A := value) None
  /\ nullish search_call = false
  /\ to_string number_unprinted (field search_call "name") = inr (js "search")
  /\ always_fulfils ok_tool (field search_call "name")
       (field search_call "arguments")
       (VObject [(js "success", VBool true); (js "result", VString (js "done"))])
  /\ exists reported,
       log (snd (streaming_onToolCall number_unprinted (fun _ => true) ok_tool
                   None search_call (Agent [] tt [])))
       = [SetAction (js "Executing tool: search");
          LogToolCallInitiated (VString (js "search")) (VString (js "{}"))]
           ++ reported
       /\ fst (streaming_onToolCall number_unprinted (fun _ => true) ok_tool
                 None search_call (Agent [] tt []))
          = Fulfilled (VObject [(js "success", VBool true);
                                (js "result", VString (js "done"))])
       /\ reported
          = [LogToolCallCompleted (VString (js "search")) (VString (js "{}"))
                                  (VString (js "done"))].
Proof.
  assert (H1 : callback_returns (W := unit) (A := value) None)
    by (intros f Hf; discriminate).
  assert (H4 : always_fulfils ok_tool (field search_call "name")
                 (field search_call "arguments")
                 (VObject [(js "success", VBool true);
                           (js "result", VString (js "done"))]))
    by (intros w; reflexivity).
  split; [exact H1|]. split; [reflexivity|]. split; [reflexivity|].
  split; [exact H4|].
  exact (streaming_onToolCall_outcome number_unprinted (fun _ => true) ok_tool
           None search_call _ (js "search") (Agent [] tt [])
           H1 eq_refl eq_refl eq_refl H4).
Defined.

(* ================================================================== *)
(** ** The events a fulfilled session has delivered; callbacks that throw *)
(* ================================================================== *)

Section Delivered.

Variable JSON_parse : jsstring -> completion value.
Variable formatThinkingContent : value -> value.
Variable NumberToString : Z -> Z -> jsstring.
Variable W : Type.
Variable cbs : callbacks W.
Variable provider : jsstring.

Local Abbreviation handle := (handle_item formatThinkingContent NumberToString cbs).

(** The loop body, when it returns on an event of the decoders, has made
    the call of that event. *)
Lemma handle_item_returns (item : value) (s : session W) :
  decoded item ->
  fst (handle item s) = inr tt ->
  calls (snd (handle item s)) = calls s ++ call_of_event item.
Proof.
  intros (_ & Hthink & Herr). unfold call_of_event.
  unfold handle_item, bind, lift, ret, throw, invoke, append_fullContent,
    append_thinkingContent, push_toolCall.
  destruct (get_property item (js "type")) as [e|ty] eqn:Ety; cbn [fst snd];
    [discriminate|].
  assert (Hty : forall name, is_string ty (js name) = has_type name item).
  { intros name. unfold has_type, event_type. rewrite Ety. reflexivity. }
  rewrite !Hty, Hthink, Herr.
  destruct (has_type "token" item).
  { destruct (get_property item (js "content")) as [e|c] eqn:Ec; cbn [fst snd];
      [discriminate|].
    apply get_property_inr_field in Ec. subst c.
    destruct (to_string NumberToString (field item "content")) as [e|text];
      cbn [fst snd]; [discriminate|].
    intros _. reflexivity. }
  destruct (has_type "tool_call" item).
  { destruct (get_property item (js "data")) as [e|d] eqn:Ed; cbn [fst snd];
      [discriminate|].
    apply get_property_inr_field in Ed. subst d.
    intros _. reflexivity. }
  intros _. cbn. rewrite app_nil_r. reflexivity.
Qed.

Lemma for_each_returns (items : list value) (s : session W) :
  Forall decoded items ->
  fst (for_each items handle s) = inr tt ->
  calls (snd (for_each items handle s))
  = calls s ++ flat_map call_of_event items.
Proof.
  intros Hall. revert s. induction Hall as [|item items Hitem _ IH]; intros s.
  - intros _. cbn. rewrite app_nil_r. reflexivity.
  - cbn [for_each flat_map]. unfold bind.
    pose proof (handle_item_returns item s Hitem) as Hcalls.
    destruct (handle item s) as [[e|[]] s1]; cbn [fst snd] in *; [discriminate|].
    intros Hrest. rewrite (IH s1 Hrest), (Hcalls eq_refl), app_assoc.
    reflexivity.
Qed.

Lemma handleStream_delivers (text : jsstring) (w : W) (r : Result.t)
  (s : session W) :
  handleStream JSON_parse formatThinkingContent NumberToString cbs provider
               (Stream (Chunk text false Done)) w = (Fulfilled r, s) ->
  calls s = flat_map call_of_event (buffer_events JSON_parse provider text)
              ++ [OnComplete r].
Proof.
  unfold handleStream, try_block. cbv zeta.
  cbn [read_loop initial_session this isStreaming].
  rewrite processBuffer_spec. unfold set_buffer. cbn [buffer isStreaming app].
  assert (Hdec : Forall decoded (buffer_events JSON_parse provider text)).
  { destruct (decoded_event_types decoded) as (Ht & Hc & Hf).
    { intros item H1 H2 H3. repeat split; assumption. }
    apply buffer_events_Forall; assumption. }
  match goal with
  | |- context [for_each ?items _ ?s0] =>
      pose proof (for_each_returns items s0 Hdec) as Hcalls;
      destruct (for_each items handle s0) as [[e|[]] s1]
  end; cbn [fst snd] in *.
  - destruct (catch_block cbs e s1). discriminate.
  - specialize (Hcalls eq_refl). cbn [calls with_this] in Hcalls.
    destruct (isStreaming (this s1)).
    all: match goal with
         | |- context [invoke ?rec ?cb ?a ?sx] =>
             pose proof (invoke_session W rec cb a sx) as (Hc & _);
             destruct (invoke rec cb a sx) as [[e|u] s2]
         end; cbn [snd] in *.
    all: try (destruct (catch_block cbs e s2); discriminate).
    all: intros H; inversion H; subst; unfold finally_block, with_this;
         cbn [calls]; rewrite Hc, Hcalls; reflexivity.
Qed.

End Delivered.



(** X23. When [options.onToolCall] throws, the tool is not executed on
    either path.  The closure of the streaming path is rejected with what
    was thrown, once the call is logged as initiated; so is the iteration
    of the non-streaming path, whose [try] does not cover the call of
    [options.onToolCall]. *)
Theorem throwing_onToolCall_skips_tool
  (NumberToString : Z -> Z -> jsstring) {W : Type}
  (hasTool : value -> bool)
  (executeTool : value -> value -> W -> promise value * W)
  (onToolCall : value -> W -> completion unit * W)
  (toolCall : value) (text : jsstring) (e : thrown) (a : agent W) :
  nullish toolCall = false ->
  to_string NumberToString (field toolCall "name") = inr text ->
  fst (onToolCall toolCall (tools_world a)) = inl e ->
  streaming_onToolCall NumberToString hasTool executeTool (Some onToolCall)
                       toolCall a
  = (Rejected e,
     Agent (messages a) (snd (onToolCall toolCall (tools_world a)))
           (log a ++ [SetAction (js "Executing tool: " ++ text);
                      LogToolCallInitiated (field toolCall "name")
                                           (field toolCall "arguments");
                      UserOnToolCall toolCall]))
  /\ nonstreaming_toolCall hasTool executeTool (Some onToolCall) toolCall a
     = (Rejected e,
        Agent (messages a) (snd (onToolCall toolCall (tools_world a)))
              (log a ++ [LogToolCallInitiated (field toolCall "name")
                                              (field toolCall "arguments");
                         UserOnToolCall toolCall])).
Proof.
  intros Hn Htext He. split.
  - unfold streaming_onToolCall.
    rewrite abind_get by assumption.
    rewrite (abind_lift W _ text) by assumption.
    rewrite abind_act.
    rewrite abind_get by assumption. rewrite abind_get by assumption.
    rewrite abind_act.
    unfold Async.bind at 1, user_call. cbn [messages log tools_world].
    destruct (onToolCall toolCall (tools_world a)) as [c w1]. cbn [fst snd] in *.
    subst c. rewrite <- !app_assoc. reflexivity.
  - unfold nonstreaming_toolCall.
    rewrite abind_get by assumption. rewrite abind_get by assumption.
    rewrite abind_act.
    unfold Async.bind at 1, user_call. cbn [messages log tools_world].
    destruct (onToolCall toolCall (tools_world a)) as [c w1]. cbn [fst snd] in *.
    subst c. rewrite <- !app_assoc. reflexivity.
Qed.

Lemma throwing_onToolCall_skips_tool_witness :
  nullish search_call = false
  /\ to_string number_unprinted (field search_call "name") = inr (js "search")
  /\ fst (throwing_onToolCall search_call tt) = inl boom
  /\ fst (streaming_onToolCall number_unprinted (fun _ => true) ok_tool
            (Some throwing_onToolCall) search_call (Agent [] tt []))
     = Rejected boom.
Proof.
  split; [reflexivity|]. split; [reflexivity|]. split; [reflexivity|].
  exact (f_equal fst
           (proj1 (throwing_onToolCall_skips_tool number_unprinted (fun _ => true)
                     ok_tool throwing_onToolCall search_call (js "search") boom
                     (Agent [] tt []) eq_refl eq_refl eq_refl))).
Defined.
